(** * Survey map: view-state codec, point index and search

    A shallow embedding of the view-state synchronisation and search code of
    the survey map application:

    - [src/hooks/use-url-state.ts]      ([parseUrlState], [updateUrlState]),
    - [src/components/map-container.tsx] ([searchAndFlyTo], [getSuggestions],
      [loadGeoJSONData]),
    - [src/components/search-box.tsx]    ([handleInputChange]),
    - the page component                 ([handleSearchById]).

    The second part of the definitions covers the rest of this code: the
    share links and the clearing of the hook, the earlier hook with its
    fragment of three parts between slashes, the other callbacks of the page
    and of the search box, the view that the container takes from the
    fragment, its zoom handler and the statistics, and the earlier loader.

    Conventions of the embedding.

    - A JavaScript string is a [string]; the embedding is exact on ASCII text.
      Characters above 127 are carried along as opaque characters that are
      neither white space nor letters with a case.  [toLowerCase] is
      therefore the method of JavaScript on ASCII text only, and a statement
      that rests on what lower-casing does to letters assumes [isAscii] of
      the texts it compares.
    - A call that can throw returns a [result]: the value, or the exception.
      A cell identifier of the dataset is a value of any JSON type, as the
      loader keeps it; calling a string method on one that is not a string
      throws.
    - A JavaScript number is a [num]: [NaN], an infinity, or a finite value
      carried as a rational.  The two zeros are identified.  The rounding of
      an exact result to a double is the operation [fl] of the [Runtime]
      class; the statements hold for every engine that meets [RuntimeOK],
      and IEEE-754 binary64 rounding to nearest, defined here as
      [binary64_round], is shown to meet it.
    - The address bar is a [URL] record; an update returns the new record
      (the argument of [history.replaceState]). *)

From Stdlib Require Import Bool Ascii String List ZArith NArith QArith Qabs Qround Qpower Qfield.
From Stdlib Require Import Lia Lqa Decimal DecimalString DecimalPos.
From Stdlib Require Import Sorting.Mergesort Sorting.Sorted Sorting.Permutation.
From Stdlib Require Import Orders.
Import ListNotations.

Local Open Scope list_scope.
Local Open Scope string_scope.

(* ================================================================= *)
(** ** JavaScript strings *)

Module JSString.

(** White space of [String.prototype.trim] and of [StringToNumber] in the
    ASCII range: TAB, LF, VT, FF, CR and SP. *)
Definition isSpace (c : ascii) : bool :=
  let n := N_of_ascii c in
  ((9 <=? n) && (n <=? 13) || (n =? 32))%N.

Fixpoint trimStart (s : string) : string :=
  match s with
  | String c r => if isSpace c then trimStart r else s
  | EmptyString => EmptyString
  end.

Fixpoint trimEnd (s : string) : string :=
  match s with
  | String c r =>
      match trimEnd r with
      | EmptyString => if isSpace c then EmptyString else String c EmptyString
      | r' => String c r'
      end
  | EmptyString => EmptyString
  end.

Definition trim (s : string) : string := trimEnd (trimStart s).

(** [toLowerCase] on ASCII text: the letters [A] to [Z] are folded, every
    other character is kept. *)
Definition lowerChar (c : ascii) : ascii :=
  let n := N_of_ascii c in
  if ((65 <=? n) && (n <=? 90))%N then ascii_of_N (n + 32) else c.

Fixpoint toLowerCase (s : string) : string :=
  match s with
  | String c r => String (lowerChar c) (toLowerCase r)
  | EmptyString => EmptyString
  end.

(** [startsWith p s] is [s.startsWith(p)]. *)
Definition startsWith (p s : string) : bool := String.prefix p s.

(** [includes p s] is [s.includes(p)]. *)
Fixpoint includes (p s : string) : bool :=
  String.prefix p s ||
  match s with
  | String _ r => includes p r
  | EmptyString => false
  end.

(** [substringFrom n s] is [s.substring(n)]. *)
Fixpoint substringFrom (n : nat) (s : string) : string :=
  match n, s with
  | O, _ => s
  | S n', String _ r => substringFrom n' r
  | S _, EmptyString => EmptyString
  end.

(** [split sep s] is [s.split(sep)] for a separator of one character. *)
Fixpoint split (sep : ascii) (s : string) : list string :=
  match s with
  | EmptyString => [EmptyString]
  | String c r =>
      if Ascii.eqb c sep then EmptyString :: split sep r
      else match split sep r with
           | h :: t => String c h :: t
           | [] => [String c EmptyString]
           end
  end.

(** A non-empty string is truthy. *)
Definition truthy (s : string) : bool := negb (String.eqb s EmptyString).

(** [mem c s]: the character [c] occurs in [s]. *)
Fixpoint mem (c : ascii) (s : string) : bool :=
  match s with
  | String d r => Ascii.eqb d c || mem c r
  | EmptyString => false
  end.

End JSString.
Import JSString.

(* ================================================================= *)
(** ** JavaScript numbers *)

Inductive num : Type :=
| NaN : num
| Inf (negative : bool) : num
| Fin (q : Q) : num.

Definition isNaN (x : num) : bool :=
  match x with NaN => true | _ => false end.

(** [Number.isFinite] on a number. *)
Definition isFiniteNum (x : num) : bool :=
  match x with Fin _ => true | _ => false end.

(** The same number: finite values are compared as rationals. *)
Definition num_eqb (x y : num) : bool :=
  match x, y with
  | NaN, NaN => true
  | Inf s, Inf t => Bool.eqb s t
  | Fin a, Fin b => Qeq_bool a b
  | _, _ => false
  end.

(** What the engine supplies: the rounding [fl] of an exact rational result
    to a double (possibly an infinity on overflow), and the digits
    [toStringOther] that [Number::toString] prints for a finite number that
    is not an integer up to 2^53 (the shortest digits that read back as the
    same double, in fixed or exponent notation). *)
Class Runtime : Type := {
  fl : Q -> num;
  toStringOther : Q -> string
}.

(** Characters that can occur in the decimal text of a number. *)
Definition numericChar (c : ascii) : bool :=
  let n := N_of_ascii c in
  ((48 <=? n) && (n <=? 57) || (n =? 43) || (n =? 45) || (n =? 46) || (n =? 101))%N.

Fixpoint allChars (f : ascii -> bool) (s : string) : bool :=
  match s with
  | String c r => f c && allChars f r
  | EmptyString => true
  end.

Definition eps : Q := (1 # (2 ^ 53))%Q.
Definition maxSafe : Z := (2 ^ 53)%Z.

(** The properties of the engine that the proofs rely on: no rounding gives
    NaN, an integer up to 2^53 is a double, on [|x| <= 2^53] the rounding
    error is at most [2^-53 * (|x| + 1)], and the digits of a number hold
    only numeric characters. *)
Record RuntimeOK (RT : Runtime) : Prop := {
  fl_not_NaN : forall x, fl x <> NaN;
  fl_int : forall (x : Q) (z : Z),
      (x == inject_Z z)%Q -> (Z.abs z <= maxSafe)%Z ->
      exists y, fl x = Fin y /\ (y == x)%Q;
  fl_err : forall x : Q,
      (Qabs x <= inject_Z maxSafe)%Q ->
      exists y, fl x = Fin y /\ (Qabs (y - x) <= (Qabs x + 1) * eps)%Q;
  toStringOther_chars : forall q, allChars numericChar (toStringOther q) = true
}.

(** *** IEEE-754 binary64: rounding to nearest, ties to even *)

Definition pow2 (e : Z) : Q := ((2 # 1) ^ e)%Q.

(** The exponent [k] with [2^k <= a < 2^(k+1)], for a positive [a]. *)
Definition floorLog2 (a : Q) : Z :=
  let k := (Z.log2 (Qnum a) - Z.log2 (Zpos (Qden a)))%Z in
  if Qle_bool (pow2 k) a then k else (k - 1)%Z.

(** The nearest integer, a tie going to the even one. *)
Definition roundHalfEven (q : Q) : Z :=
  let f := Qfloor q in
  match Qcompare (q - inject_Z f) (1 # 2) with
  | Lt => f
  | Gt => (f + 1)%Z
  | Eq => if Z.even f then f else (f + 1)%Z
  end.

(** The exponent of the unit in the last place of the double nearest to a
    positive [a]: 52 below the exponent of [a], and -1074 for a subnormal. *)
Definition ulpExponent (a : Q) : Z := Z.max (floorLog2 a - 52) (-1074).

(** The double nearest to a positive [a], before the overflow test. *)
Definition roundPositive (a : Q) : Q :=
  (inject_Z (roundHalfEven (a / pow2 (ulpExponent a))) * pow2 (ulpExponent a))%Q.

(** The double nearest to [x]: an infinity from 2^1024 on. *)
Definition binary64_round (x : Q) : num :=
  match Qcompare x 0 with
  | Eq => Fin 0
  | c =>
      let y := roundPositive (Qabs x) in
      let negative := match c with Lt => true | _ => false end in
      if Qle_bool (pow2 1024) y then Inf negative
      else Fin (if negative then (- y)%Q else y)
  end.

(** The engine with binary64 arithmetic; the digits printed for a number
    that is not an integer up to 2^53 are a parameter. *)
Definition binary64 (digits : Q -> string) : Runtime :=
  {| fl := binary64_round; toStringOther := digits |}.

(** The engine of the examples.  None of them prints a number outside the
    integers up to 2^53; for such a number this engine prints the integer
    part with a zero exponent. *)
Definition integerDigits (q : Q) : string :=
  NilZero.string_of_int (Z.to_int (Qfloor q)) ++ "e+0".

Definition engine : Runtime := binary64 integerDigits.

Section Numbers.
Context {RT : Runtime}.

Definition num_mul (x y : num) : num :=
  match x, y with
  | NaN, _ | _, NaN => NaN
  | Fin a, Fin b => fl (a * b)%Q
  | Inf s, Inf t => Inf (xorb s t)
  | Inf s, Fin b | Fin b, Inf s =>
      match (b ?= 0)%Q with
      | Eq => NaN
      | Gt => Inf s
      | Lt => Inf (negb s)
      end
  end.

(** Division; a zero divisor stands for +0. *)
Definition num_div (x y : num) : num :=
  match x, y with
  | NaN, _ | _, NaN => NaN
  | Inf _, Inf _ => NaN
  | Inf s, Fin b => Inf (if Qlt_le_dec b 0 then negb s else s)
  | Fin _, Inf _ => Fin 0
  | Fin a, Fin b =>
      match (b ?= 0)%Q with
      | Eq => match (a ?= 0)%Q with
              | Eq => NaN
              | Gt => Inf false
              | Lt => Inf true
              end
      | _ => fl (a / b)%Q
      end
  end.

(** [Math.round]: the nearest integer, ties towards +infinity. *)
Definition Math_round (x : num) : num :=
  match x with
  | Fin q => Fin (inject_Z (Qfloor (q + (1 # 2))%Q))
  | _ => x
  end.

(** *** [Number(s)]: the StringNumericLiteral grammar *)

Definition digitOf (c : ascii) : option N :=
  let n := N_of_ascii c in
  if ((48 <=? n) && (n <=? 57))%N then Some (n - 48)%N
  else if ((97 <=? n) && (n <=? 102))%N then Some (n - 87)%N
  else if ((65 <=? n) && (n <=? 70))%N then Some (n - 55)%N
  else None.

Definition isDigit (c : ascii) : bool :=
  let n := N_of_ascii c in ((48 <=? n) && (n <=? 57))%N.

(** The value of a string made only of digits of the given radix. *)
Fixpoint digitsIn (radix acc : N) (s : string) : option N :=
  match s with
  | EmptyString => Some acc
  | String c r =>
      match digitOf c with
      | Some d => if (d <? radix)%N then digitsIn radix (radix * acc + d)%N r else None
      | None => None
      end
  end.

Fixpoint spanDigits (s : string) : string * string :=
  match s with
  | String c r =>
      if isDigit c then let (d, rest) := spanDigits r in (String c d, rest)
      else (EmptyString, s)
  | EmptyString => (EmptyString, EmptyString)
  end.

Definition signOf (s : string) : bool * string :=
  match s with
  | String c r =>
      if Ascii.eqb c "-" then (true, r)
      else if Ascii.eqb c "+" then (false, r)
      else (false, s)
  | EmptyString => (false, s)
  end.

(** ExponentPart, or nothing. *)
Definition exponentPart (s : string) : option Z :=
  match s with
  | EmptyString => Some 0%Z
  | String c r =>
      if (Ascii.eqb c "e" || Ascii.eqb c "E")%bool then
        let (neg, ds) := signOf r in
        if truthy ds then
          match digitsIn 10 0 ds with
          | Some n => Some (if neg then - Z.of_N n else Z.of_N n)%Z
          | None => None
          end
        else None
      else None
  end.

(** StrUnsignedDecimalLiteral apart from [Infinity]: its exact value. *)
Definition unsignedDecimal (s : string) : option Q :=
  let (ip, r1) := spanDigits s in
  let (fp, r2) := match r1 with
                  | String "." r => spanDigits r
                  | _ => (EmptyString, r1)
                  end in
  if (negb (truthy ip) && negb (truthy fp))%bool then None
  else match exponentPart r2, digitsIn 10 0 (ip ++ fp) with
       | Some e, Some m =>
           Some (inject_Z (Z.of_N m) * (10 # 1) ^ (e - Z.of_nat (String.length fp)))%Q
       | _, _ => None
       end.

(** NonDecimalIntegerLiteral: [0x], [0o] and [0b] prefixes. *)
Definition nonDecimal (s : string) : option N :=
  match s with
  | String c (String x r) =>
      let radix :=
        if (Ascii.eqb x "x" || Ascii.eqb x "X")%bool then Some 16%N
        else if (Ascii.eqb x "o" || Ascii.eqb x "O")%bool then Some 8%N
        else if (Ascii.eqb x "b" || Ascii.eqb x "B")%bool then Some 2%N
        else None in
      match radix with
      | Some b => if (Ascii.eqb c "0" && truthy r)%bool then digitsIn b 0 r else None
      | None => None
      end
  | _ => None
  end.

Definition Number (s : string) : num :=
  let t := trim s in
  if truthy t then
    match nonDecimal t with
    | Some n => fl (inject_Z (Z.of_N n))
    | None =>
        let (neg, u) := signOf t in
        if String.eqb u "Infinity" then Inf neg
        else match unsignedDecimal u with
             | Some q => fl (if neg then (- q)%Q else q)
             | None => NaN
             end
    end
  else Fin 0.

(** *** [Number::toString] *)

Definition Z_toString (z : Z) : string := NilZero.string_of_int (Z.to_int z).

Definition isInteger (q : Q) : bool := Qeq_bool (inject_Z (Qfloor q)) q.

Definition toString (x : num) : string :=
  match x with
  | NaN => "NaN"
  | Inf false => "Infinity"
  | Inf true => "-Infinity"
  | Fin q =>
      if (isInteger q && (Z.abs (Qfloor q) <=? maxSafe)%Z)%bool
      then Z_toString (Qfloor q)
      else toStringOther q
  end.

End Numbers.

(* ================================================================= *)
(** ** URLs and their query parameters *)

(** A URL split into the part up to the path, the query (without [?]) and
    the fragment (without [#]); an absent component is [None]. *)
Record URL : Type := {
  base : string;
  query : option string;
  fragment : option string
}.

(** [location.hash]: empty when the fragment is absent or empty. *)
Definition location_hash (u : URL) : string :=
  match fragment u with
  | Some f => if truthy f then String "#" f else EmptyString
  | None => EmptyString
  end.

(** [location.search]: empty when the query is absent or empty. *)
Definition location_search (u : URL) : string :=
  match query u with
  | Some q => if truthy q then String "?" q else EmptyString
  | None => EmptyString
  end.

(** The setter of [url.hash]: the empty string removes the fragment, and one
    leading [#] is dropped.  (The setter percent-encodes controls, space and
    a few delimiters, none of which the store writes.) *)
Definition set_hash (v : string) (u : URL) : URL :=
  {| base := base u;
     query := query u;
     fragment := if truthy v
                 then Some (match v with String "#" r => r | _ => v end)
                 else None |}.

Module URLSearchParams.

Definition t : Type := list (string * string).

Definition hexDigit (c : ascii) : option N := digitOf c.

Fixpoint percentDecode (s : string) : string :=
  match s with
  | EmptyString => EmptyString
  | String c r0 =>
      if Ascii.eqb c "%" then
        match r0 with
        | String a (String b r) =>
            match hexDigit a, hexDigit b with
            | Some x, Some y => String (ascii_of_N (16 * x + y)) (percentDecode r)
            | _, _ => String c (percentDecode r0)
            end
        | _ => String c (percentDecode r0)
        end
      else String c (percentDecode r0)
  end.

Fixpoint plusToSpace (s : string) : string :=
  match s with
  | String c r => String (if Ascii.eqb c "+" then " "%char else c) (plusToSpace r)
  | EmptyString => EmptyString
  end.

(** Cut a string at the first [=]; without one the value is empty. *)
Fixpoint cutAtEq (s : string) : string * string :=
  match s with
  | EmptyString => (EmptyString, EmptyString)
  | String c r =>
      if Ascii.eqb c "=" then (EmptyString, r)
      else let (n, v) := cutAtEq r in (String c n, v)
  end.

Definition decodeComponent (s : string) : string := percentDecode (plusToSpace s).

Fixpoint parsePairs (l : list string) : t :=
  match l with
  | [] => []
  | s :: r =>
      if truthy s then
        let (n, v) := cutAtEq s in
        (decodeComponent n, decodeComponent v) :: parsePairs r
      else parsePairs r
  end.

(** The [application/x-www-form-urlencoded] parser. *)
Definition parseUrlencoded (s : string) : t := parsePairs (split "&" s).

(** [new URLSearchParams(init)] for a string: one leading [?] is dropped. *)
Definition parse (init : string) : t :=
  parseUrlencoded (match init with String "?" r => r | _ => init end).

Definition hexChar (n : N) : ascii :=
  if (n <? 10)%N then ascii_of_N (48 + n) else ascii_of_N (55 + n).

(** Bytes that the serialiser leaves as they are: ASCII letters and digits
    and [* - . _]. *)
Definition unreserved (c : ascii) : bool :=
  let n := N_of_ascii c in
  ((48 <=? n) && (n <=? 57) || (65 <=? n) && (n <=? 90) || (97 <=? n) && (n <=? 122)
   || (n =? 42) || (n =? 45) || (n =? 46) || (n =? 95))%N.

Fixpoint encodeComponent (s : string) : string :=
  match s with
  | EmptyString => EmptyString
  | String c r =>
      if unreserved c then String c (encodeComponent r)
      else if Ascii.eqb c " " then String "+" (encodeComponent r)
      else let n := N_of_ascii c in
           String "%" (String (hexChar (n / 16)) (String (hexChar (n mod 16)) (encodeComponent r)))
  end.

Fixpoint serialize (l : t) : string :=
  match l with
  | [] => EmptyString
  | [(n, v)] => encodeComponent n ++ String "=" (encodeComponent v)
  | (n, v) :: r => encodeComponent n ++ String "=" (encodeComponent v) ++ String "&" (serialize r)
  end.

(** [get]: the value of the first pair of that name. *)
Fixpoint get (name : string) (l : t) : option string :=
  match l with
  | [] => None
  | (n, v) :: r => if String.eqb n name then Some v else get name r
  end.

(** [delete]: every pair of that name goes. *)
Definition delete (name : string) (l : t) : t :=
  filter (fun p => negb (String.eqb (fst p) name)) l.

(** [set]: the first pair of that name takes the value and the other pairs
    of that name go; without such a pair one is appended. *)
Fixpoint set (name value : string) (l : t) : t :=
  match l with
  | [] => [(name, value)]
  | (n, v) :: r =>
      if String.eqb n name then (n, value) :: delete name r
      else (n, v) :: set name value r
  end.

End URLSearchParams.

(** [url.searchParams] is read from the query, changed, and written back:
    an empty list leaves no query. *)
Definition update_searchParams (f : URLSearchParams.t -> URLSearchParams.t) (u : URL) : URL :=
  let s := URLSearchParams.serialize
             (f (URLSearchParams.parseUrlencoded
                   (match query u with Some q => q | None => EmptyString end))) in
  {| base := base u;
     query := if truthy s then Some s else None;
     fragment := fragment u |}.

(* ================================================================= *)
(** ** The hook [useUrlState]  (src/hooks/use-url-state.ts) *)

Module MapState.
(** [Partial<MapState>]: a field that is [undefined] is [None]. *)
Record t : Type := {
  zoom : option num;
  lat : option num;
  lng : option num;
  cellId : option string
}.
Definition empty : t := {| zoom := None; lat := None; lng := None; cellId := None |}.
Definition setPosition (z la ln : num) (s : t) : t :=
  {| zoom := Some z; lat := Some la; lng := Some ln; cellId := cellId s |}.
Definition setCellId (c : string) (s : t) : t :=
  {| zoom := zoom s; lat := lat s; lng := lng s; cellId := Some c |}.
End MapState.

Section UrlState.
Context {RT : Runtime}.

Definition hundredThousand : num := Fin (100000 # 1).

(** Lines 17-45: the position held by the fragment. *)
Definition parseHash (hash : string) (state : MapState.t) : MapState.t :=
  if truthy hash then
    if includes "/" hash then
      let parts := split "/" hash in
      if (List.length parts =? 3)%nat then
        match List.map Number parts with
        | [zoom; lat; lng] =>
            if (negb (isNaN zoom) && negb (isNaN lat) && negb (isNaN lng))%bool
            then MapState.setPosition zoom lat lng state
            else state
        | _ => state
        end
      else state
    else if startsWith "map_" hash then
      let parts := split "_" (substringFrom 4 hash) in
      if (List.length parts =? 3)%nat then
        let zoom := Number (nth 0 parts EmptyString) in
        let lat := num_div (Number (nth 1 parts EmptyString)) hundredThousand in
        let lng := num_div (Number (nth 2 parts EmptyString)) hundredThousand in
        if (negb (isNaN zoom) && negb (isNaN lat) && negb (isNaN lng))%bool
        then MapState.setPosition zoom lat lng state
        else state
      else state
    else state
  else state.

(** [parseUrlState] (lines 13-59).  Nothing in the body can throw on a
    string, so the [catch] branch is never taken. *)
Definition parseUrlState (location : URL) : MapState.t :=
  let state := MapState.empty in
  let hash := substringFrom 1 (location_hash location) in
  let state := parseHash hash state in
  let urlParams := URLSearchParams.parse (location_search location) in
  match URLSearchParams.get "id" urlParams with
  | Some cellId => if truthy cellId then MapState.setCellId (trim cellId) state else state
  | None => state
  end.

(** Lines 66-74: the fragment of an update. *)
Definition updateHash (newState : MapState.t) (url : URL) : URL :=
  match MapState.zoom newState, MapState.lat newState, MapState.lng newState with
  | Some z, Some la, Some ln =>
      let zoom := Math_round z in
      let lat := Math_round (num_mul la hundredThousand) in
      let lng := Math_round (num_mul ln hundredThousand) in
      if (negb (isNaN zoom) && negb (isNaN lat) && negb (isNaN lng))%bool
      then set_hash ("#map_" ++ toString zoom ++ "_" ++ toString lat ++ "_" ++ toString lng) url
      else url
  | _, _, _ => url
  end.

(** Lines 77-83: the [id] parameter of an update. *)
Definition updateCellId (newState : MapState.t) (url : URL) : URL :=
  match MapState.cellId newState with
  | Some c =>
      if truthy c then update_searchParams (URLSearchParams.set "id" c) url
      else update_searchParams (URLSearchParams.delete "id") url
  | None => url
  end.

(** [updateUrlState] (lines 61-90): the URL handed to [replaceState]. *)
Definition updateUrlState (newState : MapState.t) (location : URL) : URL :=
  updateCellId newState (updateHash newState location).

End UrlState.

(* ================================================================= *)
(** ** JavaScript values and exceptions *)

(** A value produced by [JSON.parse]. *)
#[warnings="-register-all"]
Inductive JSON : Type :=
| JNull
| JBool (b : bool)
| JNumber (n : num)
| JString (s : string)
| JArray (items : list JSON)
| JObject (fields : list (string * JSON)).

Inductive LoadError : Type :=
| HttpError          (* response.ok is false *)
| HtmlInsteadOfJson  (* the body starts with < *)
| JsonSyntaxError    (* JSON.parse throws *)
| InvalidGeoJSON     (* no features array *)
| TypeError          (* a value that is not iterable is destructured, or a
                        method is called on a value that does not have it *)
| FetchError         (* fetch() rejects: the source is unreachable *)
| BodyError.         (* response.text() rejects *)

Inductive result (A : Type) : Type :=
| Ok (a : A)
| Throw (e : LoadError).
Arguments Ok {A} _.
Arguments Throw {A} _.

Record Response : Type := {
  ok : bool;
  text : string
}.

Module JS.

(** [v.name] for one of the names read by the loader ([undefined] is [None]);
    only an object has such a property. *)
Fixpoint lookup (name : string) (fields : list (string * JSON)) : option JSON :=
  match fields with
  | [] => None
  | (k, v) :: r => if String.eqb k name then Some v else lookup name r
  end.

Definition prop (name : string) (v : JSON) : option JSON :=
  match v with
  | JObject fields => lookup name fields
  | _ => None
  end.

(** [v?.name]: [undefined] when [v] is [null] or [undefined]. *)
Definition optProp (name : string) (v : option JSON) : option JSON :=
  match v with
  | Some w => prop name w
  | None => None
  end.

Definition nullish (v : option JSON) : bool :=
  match v with
  | None | Some JNull => true
  | _ => false
  end.

(** [a ?? b]. *)
Definition coalesce (a b : option JSON) : option JSON := if nullish a then b else a.

Definition falsy (v : option JSON) : bool :=
  match v with
  | None | Some JNull | Some (JBool false) | Some (JNumber NaN) => true
  | Some (JNumber (Fin q)) => Qeq_bool q 0
  | Some (JString s) => negb (truthy s)
  | _ => false
  end.

(** [Number.isFinite]. *)
Definition isFinite (v : option JSON) : bool :=
  match v with
  | Some (JNumber n) => isFiniteNum n
  | _ => false
  end.

Definition charAt (n : nat) (s : string) : option JSON :=
  match String.get n s with
  | Some c => Some (JString (String c EmptyString))
  | None => None
  end.

(** [const [a, b] = v || []]: an array and a string are iterable, any other
    truthy value makes the destructuring throw. *)
Definition destructure2 (v : option JSON) : result (option JSON * option JSON) :=
  if falsy v then Ok (None, None)
  else match v with
       | Some (JArray l) => Ok (nth_error l 0, nth_error l 1)
       | Some (JString s) => Ok (charAt 0 s, charAt 1 s)
       | _ => Throw TypeError
       end.

Definition isPointType (v : option JSON) : bool :=
  match v with
  | Some (JString s) => String.eqb s "Point"
  | _ => false
  end.

(** [v.toLowerCase()]: strings have the method; on every other value of a
    dataset the call throws. *)
Definition toLowerCaseOf (v : JSON) : result string :=
  match v with
  | JString s => Ok (toLowerCase s)
  | _ => Throw TypeError
  end.

(** The text of a cell identifier that the filter has kept.  A value that is
    not a string never gets here: the callback of the filter has thrown on
    it. *)
Definition stringOf (v : JSON) : string :=
  match v with
  | JString s => s
  | _ => EmptyString
  end.

(** [Array.prototype.find] with a callback that can throw: the elements are
    tried in order up to the first that the callback accepts. *)
Fixpoint find {A : Type} (f : A -> result bool) (l : list A) : result (option A) :=
  match l with
  | [] => Ok None
  | x :: r =>
      match f x with
      | Throw e => Throw e
      | Ok true => Ok (Some x)
      | Ok false => find f r
      end
  end.

(** [Array.prototype.filter] with a callback that can throw: the callback is
    called on every element, in order. *)
Fixpoint filter {A : Type} (f : A -> result bool) (l : list A) : result (list A) :=
  match l with
  | [] => Ok []
  | x :: r =>
      match f x with
      | Throw e => Throw e
      | Ok keep =>
          match filter f r with
          | Throw e => Throw e
          | Ok kept => Ok (if keep then x :: kept else kept)
          end
      end
  end.

End JS.

(* ================================================================= *)
(** ** The map container  (src/components/map-container.tsx) *)

(** [interface SurveyPoint].  The interface declares [cell_id] a string, but
    the loader stores whatever value the dataset holds (the value is untyped
    there), and these are the points that the search functions read: the
    container holds the record at [JSON].  The earlier loader, which reads
    the identifier from text, gives it at [string]. *)
Record SurveyPoint (C : Type) : Type := {
  id : string;
  lat : num;
  lng : num;
  cell_id : C
}.
Arguments id {C} _.
Arguments lat {C} _.
Arguments lng {C} _.
Arguments cell_id {C} _.

(** The order of [Array.prototype.sort()] without a comparator: strings are
    compared code unit by code unit. *)
Module StringOrder <: TotalLeBool.
Definition t : Type := string.
Definition leb : t -> t -> bool := String.leb.
Definition leb_total : forall a1 a2, leb a1 a2 = true \/ leb a2 a1 = true :=
  String.leb_total.
End StringOrder.

Module StringSort := Sort StringOrder.

(** Commands sent to the map widget: the flight to a point, and the transient
    highlight that is put up after [delay] milliseconds and taken down
    [lifetime] milliseconds later by its own timer. *)
Inductive MapCommand : Type :=
| FlyTo (la ln : num) (zoomLevel : Z) (duration : Q)
| Highlight (delay : Z) (la ln : num) (lifetime : Z).

(** The state of the container that the search functions read: the loaded
    points, whether the widget is there ([mapRef.current && window.L]), and
    the commands sent so far. *)
Record MapContainer : Type := {
  surveyPoints : list (SurveyPoint JSON);
  mapReady : bool;
  commands : list MapCommand
}.

(** The callback of [surveyPoints.find] (line 133):
    [p.cell_id.toLowerCase() === cellId.toLowerCase()]. *)
Definition sameCellId (cellId : string) (p : SurveyPoint JSON) : result bool :=
  match JS.toLowerCaseOf (cell_id p) with
  | Throw e => Throw e
  | Ok lower => Ok (String.eqb lower (toLowerCase cellId))
  end.

(** [searchAndFlyTo] (lines 132-156); an exception of the callback rejects
    the promise. *)
Definition searchAndFlyTo (cellId : string) (mc : MapContainer) : result (bool * MapContainer) :=
  match JS.find (sameCellId cellId) (surveyPoints mc) with
  | Throw e => Throw e
  | Ok (Some point) =>
      if mapReady mc then
        Ok (true,
            {| surveyPoints := surveyPoints mc;
               mapReady := mapReady mc;
               commands := commands mc ++
                           [FlyTo (lat point) (lng point) 16 (12 # 10);
                            Highlight 1200 (lat point) (lng point) 1800] |})
      else Ok (false, mc)
  | Ok None => Ok (false, mc)
  end.

(** The callback of [surveyPoints.filter] (line 160):
    [p.cell_id.toLowerCase().includes(lower)]. *)
Definition cellIdIncludes (lower : string) (p : SurveyPoint JSON) : result bool :=
  match JS.toLowerCaseOf (cell_id p) with
  | Throw e => Throw e
  | Ok l => Ok (includes lower l)
  end.

(** [getSuggestions] (lines 157-161). *)
Definition getSuggestions (query : string) (mc : MapContainer) : result (list string) :=
  if negb (truthy (trim query)) then Ok []
  else
    let lower := toLowerCase query in
    match JS.filter (cellIdIncludes lower) (surveyPoints mc) with
    | Throw e => Throw e
    | Ok matches =>
        Ok (StringSort.sort (List.map (fun p => JS.stringOf (cell_id p)) matches))
    end.

(* ================================================================= *)
(** ** The search box  (src/components/search-box.tsx) *)

Record SearchBox : Type := {
  searchQuery : string;
  suggestions : list string;
  showSuggestions : bool
}.

(** [handleInputChange] (lines 35-47); [getSuggestions] is the property the
    box was given.  The handler gives the new state of the box and the
    exception that leaves it, if any: [getSuggestions] is called after
    [setSearchQuery], so when it throws the box holds the value typed and
    its list is as before. *)
Definition handleInputChange (getSuggestions : string -> result (list string))
    (value : string) (box : SearchBox) : SearchBox * option LoadError :=
  if truthy (trim value) then
    match getSuggestions (trim value) with
    | Throw e =>
        ({| searchQuery := value;
            suggestions := suggestions box;
            showSuggestions := showSuggestions box |}, Some e)
    | Ok all =>
        let newSuggestions := firstn 5 all in
        ({| searchQuery := value;
            suggestions := newSuggestions;
            showSuggestions := (0 <? List.length newSuggestions)%nat |}, None)
    end
  else
    ({| searchQuery := value; suggestions := []; showSuggestions := false |}, None).

(* ================================================================= *)
(** ** The page  (SurveyMapPage) *)

(** The state of the page: the search flags, the mounted container
    ([mapRef.current], absent until the map component is there) and the
    address bar. *)
Record Page : Type := {
  isSearching : bool;
  searchError : option string;
  mapRef : option MapContainer;
  location : URL
}.

Definition notFoundMessage (cellId : string) : string :=
  "Cell ID " ++ String "034" (cellId ++ String "034" " not found").

Definition searchFailedMessage : string := "Search failed".

Section PageOps.
Context {RT : Runtime}.

(** [handleSearchById] (lines 277-300).  The [catch] branch is taken when
    [searchAndFlyTo] throws, which is before any command is sent; the widget
    commands themselves are taken not to throw.  [finally] clears
    [isSearching]. *)
Definition handleSearchById (cellId : string) (pg : Page) : bool * Page :=
  match mapRef pg with
  | None => (false, pg)
  | Some mc =>
      match searchAndFlyTo (trim cellId) mc with
      | Throw _ =>
          (false,
           {| isSearching := false;
              searchError := Some searchFailedMessage;
              mapRef := Some mc;
              location := location pg |})
      | Ok (found, mc') =>
          if negb found then
            (false,
             {| isSearching := false;
                searchError := Some (notFoundMessage cellId);
                mapRef := Some mc';
                location := location pg |})
          else
            (true,
             {| isSearching := false;
                searchError := None;
                mapRef := Some mc';
                location := updateUrlState (MapState.setCellId (trim cellId) MapState.empty)
                                           (location pg) |})
      end
  end.

(** [getSuggestions] of the page: [mapRef.current?.getSuggestions?.(query) || []]. *)
Definition pageGetSuggestions (pg : Page) (query : string) : result (list string) :=
  match mapRef pg with
  | Some mc => getSuggestions query mc
  | None => Ok []
  end.

End PageOps.

(* ================================================================= *)
(** ** Loading the dataset  ([loadGeoJSONData], lines 164-181) *)

Definition nat_toString (n : nat) : string := NilZero.string_of_uint (Nat.to_uint n).

(** The body of the [forEach] callback (lines 173-178): nothing, a point, or
    an exception. *)
Definition pointOfFeature (i : nat) (f : JSON) : result (option (SurveyPoint JSON)) :=
  if negb (JS.isPointType (JS.optProp "type" (JS.prop "geometry" f))) then Ok None
  else
    match JS.destructure2 (JS.optProp "coordinates" (JS.prop "geometry" f)) with
    | Throw e => Throw e
    | Ok (ln, la) =>
        if (JS.isFinite la && JS.isFinite ln)%bool then
          match la, ln with
          | Some (JNumber la'), Some (JNumber ln') =>
              let properties := JS.prop "properties" f in
              let cell :=
                match JS.coalesce (JS.optProp "cell_id" properties)
                                  (JS.coalesce (JS.optProp "name" properties)
                                               (Some (JString ("Point_" ++ nat_toString i)))) with
                | Some c => c
                | None => JNull
                end in
              Ok (Some {| id := "point_" ++ nat_toString i; lat := la'; lng := ln'; cell_id := cell |})
          | _, _ => Ok None
          end
        else Ok None
    end.

(** [gj.features.forEach(...)] pushing onto [points]; an exception leaves the
    loop. *)
Fixpoint forEachFeature (i : nat) (features : list JSON) (points : list (SurveyPoint JSON))
  : result (list (SurveyPoint JSON)) :=
  match features with
  | [] => Ok points
  | f :: r =>
      match pointOfFeature i f with
      | Throw e => Throw e
      | Ok None => forEachFeature (S i) r points
      | Ok (Some p) => forEachFeature (S i) r (points ++ [p])
      end
  end.

(** The part of the loader after [JSON.parse] (lines 170-180). *)
Definition pointsOfGeoJSON (gj : JSON) : result (list (SurveyPoint JSON)) :=
  match JS.prop "features" gj with
  | Some (JArray features) => forEachFeature 0 features []
  | _ => Throw InvalidGeoJSON
  end.

(** [loadGeoJSONData] from the response on (lines 166-180), its text being
    read; [JSON_parse] is the engine's parser, [None] when it throws.  The
    two awaits before are in [awaitLoadGeoJSONData] below. *)
Definition loadGeoJSONData (JSON_parse : string -> option JSON) (response : Response)
  : result (list (SurveyPoint JSON)) :=
  if negb (ok response) then Throw HttpError
  else if startsWith "<" (trim (text response)) then Throw HtmlInsteadOfJson
  else match JSON_parse (text response) with
       | None => Throw JsonSyntaxError
       | Some gj => pointsOfGeoJSON gj
       end.

(** What the two awaits at the head of a loader give: [fetch] rejects; or
    the response is successful and its [text()] rejects; or there is a
    response, whose text is read only when it is successful. *)
Inductive FetchOutcome : Type :=
| FetchRejected
| TextRejected
| Received (response : Response).

(** The whole of [loadGeoJSONData], from the outcome of the fetch. *)
Definition awaitLoadGeoJSONData (JSON_parse : string -> option JSON) (outcome : FetchOutcome)
  : result (list (SurveyPoint JSON)) :=
  match outcome with
  | FetchRejected => Throw FetchError
  | TextRejected => Throw BodyError
  | Received response => loadGeoJSONData JSON_parse response
  end.

(* ================================================================= *)
(** * Notions used in the statements *)

(** A character that is not white space. *)
Definition notSpace (c : ascii) : bool := negb (isSpace c).

(** The digits that [Z_toString] prints after the sign. *)
Definition absDigits (z : Z) : string :=
  match z with
  | Z0 => "0"
  | Zpos p | Zneg p => NilEmpty.string_of_uint (Pos.to_uint p)
  end.

(** The text of a compact fragment built from three parts. *)
Definition compactFragment (a b c : string) : string :=
  "map_" ++ a ++ "_" ++ b ++ "_" ++ c.

Section MalformedFragments.
Context {RT : Runtime}.

(** The parts that the two branches of [parseHash] read. *)
Definition legacyParts (hash : string) : list string := split "/" hash.
Definition compactParts (hash : string) : list string := split "_" (substringFrom 4 hash).

(** The malformed fragments: a wrong number of parts in either form, a bad
    part of the legacy form (as [bad] judges its number), a part of the
    compact form whose number is NaN, or neither form. *)
Inductive Malformed (bad : num -> bool) (hash : string) : Prop :=
| LegacyArity :
    includes "/" hash = true -> List.length (legacyParts hash) <> 3%nat ->
    Malformed bad hash
| LegacyPart (p : string) :
    includes "/" hash = true -> In p (legacyParts hash) -> bad (Number p) = true ->
    Malformed bad hash
| CompactArity :
    includes "/" hash = false -> startsWith "map_" hash = true ->
    List.length (compactParts hash) <> 3%nat ->
    Malformed bad hash
| CompactPart (p : string) :
    includes "/" hash = false -> startsWith "map_" hash = true ->
    In p (compactParts hash) -> isNaN (Number p) = true ->
    Malformed bad hash
| UnknownFormat :
    includes "/" hash = false -> startsWith "map_" hash = false ->
    Malformed bad hash.

Definition notFinite (x : num) : bool := negb (isFiniteNum x).

End MalformedFragments.

(** Text on which the embedding is exact: every character is below 128. *)
Definition isAsciiChar (c : ascii) : bool := (N_of_ascii c <? 128)%N.
Definition isAscii (s : string) : bool := allChars isAsciiChar s.

(** Case-insensitive comparison, in the words of the specification and
    without [toLowerCase]: two characters are the same letter when they are
    equal or one is a capital [A]-[Z] and the other the small letter 32 places
    after it; two texts are equal when they have the same length and the same
    letters; a text occurs in another when it is equal to a stretch of it. *)
Definition sameLetter (c d : ascii) : bool :=
  let m := N_of_ascii c in
  let n := N_of_ascii d in
  ((m =? n) || ((65 <=? m) && (m <=? 90) && (n =? m + 32))
   || ((65 <=? n) && (n <=? 90) && (m =? n + 32)))%N.

Fixpoint equalIgnoringCase (a b : string) : bool :=
  match a, b with
  | EmptyString, EmptyString => true
  | String c a', String d b' => sameLetter c d && equalIgnoringCase a' b'
  | _, _ => false
  end.

Fixpoint startsWithIgnoringCase (q s : string) : bool :=
  match q, s with
  | EmptyString, _ => true
  | String c q', String d s' => sameLetter c d && startsWithIgnoringCase q' s'
  | String _ _, EmptyString => false
  end.

Fixpoint includesIgnoringCase (q s : string) : bool :=
  startsWithIgnoringCase q s ||
  match s with
  | String _ r => includesIgnoringCase q r
  | EmptyString => false
  end.

(** The cell identifier of a point when it is a string. *)
Definition cellIdText (p : SurveyPoint JSON) : option string :=
  match cell_id p with
  | JString s => Some s
  | _ => None
  end.

(** A point whose cell identifier is the given text up to letter case, and a
    point whose cell identifier holds the given text up to letter case. *)
Definition matchesExactly (query : string) (p : SurveyPoint JSON) : bool :=
  match cellIdText p with
  | Some s => equalIgnoringCase s query
  | None => false
  end.

Definition matchesInside (query : string) (p : SurveyPoint JSON) : bool :=
  match cellIdText p with
  | Some s => includesIgnoringCase query s
  | None => false
  end.

(** A point whose cell identifier is a text. *)
Definition hasTextId (p : SurveyPoint JSON) : bool :=
  match cellIdText p with
  | Some _ => true
  | None => false
  end.

(** The points whose cell identifier is an ASCII string. *)
Definition asciiCellId (p : SurveyPoint JSON) : bool :=
  match cellIdText p with
  | Some s => isAscii s
  | None => false
  end.

(** The points that the page can search: those of the mounted container. *)
Definition loadedPoints (pg : Page) : list (SurveyPoint JSON) :=
  match mapRef pg with
  | Some mc => surveyPoints mc
  | None => []
  end.

(** A character that separates neither pairs nor a name from its value. *)
Definition plainChar (c : ascii) : bool :=
  (negb (Ascii.eqb c "&") && negb (Ascii.eqb c "="))%bool.

(** The text of one pair. *)
Definition pairText (p : string * string) : string :=
  URLSearchParams.encodeComponent (fst p) ++ String "=" (URLSearchParams.encodeComponent (snd p)).

(** A page with one loaded point, for the examples. *)
Definition pointA23 : SurveyPoint JSON :=
  {| id := "point_0"; lat := Fin 40.7128; lng := Fin (-74.006); cell_id := JString "A23" |}.
Definition exampleContainer : MapContainer :=
  {| surveyPoints := [pointA23]; mapReady := true; commands := [] |}.
Definition exampleUrl : URL :=
  {| base := "https://survey.example/"; query := Some "id=B2"; fragment := None |}.
Definition examplePage : Page :=
  {| isSearching := false; searchError := None;
     mapRef := Some exampleContainer; location := exampleUrl |}.

(** A feature of the dataset with the given coordinates value. *)
Definition feature (name : string) (coordinates : JSON) : JSON :=
  JObject [("type", JString "Feature");
           ("geometry", JObject [("type", JString "Point"); ("coordinates", coordinates)]);
           ("properties", JObject [("cell_id", JString name)])].

(** A feature whose cell identifier is any value of the dataset. *)
Definition featureWithId (cell : JSON) (coordinates : JSON) : JSON :=
  JObject [("type", JString "Feature");
           ("geometry", JObject [("type", JString "Point"); ("coordinates", coordinates)]);
           ("properties", JObject [("cell_id", cell)])].

Definition featureCollection (features : list JSON) : JSON :=
  JObject [("type", JString "FeatureCollection"); ("features", JArray features)].

(** The coordinates value that the loader destructures. *)
Definition coordinatesOf (f : JSON) : option JSON :=
  JS.optProp "coordinates" (JS.prop "geometry" f).

(** A coordinates value that can be destructured: a falsy one (replaced by
    the empty array), an array or a string. *)
Definition destructurable (v : option JSON) : bool :=
  JS.falsy v ||
  match v with
  | Some (JArray _) | Some (JString _) => true
  | _ => false
  end.

(** The point of a well-formed record, in the words of the specification: a
    Point geometry whose coordinates start with a finite longitude and a
    finite latitude; the identifier is the cell identifier, else the name,
    else [Point_<i>]. *)
Definition wellFormedPoint (i : nat) (f : JSON) : option (SurveyPoint JSON) :=
  if JS.isPointType (JS.optProp "type" (JS.prop "geometry" f)) then
    match coordinatesOf f with
    | Some (JArray (JNumber (Fin ln) :: JNumber (Fin la) :: _)) =>
        let properties := JS.prop "properties" f in
        let cell :=
          match JS.optProp "cell_id" properties with
          | Some JNull | None =>
              match JS.optProp "name" properties with
              | Some JNull | None => JString ("Point_" ++ nat_toString i)
              | Some c => c
              end
          | Some c => c
          end in
        Some {| id := "point_" ++ nat_toString i; lat := Fin la; lng := Fin ln; cell_id := cell |}
    | _ => None
    end
  else None.

Fixpoint wellFormedPoints (i : nat) (features : list JSON) : list (SurveyPoint JSON) :=
  match features with
  | [] => []
  | f :: r =>
      match wellFormedPoint i f with
      | Some p => p :: wellFormedPoints (S i) r
      | None => wellFormedPoints (S i) r
      end
  end.

(** A URL with the given fragment and no query, and the comparison of two
    decoded positions, for the examples. *)
Definition withFragment (f : string) : URL :=
  {| base := "https://survey.example/"; query := None; fragment := Some f |}.

Definition samePosition (a b : MapState.t) : bool :=
  match MapState.zoom a, MapState.lat a, MapState.lng a,
        MapState.zoom b, MapState.lat b, MapState.lng b with
  | Some z, Some la, Some ln, Some z', Some la', Some ln' =>
      (num_eqb z z' && num_eqb la la' && num_eqb ln ln')%bool
  | None, None, None, None, None, None => true
  | _, _, _, _, _, _ => false
  end.

From Stdlib Require DecimalNat.

(* ================================================================= *)
(** * The rest of the hook, the page, the search box and the container *)

(** ** The hook: share links and clearing  (src/hooks/use-url-state.ts) *)

(** [url.toString()]: the query after [?] and the fragment after [#], each
    only when it is there. *)
Definition href (u : URL) : string :=
  base u
  ++ match query u with Some q => String "?" q | None => EmptyString end
  ++ match fragment u with Some f => String "#" f | None => EmptyString end.

(** [interface MapState] itself: the position is there, the cell identifier
    may be [undefined].  ([MapState.t] above is [Partial<MapState>].) *)
Module FullMapState.
Record t : Type := {
  zoom : num;
  lat : num;
  lng : num;
  cellId : option string
}.
(** A [MapState] passed where a [Partial<MapState>] is expected. *)
Definition partial (s : t) : MapState.t :=
  {| MapState.zoom := Some (zoom s); MapState.lat := Some (lat s);
     MapState.lng := Some (lng s); MapState.cellId := cellId s |}.
End FullMapState.

Section Share.
Context {RT : Runtime}.

(** [getShareableUrl] (lines 92-105): the URL starts from
    [origin + pathname], so without query and fragment; the zoom is printed
    as it is and nothing is tested for NaN. *)
Definition getShareableUrl (state : FullMapState.t) (location : URL) : string :=
  let url := {| base := base location; query := None; fragment := None |} in
  let lat := Math_round (num_mul (FullMapState.lat state) hundredThousand) in
  let lng := Math_round (num_mul (FullMapState.lng state) hundredThousand) in
  let url :=
    set_hash ("#map_" ++ toString (FullMapState.zoom state) ++ "_" ++ toString lat
                      ++ "_" ++ toString lng) url in
  let url :=
    match FullMapState.cellId state with
    | Some c => if truthy c then update_searchParams (URLSearchParams.set "id" c) url else url
    | None => url
    end in
  href url.

(** [clearUrlState] (lines 107-112): the URL handed to [replaceState]. *)
Definition clearUrlState (location : URL) : URL :=
  update_searchParams (URLSearchParams.delete "id") (set_hash EmptyString location).

End Share.

(** ** [Number.prototype.toFixed] *)

Fixpoint zeros (n : nat) : string :=
  match n with
  | O => EmptyString
  | S n' => String "0" (zeros n')
  end.

(** [firstChars n s] is [s.substring(0, n)]. *)
Fixpoint firstChars (n : nat) (s : string) : string :=
  match n, s with
  | S n', String c r => String c (firstChars n' r)
  | _, _ => EmptyString
  end.

Section ToFixed.
Context {RT : Runtime}.

(** [x.toFixed(f)] for [0 <= f <= 100]: the sign, then the integer [n]
    nearest to [|x| * 10^f] (the larger one on a tie), its digits filled with
    zeros to [f + 1] places and the point put before the last [f]; a value
    from 10^21 on, and one that is not finite, is printed as by [toString]. *)
Definition toFixed (f : nat) (x : num) : string :=
  match x with
  | Fin q =>
      let s := if Qle_bool 0 q then EmptyString else "-" in
      let a := Qabs q in
      if Qle_bool (inject_Z (10 ^ 21)) a then s ++ toString (Fin a)
      else
        let n := Qfloor (a * inject_Z (10 ^ Z.of_nat f) + (1 # 2))%Q in
        let m := Z_toString n in
        let m :=
          if (f =? 0)%nat then m
          else
            let k := String.length m in
            let m := if (k <=? f)%nat then zeros (f + 1 - k) ++ m else m in
            let k := String.length m in
            firstChars (k - f) m ++ String "." (substringFrom (k - f) m) in
        s ++ m
  | _ => toString x
  end.

End ToFixed.

(** ** The earlier hook  (src/unnamed/part_000) *)

Module Legacy.
Section Hook.
Context {RT : Runtime}.

(** [parseUrlState] (lines 13-38): only the form with slashes, and the cell
    identifier as it is. *)
Definition parseUrlState (location : URL) : MapState.t :=
  let state := MapState.empty in
  let hash := substringFrom 1 (location_hash location) in
  let state :=
    if truthy hash then
      let parts := split "/" hash in
      if (List.length parts =? 3)%nat then
        match List.map Number parts with
        | [zoom; lat; lng] =>
            if (negb (isNaN zoom) && negb (isNaN lat) && negb (isNaN lng))%bool
            then MapState.setPosition zoom lat lng state
            else state
        | _ => state
        end
      else state
    else state in
  let urlParams := URLSearchParams.parse (location_search location) in
  match URLSearchParams.get "id" urlParams with
  | Some cellId => if truthy cellId then MapState.setCellId cellId state else state
  | None => state
  end.

(** The fragment of lines 45 and 65. *)
Definition slashFragment (zoom lat lng : num) : string :=
  "#" ++ toString zoom ++ "/" ++ toFixed 5 lat ++ "/" ++ toFixed 5 lng.

(** [updateUrlState] (lines 40-59): the URL handed to [replaceState]. *)
Definition updateUrlState (newState : MapState.t) (location : URL) : URL :=
  let url := location in
  let url :=
    match MapState.zoom newState, MapState.lat newState, MapState.lng newState with
    | Some zoom, Some lat, Some lng => set_hash (slashFragment zoom lat lng) url
    | _, _, _ => url
    end in
  match MapState.cellId newState with
  | Some c =>
      if truthy c then update_searchParams (URLSearchParams.set "id" c) url
      else update_searchParams (URLSearchParams.delete "id") url
  | None => url
  end.

(** [getShareableUrl] (lines 61-73). *)
Definition getShareableUrl (state : FullMapState.t) (location : URL) : string :=
  let url := {| base := base location; query := None; fragment := None |} in
  let url :=
    set_hash (slashFragment (FullMapState.zoom state) (FullMapState.lat state)
                            (FullMapState.lng state)) url in
  let url :=
    match FullMapState.cellId state with
    | Some c => if truthy c then update_searchParams (URLSearchParams.set "id" c) url else url
    | None => url
    end in
  href url.

End Hook.
End Legacy.

(** ** The map container: the view taken from the fragment, and the layer *)

Section Restore.
Context {RT : Runtime}.

(** [isNaN] of a variable that may still be [undefined]. *)
Definition isNaN_or_undefined (x : option num) : bool :=
  match x with
  | Some y => isNaN y
  | None => true
  end.

(** Lines 271-288 of src/components/map-container.tsx: the arguments of
    [map.setView([lat, lng], zoom)], or nothing when the view is left. *)
Definition restoreFromHash (hash : string) : option (num * num * num) :=
  if truthy hash then
    let '(zoom, lat, lng) :=
      if includes "/" hash then
        let parts := split "/" hash in
        if (List.length parts =? 3)%nat then
          match List.map Number parts with
          | [zoom; lat; lng] => (Some zoom, Some lat, Some lng)
          | _ => (None, None, None)
          end
        else (None, None, None)
      else if startsWith "map_" hash then
        let parts := split "_" (substringFrom 4 hash) in
        if (List.length parts =? 3)%nat then
          (Some (Number (nth 0 parts EmptyString)),
           Some (num_div (Number (nth 1 parts EmptyString)) hundredThousand),
           Some (num_div (Number (nth 2 parts EmptyString)) hundredThousand))
        else (None, None, None)
      else (None, None, None) in
    if (negb (isNaN_or_undefined zoom) && negb (isNaN_or_undefined lat)
        && negb (isNaN_or_undefined lng))%bool
    then match zoom, lat, lng with
         | Some z, Some la, Some ln => Some (la, ln, z)
         | _, _, _ => None
         end
    else None
  else None.

End Restore.






(** [sanitizeCssClass] (line 24): every character outside [a-zA-Z0-9_-]
    becomes an underscore. *)
Definition cssSafe (c : ascii) : bool :=
  let n := N_of_ascii c in
  ((97 <=? n) && (n <=? 122) || (65 <=? n) && (n <=? 90) || (48 <=? n) && (n <=? 57)
   || (n =? 95) || (n =? 45))%N.

Fixpoint sanitizeCssClass (str : string) : string :=
  match str with
  | String c r => String (if cssSafe c then c else "_"%char) (sanitizeCssClass r)
  | EmptyString => EmptyString
  end.

(** ** The earlier loader of the container  ([loadKMLData], second part of
    src/hooks/use-url-state.ts) *)

(** What the loader reads of a [Placemark]: the text of its first [name]
    element and of its first [coordinates] element, when there is one. *)
Record Placemark : Type := {
  nameElement : option string;
  coordinatesElement : option string
}.

(** The body of the loop (lines 246-268): nothing, or a point. *)
Section KML.
Context {RT : Runtime}.

Definition pointOfPlacemark (i : nat) (placemark : Placemark) : option (SurveyPoint string) :=
  match nameElement placemark, coordinatesElement placemark with
  | Some nameText, Some coordinatesText =>
      let name := if truthy (trim nameText) then trim nameText
                  else "Point_" ++ nat_toString i in
      let coordsText := trim coordinatesText in
      if truthy coordsText then
        let coords := List.map Number (split "," coordsText) in
        match coords with
        | c0 :: c1 :: _ =>
            if (negb (isNaN c0) && negb (isNaN c1))%bool
            then Some {| id := "point_" ++ nat_toString i; lat := c1; lng := c0; cell_id := name |}
            else None
        | _ => None
        end
      else None
  | _, _ => None
  end.

(** The loop over the placemarks, pushing onto [points]. *)
Fixpoint forPlacemarks (i : nat) (placemarks : list Placemark) (points : list (SurveyPoint string))
  : list (SurveyPoint string) :=
  match placemarks with
  | [] => points
  | placemark :: r =>
      match pointOfPlacemark i placemark with
      | Some p => forPlacemarks (S i) r (points ++ [p])
      | None => forPlacemarks (S i) r points
      end
  end.

(** [loadKMLData] (lines 228-274), from the outcome of the fetch;
    [placemarksOf] stands for the XML parser followed by
    [getElementsByTagName("Placemark")], which gives a list for every text.
    The [catch] logs the error and throws it again. *)
Definition loadKMLData (placemarksOf : string -> list Placemark) (outcome : FetchOutcome)
  : result (list (SurveyPoint string)) :=
  match outcome with
  | FetchRejected => Throw FetchError
  | TextRejected => Throw BodyError
  | Received response =>
      if negb (ok response) then Throw HttpError
      else Ok (forPlacemarks 0 (placemarksOf (text response)) [])
  end.

End KML.

(** ** The search box: submitting, picking a suggestion, clearing
    (src/components/search-box.tsx) *)

(** [handleSubmit] (lines 24-33); [onSearch] is the property the box was
    given, acting on the state [W] of its owner. *)
Definition handleSubmit {W : Type} (onSearch : string -> W -> bool * W)
    (box : SearchBox) (w : W) : SearchBox * W :=
  if negb (truthy (trim (searchQuery box))) then (box, w)
  else
    let (success, w') := onSearch (trim (searchQuery box)) w in
    if success then
      ({| searchQuery := searchQuery box; suggestions := suggestions box;
          showSuggestions := false |}, w')
    else (box, w').

(** [handleSuggestionClick] (lines 49-53). *)
Definition handleSuggestionClick {W : Type} (onSearch : string -> W -> bool * W)
    (suggestion : string) (box : SearchBox) (w : W) : SearchBox * W :=
  ({| searchQuery := suggestion; suggestions := suggestions box; showSuggestions := false |},
   snd (onSearch suggestion w)).

(** [clearSearch] (lines 55-61). *)
Definition clearSearch {W : Type} (onClear : option (W -> W)) (box : SearchBox) (w : W)
  : SearchBox * W :=
  ({| searchQuery := EmptyString; suggestions := []; showSuggestions := false |},
   match onClear with Some f => f w | None => w end).

(** ** The page: the other callbacks *)

Section PageCallbacks.
Context {RT : Runtime}.

(** A number in a condition: zero and NaN are falsy. *)
Definition numTruthy (x : num) : bool :=
  match x with
  | NaN => false
  | Inf _ => true
  | Fin q => negb (Qeq_bool q 0)
  end.

(** The effect run when the page is mounted (lines 255-275): the search that
    is put off by [delay] milliseconds, if any, and [currentMapState]. *)
Definition initialEffect (currentMapState : FullMapState.t) (pg : Page)
  : option (Z * string) * FullMapState.t :=
  let urlState := parseUrlState (location pg) in
  let mounted := match mapRef pg with Some _ => true | None => false end in
  let search :=
    match MapState.cellId urlState with
    | Some cellId => if (truthy cellId && mounted)%bool then Some cellId else None
    | None => None
    end in
  match search with
  | Some cellId => (Some (1000%Z, cellId), currentMapState)
  | None =>
      match MapState.zoom urlState, MapState.lat urlState, MapState.lng urlState with
      | Some zoom, Some lat, Some lng =>
          if (numTruthy zoom && numTruthy lat && numTruthy lng)%bool
          then (None, {| FullMapState.zoom := zoom; FullMapState.lat := lat;
                         FullMapState.lng := lng; FullMapState.cellId := None |})
          else (None, currentMapState)
      | _, _, _ => (None, currentMapState)
      end
  end.

(** [handleMapStateChange] (lines 302-305): the new [currentMapState] and
    the page. *)
Definition handleMapStateChange (zoom lat lng : num) (pg : Page) : FullMapState.t * Page :=
  let newState := {| FullMapState.zoom := zoom; FullMapState.lat := lat;
                     FullMapState.lng := lng; FullMapState.cellId := None |} in
  (newState,
   {| isSearching := isSearching pg;
      searchError := searchError pg;
      mapRef := mapRef pg;
      location := updateUrlState (FullMapState.partial newState) (location pg) |}).

(** [handleClearSearch] (lines 307-309). *)
Definition handleClearSearch (pg : Page) : Page :=
  {| isSearching := isSearching pg;
     searchError := searchError pg;
     mapRef := mapRef pg;
     location := updateUrlState (MapState.setCellId EmptyString MapState.empty) (location pg) |}.

(** [getShareUrl] (lines 311-319). *)
Definition getShareUrl (currentMapState : FullMapState.t) (pg : Page) : string :=
  let urlState := parseUrlState (location pg) in
  getShareableUrl
    {| FullMapState.zoom := FullMapState.zoom currentMapState;
       FullMapState.lat := FullMapState.lat currentMapState;
       FullMapState.lng := FullMapState.lng currentMapState;
       FullMapState.cellId := MapState.cellId urlState |}
    (location pg).

End PageCallbacks.

(* ================================================================= *)
(** * Further notions used in the statements *)

(** The two halves of an update. *)
Definition positionOnly (st : MapState.t) : MapState.t :=
  {| MapState.zoom := MapState.zoom st; MapState.lat := MapState.lat st;
     MapState.lng := MapState.lng st; MapState.cellId := None |}.

Definition cellIdOnly (st : MapState.t) : MapState.t :=
  {| MapState.zoom := None; MapState.lat := None; MapState.lng := None;
     MapState.cellId := MapState.cellId st |}.

(** The position of a decoded state. *)
Definition positionOf (st : MapState.t) : option num * option num * option num :=
  (MapState.zoom st, MapState.lat st, MapState.lng st).

(** The identifier that the loaders give to the record at index [i]. *)
Definition pointId (i : nat) : string := "point_" ++ nat_toString i.

(** A page address without query and fragment. *)
Definition bare (loc : URL) : URL :=
  {| base := base loc; query := None; fragment := None |}.


(* ================================================================= *)
(** * Properties *)

(** ** Strings *)

Lemma truthy_String c s : truthy (String c s) = true.
Proof. reflexivity. Qed.

Lemma mem_app c a b : mem c (a ++ b) = (mem c a || mem c b)%bool.
Proof.
  induction a as [|d a IH]; simpl; [reflexivity|].
  now rewrite IH, orb_assoc.
Qed.

Lemma includes_char c s : includes (String c EmptyString) s = mem c s.
Proof.
  induction s as [|d s IH]; simpl; [reflexivity|].
  rewrite IH. f_equal.
  destruct (ascii_dec c d) as [->|Hne].
  - rewrite Ascii.eqb_refl. now destruct s.
  - symmetry. apply Ascii.eqb_neq. congruence.
Qed.

Lemma split_no_sep sep a : mem sep a = false -> split sep a = [a].
Proof.
  induction a as [|c a IH]; simpl; intro H; [reflexivity|].
  apply orb_false_iff in H as [Hc Ha].
  now rewrite Hc, IH.
Qed.

Lemma split_app sep a r :
  mem sep a = false -> split sep (a ++ String sep r) = a :: split sep r.
Proof.
  induction a as [|c a IH]; simpl; intro H.
  - now rewrite Ascii.eqb_refl.
  - apply orb_false_iff in H as [Hc Ha].
    now rewrite Hc, IH.
Qed.

Lemma allChars_mem f c s : allChars f s = true -> f c = false -> mem c s = false.
Proof.
  induction s as [|d s IH]; simpl; intros H Hc; [reflexivity|].
  apply andb_true_iff in H as [Hd Hs].
  rewrite IH by assumption.
  destruct (Ascii.eqb_spec d c) as [->|]; [congruence|reflexivity].
Qed.

Lemma allChars_app f a b : allChars f (a ++ b) = (allChars f a && allChars f b)%bool.
Proof.
  induction a as [|c a IH]; simpl; [reflexivity|].
  now rewrite IH, andb_assoc.
Qed.

Lemma allChars_impl (f g : ascii -> bool) s :
  (forall c, f c = true -> g c = true) -> allChars f s = true -> allChars g s = true.
Proof.
  intro Hfg. induction s as [|c s IH]; simpl; [reflexivity|].
  intro H. apply andb_true_iff in H as [Hc Hs].
  now rewrite (Hfg _ Hc), IH.
Qed.

Lemma trimEnd_no_space s : allChars notSpace s = true -> trimEnd s = s.
Proof.
  induction s as [|c s IH]; simpl; intro H; [reflexivity|].
  apply andb_true_iff in H as [Hc Hs].
  rewrite (IH Hs). unfold notSpace in Hc. apply negb_true_iff in Hc.
  destruct s; [now rewrite Hc | reflexivity].
Qed.

Lemma trim_no_space s : allChars notSpace s = true -> trim s = s.
Proof.
  intro H. unfold trim.
  assert (Hs : trimStart s = s).
  { destruct s as [|c s]; [reflexivity|]. simpl in *.
    apply andb_true_iff in H as [Hc _]. unfold notSpace in Hc.
    apply negb_true_iff in Hc. now rewrite Hc. }
  rewrite Hs. now apply trimEnd_no_space.
Qed.

Lemma trim_all_space s : allChars isSpace s = true -> trim s = EmptyString.
Proof.
  unfold trim. induction s as [|c s IH]; simpl; intro H; [reflexivity|].
  apply andb_true_iff in H as [Hc Hs].
  rewrite Hc. now apply IH.
Qed.

(** ** Printing and reading integers *)

Lemma Z_toString_eq z :
  Z_toString z = if (z <? 0)%Z then String "-" (absDigits z) else absDigits z.
Proof.
  unfold Z_toString. destruct z as [|p|p]; simpl; [reflexivity| |];
    unfold NilZero.string_of_uint;
    pose proof (Unsigned.to_uint_nonnil p) as Hn;
    destruct (Pos.to_uint p); try reflexivity; now elim Hn.
Qed.

Lemma string_of_uint_digits d : allChars isDigit (NilEmpty.string_of_uint d) = true.
Proof. induction d; simpl; auto. Qed.

Lemma digitsIn_string_of_uint d : forall acc,
  digitsIn 10 acc (NilEmpty.string_of_uint d)
  = Some (Unsigned.of_lu (Decimal.rev d) + acc * 10 ^ Unsigned.usize d)%N.
Proof.
  induction d; intro acc;
    [ simpl; f_equal; lia | .. ];
    cbn [NilEmpty.string_of_uint];
    match goal with
    | |- digitsIn _ _ (String ?c ?s) = _ =>
        let k := eval vm_compute in (N_of_ascii c - 48)%N in
        change (digitsIn 10 acc (String c s)) with (digitsIn 10 (10 * acc + k)%N s)
    end;
    unfold Decimal.rev; cbn [Decimal.revapp]; rewrite Unsigned.of_lu_revapp;
    rewrite IHd; f_equal;
    cbn [Unsigned.of_lu Unsigned.usize]; rewrite N.pow_succ_r';
    unfold Decimal.rev; ring.
Qed.

Lemma absDigits_digits z : allChars isDigit (absDigits z) = true.
Proof. destruct z; simpl; auto using string_of_uint_digits. Qed.

Lemma absDigits_value z : digitsIn 10 0 (absDigits z) = Some (Z.abs_N z).
Proof.
  destruct z as [|p|p]; [reflexivity| |]; simpl absDigits;
    rewrite digitsIn_string_of_uint, N.mul_0_l, N.add_0_r,
      <- Unsigned.of_uint_alt, Unsigned.of_to; reflexivity.
Qed.

Lemma absDigits_truthy z : truthy (absDigits z) = true.
Proof.
  destruct z as [|p|p]; [reflexivity| |]; simpl;
    pose proof (Unsigned.to_uint_nonnil p) as Hn;
    destruct (Pos.to_uint p); try reflexivity; now elim Hn.
Qed.

(** ** Reading back a printed integer *)

Lemma string_app_empty_r (s : string) : s ++ EmptyString = s.
Proof. induction s as [|c s IH]; simpl; [reflexivity | now rewrite IH]. Qed.

Lemma isDigit_facts c :
  isDigit c = true ->
  numericChar c = true /\
  Ascii.eqb c "-" = false /\ Ascii.eqb c "+" = false /\ Ascii.eqb c "I" = false /\
  (Ascii.eqb c "x" || Ascii.eqb c "X" || Ascii.eqb c "o" || Ascii.eqb c "O"
   || Ascii.eqb c "b" || Ascii.eqb c "B")%bool = false.
Proof.
  destruct c as [[] [] [] [] [] [] [] []]; vm_compute; intro H;
    first [discriminate H | repeat split].
Qed.

Lemma numericChar_facts c :
  numericChar c = true ->
  notSpace c = true /\ Ascii.eqb c "/" = false /\ Ascii.eqb c "_" = false.
Proof.
  destruct c as [[] [] [] [] [] [] [] []]; vm_compute; intro H;
    first [discriminate H | repeat split].
Qed.

Lemma nonDecimal_digits u : allChars isDigit u = true -> nonDecimal u = None.
Proof.
  destruct u as [|c [|x r]]; simpl; intro H; try reflexivity.
  apply andb_true_iff in H as [_ H]. apply andb_true_iff in H as [Hx _].
  destruct (isDigit_facts x Hx) as (_ & _ & _ & _ & Hr).
  repeat (apply orb_false_iff in Hr as [Hr ?]).
  unfold nonDecimal.
  repeat match goal with H : Ascii.eqb _ _ = false |- _ => rewrite H; clear H end.
  reflexivity.
Qed.

Lemma nonDecimal_minus u : nonDecimal (String "-" u) = None.
Proof.
  destruct u as [|x r]; [reflexivity|]. unfold nonDecimal.
  change (Ascii.eqb "-" "0") with false. cbn [andb].
  repeat match goal with |- context [if ?b then _ else _] => destruct b end; reflexivity.
Qed.

Lemma spanDigits_all u : allChars isDigit u = true -> spanDigits u = (u, EmptyString).
Proof.
  induction u as [|c u IH]; simpl; intro H; [reflexivity|].
  apply andb_true_iff in H as [Hc Hu]. now rewrite Hc, (IH Hu).
Qed.

Lemma signOf_digit c r : isDigit c = true -> signOf (String c r) = (false, String c r).
Proof.
  intro H. destruct (isDigit_facts c H) as (_ & Hm & Hp & _).
  unfold signOf. now rewrite Hm, Hp.
Qed.

Lemma unsignedDecimal_digits u n :
  allChars isDigit u = true -> truthy u = true -> digitsIn 10 0 u = Some n ->
  unsignedDecimal u = Some (inject_Z (Z.of_N n) * (10 # 1) ^ (0 - 0))%Q.
Proof.
  intros Hd Ht Hn. unfold unsignedDecimal.
  rewrite (spanDigits_all u Hd). rewrite Ht. cbn [negb andb exponentPart].
  rewrite string_app_empty_r, Hn. reflexivity.
Qed.

Lemma Z_toString_chars z : allChars numericChar (Z_toString z) = true.
Proof.
  rewrite Z_toString_eq.
  assert (H : allChars numericChar (absDigits z) = true).
  { apply (allChars_impl isDigit); [|apply absDigits_digits].
    intros c Hc. now destruct (isDigit_facts c Hc). }
  destruct (z <? 0)%Z; [simpl; exact H | exact H].
Qed.

Section NumberOfInteger.
Context {RT : Runtime}.

Lemma Number_digits u n :
  allChars isDigit u = true -> truthy u = true -> digitsIn 10 0 u = Some n ->
  Number u = fl (inject_Z (Z.of_N n) * (10 # 1) ^ (0 - 0))%Q.
Proof.
  intros Hd Ht Hn. unfold Number.
  rewrite trim_no_space.
  2:{ apply (allChars_impl isDigit); [|exact Hd].
      intros c Hc. destruct (isDigit_facts c Hc) as [Hc' _].
      now destruct (numericChar_facts c Hc'). }
  rewrite Ht, (nonDecimal_digits u Hd).
  destruct u as [|c r]; [discriminate Ht|].
  simpl in Hd. apply andb_true_iff in Hd as [Hc Hr].
  rewrite (signOf_digit c r Hc).
  destruct (isDigit_facts c Hc) as (_ & _ & _ & HI & _).
  cbn [String.eqb]. rewrite HI.
  rewrite (unsignedDecimal_digits (String c r) n); auto.
  simpl. now rewrite Hc, Hr.
Qed.

Lemma Number_Z_toString z :
  exists q, Number (Z_toString z) = fl q /\ (q == inject_Z z)%Q.
Proof.
  rewrite Z_toString_eq.
  pose proof (absDigits_digits z) as Hd.
  pose proof (absDigits_truthy z) as Ht.
  pose proof (absDigits_value z) as Hv.
  destruct (Z.ltb_spec z 0) as [Hneg|Hpos].
  - remember (absDigits z) as u eqn:Hu.
    exists (- (inject_Z (Z.of_N (Z.abs_N z)) * (10 # 1) ^ (0 - 0)))%Q. split.
    + unfold Number. rewrite trim_no_space.
      2:{ simpl. apply (allChars_impl isDigit); [|exact Hd].
          intros c Hc. destruct (isDigit_facts c Hc) as [Hc' _].
          now destruct (numericChar_facts c Hc'). }
      rewrite truthy_String, nonDecimal_minus.
      cbn [signOf]. change (Ascii.eqb "-" "-") with true. cbv iota.
      destruct u as [|c r]; [discriminate Ht|].
      simpl in Hd. pose proof Hd as Hd'. apply andb_true_iff in Hd as [Hc Hr].
      destruct (isDigit_facts c Hc) as (_ & _ & _ & HI & _).
      cbn [String.eqb]. rewrite HI.
      rewrite (unsignedDecimal_digits (String c r) (Z.abs_N z)); auto.
    + rewrite N2Z.inj_abs_N. simpl Qpower.
      rewrite Z.abs_neq by lia. unfold Qeq; simpl. lia.
  - exists (inject_Z (Z.of_N (Z.abs_N z)) * (10 # 1) ^ (0 - 0))%Q. split.
    + now apply Number_digits.
    + rewrite N2Z.inj_abs_N. simpl Qpower.
      rewrite Z.abs_eq by lia. unfold Qeq; simpl. lia.
Qed.

End NumberOfInteger.

(** ** Rounding, scaling and reading back a coordinate *)

Section Arithmetic.
Context {RT : Runtime} (OK : RuntimeOK RT).

Lemma Qabs_bound (x b : Q) : (- b <= x <= b)%Q -> (Qabs x <= b)%Q.
Proof. intro H. apply Qabs_Qle_condition. exact H. Qed.

Lemma Qabs_unbound (x b : Q) : (Qabs x <= b)%Q -> (- b <= x <= b)%Q.
Proof. intro H. apply Qabs_Qle_condition. exact H. Qed.

Lemma maxSafe_eq : inject_Z maxSafe = (9007199254740992 # 1)%Q.
Proof. reflexivity. Qed.

Lemma eps_eq : eps = (1 # 9007199254740992)%Q.
Proof. reflexivity. Qed.

Lemma round_bounds (y : Q) :
  (y - (1 # 2) < inject_Z (Qfloor (y + (1 # 2))) <= y + (1 # 2))%Q.
Proof.
  pose proof (Qfloor_le (y + (1 # 2))) as Hle.
  pose proof (Qlt_floor (y + (1 # 2))) as Hlt.
  rewrite inject_Z_plus in Hlt. change (inject_Z 1) with 1%Q in Hlt.
  split; lra.
Qed.

Lemma toString_integer (n : Z) :
  (Z.abs n <= maxSafe)%Z -> toString (Fin (inject_Z n)) = Z_toString n.
Proof.
  intro H. unfold toString, isInteger.
  rewrite Qfloor_Z.
  assert (E : Qeq_bool (inject_Z n) (inject_Z n) = true) by (apply Qeq_bool_iff; reflexivity).
  rewrite E. apply Z.leb_le in H. now rewrite H.
Qed.

Lemma scaled_roundtrip (x : Q) :
  (-180 <= x <= 180)%Q ->
  exists (n : Z) (y : Q),
    Math_round (num_mul (Fin x) hundredThousand) = Fin (inject_Z n) /\
    (Z.abs n <= maxSafe)%Z /\
    num_div (Number (Z_toString n)) hundredThousand = Fin y /\
    (Qabs (y - x) <= 1 # 100000)%Q.
Proof.
  intros Hx. unfold hundredThousand. cbn [num_mul].
  destruct (fl_err RT OK (x * (100000 # 1))%Q) as (y1 & E1 & B1).
  { rewrite maxSafe_eq. apply Qabs_bound. lra. }
  rewrite E1. cbn [Math_round].
  set (n := Qfloor (y1 + (1 # 2))).
  pose proof (round_bounds y1) as Hn. fold n in Hn.
  assert (A1 : (Qabs (x * (100000 # 1)) <= 18000000)%Q) by (apply Qabs_bound; lra).
  assert (B1' : (Qabs (y1 - x * (100000 # 1)) <= 18000001 * eps)%Q).
  { eapply Qle_trans; [exact B1|]. rewrite eps_eq. lra. }
  apply Qabs_unbound in B1'. rewrite eps_eq in B1'.
  assert (Hnb : (-18000002 <= inject_Z n <= 18000002)%Q) by lra.
  assert (HnZ : (-18000002 <= n <= 18000002)%Z).
  { destruct Hnb as [L U]. unfold Qle in L, U. simpl in L, U. lia. }
  exists n.
  destruct (Number_Z_toString n) as (q & Eq & Hq).
  destruct (fl_int RT OK q n Hq) as (y2 & E2 & H2).
  { unfold maxSafe. lia. }
  assert (N0 : ((100000 # 1) ?= 0)%Q = Gt) by reflexivity.
  destruct (fl_err RT OK (y2 / (100000 # 1))%Q) as (y3 & E3 & B3).
  { rewrite maxSafe_eq. apply Qabs_bound.
    unfold Qdiv. change (/ (100000 # 1))%Q with (1 # 100000)%Q. lra. }
  exists y3. split; [reflexivity|]. split; [unfold maxSafe; lia|]. split.
  - rewrite Eq, E2. cbn [num_div]. rewrite N0. exact E3.
  - assert (A3 : (Qabs (y2 / (100000 # 1)) <= 181)%Q).
    { apply Qabs_bound. unfold Qdiv. change (/ (100000 # 1))%Q with (1 # 100000)%Q. lra. }
    assert (B3' : (Qabs (y3 - y2 / (100000 # 1)) <= 182 * eps)%Q).
    { eapply Qle_trans; [exact B3|]. rewrite eps_eq. lra. }
    apply Qabs_unbound in B3'. rewrite eps_eq in B3'.
    unfold Qdiv in B3'. change (/ (100000 # 1))%Q with (1 # 100000)%Q in B3'.
    apply Qabs_bound. lra.
Qed.

End Arithmetic.

(** ** The compact fragment *)

Lemma prefix_app (p s : string) : String.prefix p (p ++ s) = true.
Proof.
  induction p as [|c p IH]; simpl; [now destruct s|].
  destruct (ascii_dec c c) as [_|Hne]; [exact IH | now elim Hne].
Qed.

Lemma numeric_no_slash s : allChars numericChar s = true -> mem "/" s = false.
Proof. intro H. apply (allChars_mem numericChar); [exact H | reflexivity]. Qed.

Lemma numeric_no_underscore s : allChars numericChar s = true -> mem "_" s = false.
Proof. intro H. apply (allChars_mem numericChar); [exact H | reflexivity]. Qed.

Section CompactFragment.
Context {RT : Runtime}.

(** A compact fragment whose parts hold neither [/] nor [_] is read by the
    compact branch, part by part. *)
Lemma parseHash_compact a b c st :
  mem "/" a = false -> mem "/" b = false -> mem "/" c = false ->
  mem "_" a = false -> mem "_" b = false -> mem "_" c = false ->
  parseHash (compactFragment a b c) st =
  let zoom := Number a in
  let lat := num_div (Number b) hundredThousand in
  let lng := num_div (Number c) hundredThousand in
  if (negb (isNaN zoom) && negb (isNaN lat) && negb (isNaN lng))%bool
  then MapState.setPosition zoom lat lng st else st.
Proof.
  intros Sa Sb Sc Ua Ub Uc. unfold parseHash.
  assert (Hs : includes "/" (compactFragment a b c) = false).
  { rewrite includes_char. unfold compactFragment.
    rewrite !mem_app, Sa, Sb, Sc. reflexivity. }
  rewrite Hs.
  assert (Hp : startsWith "map_" (compactFragment a b c) = true)
    by apply prefix_app.
  rewrite Hp.
  change (truthy (compactFragment a b c)) with true. cbv iota.
  change (substringFrom 4 (compactFragment a b c)) with (a ++ "_" ++ b ++ "_" ++ c).
  change (a ++ "_" ++ b ++ "_" ++ c) with (a ++ String "_" (b ++ String "_" c)).
  rewrite (split_app "_" a _ Ua), (split_app "_" b _ Ub), (split_no_sep "_" c Uc).
  reflexivity.
Qed.

Lemma location_hash_set_hash (s : string) (u : URL) :
  substringFrom 1 (location_hash (set_hash (String "#" (String "m" s)) u)) = String "m" s.
Proof. reflexivity. Qed.

Lemma fragment_updateCellId st u : fragment (updateCellId st u) = fragment u.
Proof.
  unfold updateCellId. destruct (MapState.cellId st) as [c|]; [|reflexivity].
  destruct (truthy c); reflexivity.
Qed.

Lemma location_hash_updateCellId st u :
  location_hash (updateCellId st u) = location_hash u.
Proof. unfold location_hash. now rewrite fragment_updateCellId. Qed.

(** The position that [parseUrlState] returns is the one [parseHash] finds
    in the fragment. *)
Lemma parseUrlState_position (u : URL) :
  let st := parseHash (substringFrom 1 (location_hash u)) MapState.empty in
  MapState.zoom (parseUrlState u) = MapState.zoom st /\
  MapState.lat (parseUrlState u) = MapState.lat st /\
  MapState.lng (parseUrlState u) = MapState.lng st.
Proof.
  unfold parseUrlState.
  destruct (URLSearchParams.get "id" _) as [c|]; [|repeat split].
  destruct (truthy c); repeat split.
Qed.

End CompactFragment.

(** ** The codec *)

Section Codec.
Context {RT : Runtime} (OK : RuntimeOK RT).

Lemma round_integer (z : Z) : Qfloor (inject_Z z + (1 # 2)) = z.
Proof.
  unfold Qfloor, Qplus, inject_Z. simpl.
  symmetry. apply (Z.div_unique _ 2 z 1); lia.
Qed.

(** What [updateHash] writes for a position in range, and what is read back
    from it. *)
Lemma updateHash_in_range (zoom : Z) (la ln : Q) (cid : option string) (loc : URL) :
  (0 <= zoom <= 22)%Z -> (-90 <= la <= 90)%Q -> (-180 <= ln <= 180)%Q ->
  exists (n1 n2 : Z) (z' la' ln' : Q),
    updateHash {| MapState.zoom := Some (Fin (inject_Z zoom));
                  MapState.lat := Some (Fin la);
                  MapState.lng := Some (Fin ln);
                  MapState.cellId := cid |} loc
    = set_hash (String "#" (compactFragment (Z_toString zoom) (Z_toString n1) (Z_toString n2))) loc /\
    Number (Z_toString zoom) = Fin z' /\ (z' == inject_Z zoom)%Q /\
    num_div (Number (Z_toString n1)) hundredThousand = Fin la' /\
    (Qabs (la' - la) <= 1 # 100000)%Q /\
    num_div (Number (Z_toString n2)) hundredThousand = Fin ln' /\
    (Qabs (ln' - ln) <= 1 # 100000)%Q.
Proof.
  intros Hz Hla Hln.
  destruct (scaled_roundtrip OK la) as (n1 & la' & R1 & B1 & D1 & E1); [lra|].
  destruct (scaled_roundtrip OK ln) as (n2 & ln' & R2 & B2 & D2 & E2); [lra|].
  destruct (Number_Z_toString zoom) as (q & Eq & Hq).
  destruct (fl_int RT OK q zoom Hq) as (z' & Ez & Hz').
  { unfold maxSafe. lia. }
  exists n1, n2, z', la', ln'.
  split; [|split; [congruence|split; [now rewrite Hz', Hq|auto]]].
  unfold updateHash. cbn [MapState.zoom MapState.lat MapState.lng].
  rewrite R1, R2. cbn [Math_round isNaN negb andb]. rewrite round_integer.
  rewrite !toString_integer by (first [assumption | unfold maxSafe; lia]). reflexivity.
Qed.

End Codec.

(** C1.  Round trip of the coordinate codec: for every zoom in [0,22], every
    latitude in [-90,90] and every longitude in [-180,180], parsing the URL
    that an update with that position has written yields the zoom exactly and
    the latitude and the longitude each within 1e-5 of the original. *)
Theorem codec_roundtrip {RT : Runtime} (OK : RuntimeOK RT)
    (zoom : Z) (la ln : Q) (cid : option string) (loc : URL) :
  (0 <= zoom <= 22)%Z -> (-90 <= la <= 90)%Q -> (-180 <= ln <= 180)%Q ->
  let written :=
    updateUrlState {| MapState.zoom := Some (Fin (inject_Z zoom));
                      MapState.lat := Some (Fin la);
                      MapState.lng := Some (Fin ln);
                      MapState.cellId := cid |} loc in
  exists z' la' ln' : Q,
    MapState.zoom (parseUrlState written) = Some (Fin z') /\
    MapState.lat (parseUrlState written) = Some (Fin la') /\
    MapState.lng (parseUrlState written) = Some (Fin ln') /\
    (z' == inject_Z zoom)%Q /\
    (Qabs (la' - la) <= 1 # 100000)%Q /\
    (Qabs (ln' - ln) <= 1 # 100000)%Q.
Proof.
  intros Hz Hla Hln written.
  destruct (updateHash_in_range OK zoom la ln cid loc Hz Hla Hln)
    as (n1 & n2 & z' & la' & ln' & W & Ez & Hz' & Ela & Hla' & Eln & Hln').
  exists z', la', ln'.
  destruct (parseUrlState_position written) as (Pz & Pla & Pln).
  rewrite Pz, Pla, Pln. subst written. unfold updateUrlState.
  rewrite location_hash_updateCellId, W.
  unfold compactFragment at 1 2 3.
  change (String "#" ("map_" ++ ?s)) with (String "#" (String "m" ("ap_" ++ s))).
  rewrite location_hash_set_hash.
  change (String "m" ("ap_" ++ ?s)) with ("map_" ++ s).
  fold (compactFragment (Z_toString zoom) (Z_toString n1) (Z_toString n2)).
  rewrite parseHash_compact
    by (first [apply numeric_no_slash | apply numeric_no_underscore]; apply Z_toString_chars).
  cbv zeta. rewrite Ez, Ela, Eln. cbn [isNaN negb andb].
  cbn [MapState.zoom MapState.lat MapState.lng MapState.setPosition].
  repeat split; assumption.
Qed.

(** ** Binary64 arithmetic meets the requirements on the engine *)

Section Binary64.
Local Open Scope Q_scope.

Lemma pow2_pos e : 0 < pow2 e.
Proof. apply Qpower_0_lt. reflexivity. Qed.

Lemma pow2_plus a b : pow2 (a + b) == pow2 a * pow2 b.
Proof. apply Qpower_plus. discriminate. Qed.

Lemma pow2_opp a : pow2 (- a) == / pow2 a.
Proof. apply Qpower_opp. Qed.

Lemma pow2_Z n : (0 <= n)%Z -> pow2 n == inject_Z (2 ^ n).
Proof. intro H. unfold pow2. now rewrite (Zpower_Qpower 2 n H). Qed.

Lemma pow2_le_inv a b : pow2 a <= pow2 b -> (a <= b)%Z.
Proof.
  intro H. apply (Qpower_le_compat_l_inv (2 # 1)); [exact H | reflexivity].
Qed.

Lemma floorLog2_lower (a : Q) : 0 < a -> pow2 (floorLog2 a) <= a.
Proof.
  intro Ha. unfold floorLog2.
  set (n := Qnum a). set (d := Qden a).
  destruct (Qle_bool (pow2 (Z.log2 n - Z.log2 (Z.pos d))) a) eqn:E.
  - now apply Qle_bool_iff.
  - clear E.
    assert (Hn : (0 < n)%Z).
    { unfold Qlt in Ha. simpl in Ha. subst n. lia. }
    destruct (Z.log2_spec n Hn) as [Ln _].
    destruct (Z.log2_spec (Z.pos d) (Pos2Z.is_pos d)) as [_ Ud].
    pose proof (Z.log2_nonneg n) as Nn.
    pose proof (Z.log2_nonneg (Z.pos d)) as Nd.
    replace (Z.log2 n - Z.log2 (Z.pos d) - 1)%Z
      with (Z.log2 n + - (Z.succ (Z.log2 (Z.pos d))))%Z by lia.
    rewrite pow2_plus, pow2_opp, !pow2_Z by lia.
    set (A := (2 ^ Z.log2 n)%Z) in *. set (B := (2 ^ Z.succ (Z.log2 (Z.pos d)))%Z) in *.
    assert (HB : (0 < B)%Z) by lia.
    destruct B as [|B|B]; try lia.
    change (inject_Z A * / inject_Z (Z.pos B)) with (inject_Z A / inject_Z (Z.pos B)).
    rewrite <- Qmake_Qdiv.
    destruct a as [an ad]. unfold Qle. simpl in *. subst n d. nia.
Qed.

Lemma roundHalfEven_near (q : Q) : Qabs (inject_Z (roundHalfEven q) - q) <= 1 # 2.
Proof.
  unfold roundHalfEven.
  pose proof (Qfloor_le q) as Hle. pose proof (Qlt_floor q) as Hlt.
  rewrite inject_Z_plus in Hlt. change (inject_Z 1) with 1 in Hlt.
  apply Qabs_Qle_condition.
  destruct (Qcompare_spec (q - inject_Z (Qfloor q)) (1 # 2)) as [E|L|G].
  - destruct (Z.even (Qfloor q)); rewrite ?inject_Z_plus; change (inject_Z 1) with 1;
      split; lra.
  - split; lra.
  - rewrite inject_Z_plus. change (inject_Z 1) with 1. split; lra.
Qed.

Lemma roundHalfEven_integer (q : Q) (z : Z) : q == inject_Z z -> roundHalfEven q = z.
Proof.
  intro H. unfold roundHalfEven.
  assert (F : Qfloor q = z) by (rewrite H; apply Qfloor_Z).
  rewrite F.
  destruct (Qcompare_spec (q - inject_Z z) (1 # 2)) as [E|L|G]; [lra | reflexivity | lra].
Qed.

Lemma ulp_small (a : Q) : 0 < a -> pow2 (ulpExponent a) <= (a + 1) * (1 # 4503599627370496).
Proof.
  intro Ha. unfold ulpExponent.
  destruct (Z.max_spec (floorLog2 a - 52) (-1074)) as [[_ ->] | [_ ->]].
  - assert (pow2 (-1074) <= 1 # 4503599627370496) by (vm_compute; discriminate).
    assert (0 < 1 # 4503599627370496) by reflexivity.
    setoid_replace ((a + 1) * (1 # 4503599627370496)) with (a * (1 # 4503599627370496) + (1 # 4503599627370496)) by ring.
    assert (0 <= a * (1 # 4503599627370496)) by (apply Qmult_le_0_compat; lra).
    lra.
  - replace (floorLog2 a - 52)%Z with (floorLog2 a + - (52))%Z by lia.
    rewrite pow2_plus, pow2_opp.
    change (/ pow2 52) with (1 # 4503599627370496).
    pose proof (floorLog2_lower a Ha) as L.
    assert (0 < 1 # 4503599627370496) by reflexivity.
    setoid_replace ((a + 1) * (1 # 4503599627370496)) with (a * (1 # 4503599627370496) + (1 # 4503599627370496)) by ring.
    assert (pow2 (floorLog2 a) * (1 # 4503599627370496) <= a * (1 # 4503599627370496)).
    { apply Qmult_le_compat_r; [exact L | discriminate]. }
    lra.
Qed.

(** Rounding a positive number: the result is within half a unit in the last
    place. *)
Lemma round_positive_near (a : Q) :
  0 < a -> Qabs (roundPositive a - a) <= (1 # 2) * pow2 (ulpExponent a).
Proof.
  intros Ha. unfold roundPositive. set (e := ulpExponent a).
  pose proof (pow2_pos e) as Hs.
  assert (Hne : ~ pow2 e == 0) by lra.
  setoid_replace (inject_Z (roundHalfEven (a / pow2 e)) * pow2 e - a)
    with ((inject_Z (roundHalfEven (a / pow2 e)) - a / pow2 e) * pow2 e)
    by (field; exact Hne).
  rewrite Qabs_Qmult, (Qabs_pos (pow2 e)) by lra.
  apply Qmult_le_compat_r; [apply roundHalfEven_near | lra].
Qed.

Lemma roundPositive_error (a : Q) :
  0 < a -> a <= inject_Z maxSafe ->
  Qabs (roundPositive a - a) <= (a + 1) * eps /\ roundPositive a < pow2 1024.
Proof.
  intros Ha Hb. rewrite maxSafe_eq in Hb. rewrite eps_eq.
  pose proof (round_positive_near a Ha) as N.
  pose proof (ulp_small a Ha) as U.
  assert (E : Qabs (roundPositive a - a) <= (a + 1) * (1 # 9007199254740992)).
  { eapply Qle_trans; [exact N|].
    setoid_replace ((a + 1) * (1 # 9007199254740992))
      with ((1 # 2) * ((a + 1) * (1 # 4503599627370496))) by ring.
    apply Qmult_le_l; [reflexivity | exact U]. }
  split; [exact E|].
  apply Qabs_Qle_condition in E.
  setoid_replace ((a + 1) * (1 # 9007199254740992))
    with (a * (1 # 9007199254740992) + (1 # 9007199254740992)) in E by ring.
  assert (P : pow2 1024 == inject_Z (2 ^ 1024)) by (apply pow2_Z; lia).
  rewrite P. apply Qlt_trans with (inject_Z (2 ^ 54)).
  - change (inject_Z (2 ^ 54)) with (18014398509481984 # 1). lra.
  - rewrite <- Zlt_Qlt. apply Z.pow_lt_mono_r; lia.
Qed.

Lemma roundPositive_integer (a : Q) (z : Z) :
  a == inject_Z z -> (0 < z <= maxSafe)%Z -> roundPositive a == a.
Proof.
  intros Ha Hz.
  assert (Hpos : 0 < a).
  { rewrite Ha. change 0 with (inject_Z 0). rewrite <- Zlt_Qlt. lia. }
  assert (Hle : a <= pow2 53).
  { rewrite Ha, (pow2_Z 53) by lia. rewrite <- Zle_Qle. exact (proj2 Hz). }
  unfold roundPositive. set (e := ulpExponent a).
  pose proof (pow2_pos e) as Hs.
  assert (W : exists w, a / pow2 e == inject_Z w).
  { destruct (Z_le_gt_dec e 0) as [He|He].
    - exists (z * 2 ^ (- e))%Z.
      rewrite inject_Z_mult, <- (pow2_Z (- e)) by lia.
      rewrite pow2_opp, Ha. reflexivity.
    - assert (El : e = (floorLog2 a - 52)%Z).
      { subst e. unfold ulpExponent in *. lia. }
      pose proof (floorLog2_lower a Hpos) as L.
      replace (floorLog2 a) with (e + 52)%Z in L by lia.
      assert (e + 52 <= 53)%Z by (apply pow2_le_inv; lra).
      assert (E1 : e = 1%Z) by lia.
      rewrite E1 in *. change (1 + 52)%Z with 53%Z in L.
      exists (2 ^ 52)%Z.
      assert (Ea : a == pow2 53) by lra.
      rewrite Ea. vm_compute. reflexivity. }
  destruct W as (w & Hw).
  rewrite (roundHalfEven_integer _ w Hw), <- Hw.
  field. lra.
Qed.

Lemma binary64_round_positive (x : Q) :
  0 < x -> x <= inject_Z maxSafe -> binary64_round x = Fin (roundPositive (Qabs x)).
Proof.
  intros Hx Hb. unfold binary64_round.
  destruct (Qcompare_spec x 0) as [C|C|C]; [lra | lra |]. cbv zeta.
  assert (Ea : Qabs x == x) by (apply Qabs_pos; lra).
  destruct (roundPositive_error (Qabs x)) as [_ Ho]; [lra | lra |].
  destruct (Qle_bool (pow2 1024) (roundPositive (Qabs x))) eqn:E; [|reflexivity].
  apply Qle_bool_iff in E. lra.
Qed.

Lemma binary64_round_negative (x : Q) :
  x < 0 -> - inject_Z maxSafe <= x -> binary64_round x = Fin (- roundPositive (Qabs x)).
Proof.
  intros Hx Hb. unfold binary64_round.
  destruct (Qcompare_spec x 0) as [C|C|C]; [lra | | lra]. cbv zeta.
  assert (Ea : Qabs x == - x) by (apply Qabs_neg; lra).
  destruct (roundPositive_error (Qabs x)) as [_ Ho]; [lra | lra |].
  destruct (Qle_bool (pow2 1024) (roundPositive (Qabs x))) eqn:E; [|reflexivity].
  apply Qle_bool_iff in E. lra.
Qed.

Lemma binary64_round_zero (x : Q) : x == 0 -> binary64_round x = Fin 0.
Proof.
  intro H. unfold binary64_round.
  destruct (Qcompare_spec x 0) as [C|C|C]; [reflexivity | lra | lra].
Qed.

(** Binary64 arithmetic meets the requirements on the engine. *)
Theorem binary64_ok (digits : Q -> string) :
  (forall q, allChars numericChar (digits q) = true) -> RuntimeOK (binary64 digits).
Proof.
  intro Hd. split; cbn [fl toStringOther binary64].
  - intros x. unfold binary64_round.
    destruct (Qcompare x 0); [discriminate | |]; cbv zeta;
      destruct (Qle_bool _ _); discriminate.
  - intros x z Hx Hz.
    destruct (Qcompare_spec x 0) as [E|L|G].
    + exists 0. split; [now apply binary64_round_zero | now symmetry].
    + assert (Hzn : (z < 0)%Z).
      { rewrite Hx in L. change 0 with (inject_Z 0) in L. now rewrite <- Zlt_Qlt in L. }
      exists (- roundPositive (Qabs x)). split.
      * apply binary64_round_negative; [exact L|].
        rewrite Hx, <- inject_Z_opp, <- Zle_Qle. lia.
      * rewrite (roundPositive_integer (Qabs x) (- z)).
        -- rewrite (Qabs_neg x) by lra. ring.
        -- rewrite (Qabs_neg x) by lra. now rewrite Hx, inject_Z_opp.
        -- lia.
    + assert (Hzp : (0 < z)%Z).
      { rewrite Hx in G. change 0 with (inject_Z 0) in G. now rewrite <- Zlt_Qlt in G. }
      exists (roundPositive (Qabs x)). split.
      * apply binary64_round_positive; [exact G|].
        rewrite Hx, <- Zle_Qle. lia.
      * rewrite (roundPositive_integer (Qabs x) z).
        -- apply Qabs_pos. lra.
        -- rewrite (Qabs_pos x) by lra. exact Hx.
        -- lia.
  - intros x Hx. apply Qabs_Qle_condition in Hx.
    destruct (Qcompare_spec x 0) as [E|L|G].
    + exists 0. split; [now apply binary64_round_zero|].
      setoid_replace (0 - x) with 0 by lra. rewrite eps_eq.
      pose proof (Qabs_nonneg x). change (Qabs 0) with 0. lra.
    + exists (- roundPositive (Qabs x)). split.
      * apply binary64_round_negative; [exact L | lra].
      * assert (Ea : Qabs x == - x) by (apply Qabs_neg; lra).
        destruct (roundPositive_error (Qabs x)) as [Er _]; [lra | lra |].
        setoid_replace (- roundPositive (Qabs x) - x)
          with (- (roundPositive (Qabs x) - Qabs x)) by lra.
        now rewrite Qabs_opp.
    + exists (roundPositive (Qabs x)). split.
      * apply binary64_round_positive; [exact G | lra].
      * assert (Ea : Qabs x == x) by (apply Qabs_pos; lra).
        destruct (roundPositive_error (Qabs x)) as [Er _]; [lra | lra |].
        setoid_replace (roundPositive (Qabs x) - x)
          with (roundPositive (Qabs x) - Qabs x) by lra.
        exact Er.
  - exact Hd.
Qed.

End Binary64.

Lemma engine_ok : RuntimeOK engine.
Proof.
  apply binary64_ok. intro q. unfold integerDigits.
  rewrite allChars_app. fold (Z_toString (Qfloor q)).
  now rewrite Z_toString_chars.
Qed.

(** ** The engine on examples *)

Example Number_examples :
  let reads := fun (s : string) (x : num) => num_eqb (@Number engine s) x in
  (reads " 12 " (Fin 12) && reads "0x1F" (Fin 31) && reads "0b101" (Fin 5) && reads "0o17" (Fin 15)
   && reads "1e2" (Fin 100) && reads "-.5" (Fin (-0.5)) && reads "5." (Fin 5) && reads "+5" (Fin 5)
   && reads "Infinity" (Inf false) && reads "-Infinity" (Inf true) && reads "1e999" (Inf false)
   && reads "12px" NaN && reads "." NaN && reads "1e" NaN && reads "1_0" NaN && reads "-0x10" NaN
   && reads "1 2" NaN && reads "map" NaN && reads "0.1" (Fin (3602879701896397 # 36028797018963968)))%bool
  = true.
Proof. vm_compute. reflexivity. Qed.

Example binary64_round_examples :
  let reads := fun (q : Q) (x : num) => num_eqb (binary64_round q) x in
  (reads (1 # 3) (Fin (6004799503160661 # 18014398509481984))
   && reads (9007199254740993 # 1) (Fin 9007199254740992)
   && reads (9007199254740995 # 1) (Fin 9007199254740996)
   && reads (-4071280 # 100000) (Fin (-2864908607956399 # 70368744177664)))%bool
  = true.
Proof. vm_compute. reflexivity. Qed.

Example Math_round_examples :
  Math_round (Fin 2.5) = Fin 3 /\ Math_round (Fin (-2.5)) = Fin (-2) /\
  Math_round (Fin 15.4) = Fin 15 /\ Math_round NaN = NaN.
Proof. repeat split. Qed.

Example URLSearchParams_examples :
  URLSearchParams.parse "?id=A+23%26%23&x=1&&y" = [("id", "A 23&#"); ("x", "1"); ("y", EmptyString)] /\
  URLSearchParams.serialize [("id", "A 23&#"); ("x", "1")] = "id=A+23%26%23&x=1" /\
  URLSearchParams.set "id" "B2" [("x", "1"); ("id", "A1"); ("id", "A2")] = [("x", "1"); ("id", "B2")].
Proof. repeat split. Qed.

Lemma codec_roundtrip_witness :
  RuntimeOK engine /\
  (0 <= 16 <= 22)%Z /\ (-90 <= 40.7128 <= 90)%Q /\ (-180 <= -74.006 <= 180)%Q /\
  let written :=
    @updateUrlState engine
      {| MapState.zoom := Some (Fin (inject_Z 16));
         MapState.lat := Some (Fin 40.7128);
         MapState.lng := Some (Fin (-74.006));
         MapState.cellId := None |}
      {| base := "https://survey.example/"; query := None; fragment := None |} in
  exists z' la' ln' : Q,
    MapState.zoom (@parseUrlState engine written) = Some (Fin z') /\
    MapState.lat (@parseUrlState engine written) = Some (Fin la') /\
    MapState.lng (@parseUrlState engine written) = Some (Fin ln') /\
    (z' == inject_Z 16)%Q /\
    (Qabs (la' - 40.7128) <= 1 # 100000)%Q /\
    (Qabs (ln' - -74.006) <= 1 # 100000)%Q.
Proof.
  split; [exact engine_ok|].
  split; [lia|]. split; [lra|]. split; [lra|].
  apply (@codec_roundtrip engine engine_ok); [lia | lra | lra].
Defined.

Section Fragment.
Context {RT : Runtime} (OK : RuntimeOK RT).

Lemma toString_no_separator (x : num) :
  mem "/" (toString x) = false /\ mem "_" (toString x) = false.
Proof.
  destruct x as [|[]|q]; try (split; reflexivity).
  unfold toString.
  destruct (isInteger q && (Z.abs (Qfloor q) <=? maxSafe)%Z)%bool.
  - split; [apply numeric_no_slash | apply numeric_no_underscore]; apply Z_toString_chars.
  - split; [apply numeric_no_slash | apply numeric_no_underscore];
      apply (toStringOther_chars RT OK).
Qed.

Lemma Math_round_NaN x : isNaN (Math_round x) = isNaN x.
Proof. now destruct x. Qed.

Lemma num_mul_NaN x : isNaN (num_mul x hundredThousand) = isNaN x.
Proof.
  destruct x as [|s|q]; cbn; try reflexivity.
  destruct (fl (q * (100000 # 1))) eqn:E; try reflexivity.
  now elim (fl_not_NaN RT OK _ E).
Qed.

(** An update that holds a position without NaN writes the compact fragment
    of the rounded values. *)
Lemma updateHash_compact st loc z la ln :
  MapState.zoom st = Some z -> MapState.lat st = Some la -> MapState.lng st = Some ln ->
  isNaN z = false -> isNaN la = false -> isNaN ln = false ->
  fragment (updateHash st loc)
  = Some (compactFragment (toString (Math_round z))
                          (toString (Math_round (num_mul la hundredThousand)))
                          (toString (Math_round (num_mul ln hundredThousand)))).
Proof.
  intros Ez Ela Eln Nz Nla Nln. unfold updateHash. rewrite Ez, Ela, Eln.
  rewrite !Math_round_NaN, !num_mul_NaN, Nz, Nla, Nln. reflexivity.
Qed.

(** An update that holds a NaN leaves the fragment as it was. *)
Lemma updateHash_NaN st loc z la ln :
  MapState.zoom st = Some z -> MapState.lat st = Some la -> MapState.lng st = Some ln ->
  (isNaN z || isNaN la || isNaN ln)%bool = true ->
  updateHash st loc = loc.
Proof.
  intros Ez Ela Eln H. unfold updateHash. rewrite Ez, Ela, Eln.
  rewrite !Math_round_NaN, !num_mul_NaN.
  destruct (isNaN z), (isNaN la), (isNaN ln); try reflexivity; discriminate H.
Qed.

End Fragment.

(** C3, as the code has it.  For every update that holds a zoom, a latitude
    and a longitude: when none of them is NaN the fragment written is
    [map_<zoom>_<latInt>_<lngInt>] with the rounded zoom and the rounded
    scaled coordinates, and no part holds a slash or an underscore, so the
    fragment is not of the legacy slash form; when one of them is NaN the
    fragment stays as it was. *)
Theorem update_writes_compact {RT : Runtime} (OK : RuntimeOK RT)
    (st : MapState.t) (loc : URL) (z la ln : num) :
  MapState.zoom st = Some z -> MapState.lat st = Some la -> MapState.lng st = Some ln ->
  if (isNaN z || isNaN la || isNaN ln)%bool
  then fragment (updateUrlState st loc) = fragment loc
  else
    exists a b c : string,
      a = toString (Math_round z) /\
      b = toString (Math_round (num_mul la hundredThousand)) /\
      c = toString (Math_round (num_mul ln hundredThousand)) /\
      fragment (updateUrlState st loc) = Some (compactFragment a b c) /\
      mem "_" a = false /\ mem "_" b = false /\ mem "_" c = false /\
      includes "/" (compactFragment a b c) = false.
Proof.
  intros Ez Ela Eln.
  unfold updateUrlState. rewrite fragment_updateCellId.
  destruct (isNaN z || isNaN la || isNaN ln)%bool eqn:N.
  - now rewrite (updateHash_NaN OK st loc z la ln Ez Ela Eln N).
  - apply orb_false_iff in N as [N Nln]. apply orb_false_iff in N as [Nz Nla].
    eexists _, _, _. split; [reflexivity|]. split; [reflexivity|]. split; [reflexivity|].
    rewrite (updateHash_compact OK st loc z la ln) by assumption.
    split; [reflexivity|].
    repeat split; try apply (toString_no_separator OK).
    rewrite includes_char. unfold compactFragment. rewrite !mem_app.
    now rewrite !(proj1 (toString_no_separator OK _)).
Qed.

Lemma update_writes_compact_witness :
  RuntimeOK engine /\
  exists a b c : string,
    a = @toString engine (Math_round (Fin 15.5)) /\
    b = @toString engine (Math_round (@num_mul engine (Fin 40.7128) hundredThousand)) /\
    c = @toString engine (Math_round (@num_mul engine (Fin (-74.006)) hundredThousand)) /\
    fragment (@updateUrlState engine
                {| MapState.zoom := Some (Fin 15.5);
                   MapState.lat := Some (Fin 40.7128);
                   MapState.lng := Some (Fin (-74.006));
                   MapState.cellId := None |}
                {| base := "https://survey.example/"; query := None;
                   fragment := Some "15/40.71280/-74.00600" |})
    = Some (compactFragment a b c) /\
    mem "_" a = false /\ mem "_" b = false /\ mem "_" c = false /\
    includes "/" (compactFragment a b c) = false.
Proof.
  split; [exact engine_ok|].
  exact (@update_writes_compact engine engine_ok
           {| MapState.zoom := Some (Fin 15.5);
              MapState.lat := Some (Fin 40.7128);
              MapState.lng := Some (Fin (-74.006));
              MapState.cellId := None |}
           {| base := "https://survey.example/"; query := None;
              fragment := Some "15/40.71280/-74.00600" |}
           (Fin 15.5) (Fin 40.7128) (Fin (-74.006)) eq_refl eq_refl eq_refl).
Defined.

(** The fragment that the example writes. *)
Example update_example :
  fragment (@updateUrlState engine
              {| MapState.zoom := Some (Fin 15.5);
                 MapState.lat := Some (Fin 40.7128);
                 MapState.lng := Some (Fin (-74.006));
                 MapState.cellId := Some "A23" |}
              (withFragment "15/40.71280/-74.00600"))
  = Some "map_16_4071280_-7400600".
Proof. vm_compute. reflexivity. Qed.

(** C3, as the claim has it, fails on an update that holds a NaN: the guard
    of line 71 skips the write and the fragment of an old link stays. *)
Lemma update_with_NaN_counterexample :
  let st := {| MapState.zoom := Some NaN;
               MapState.lat := Some (Fin 40.7128);
               MapState.lng := Some (Fin (-74.006));
               MapState.cellId := None |} in
  let loc := {| base := "https://survey.example/"; query := None;
                fragment := Some "15/40.71280/-74.00600" |} in
  MapState.zoom st <> None /\ MapState.lat st <> None /\ MapState.lng st <> None /\
  fragment (@updateUrlState engine st loc) = Some "15/40.71280/-74.00600" /\
  ~ (exists a b c : string,
        fragment (@updateUrlState engine st loc) = Some (compactFragment a b c)).
Proof.
  cbv zeta. repeat split; try discriminate.
  intros (a & b & c & H). vm_compute in H. discriminate H.
Qed.

(** ** Malformed fragments *)

Section Malformed.
Context {RT : Runtime}.

Lemma num_div_NaN_l y : num_div NaN y = NaN.
Proof. reflexivity. Qed.

Lemma parseHash_malformed hash st : Malformed isNaN hash -> parseHash hash st = st.
Proof.
  intros [Hs Hl | p Hs Hin Hp | Hs Hm Hl | p Hs Hm Hin Hp | Hs Hm];
    unfold parseHash; destruct (truthy hash); try reflexivity; rewrite Hs.
  - apply Nat.eqb_neq in Hl. unfold legacyParts in Hl. now rewrite Hl.
  - unfold legacyParts in Hin.
    destruct (split "/" hash) as [|a [|b [|c [|d r]]]]; try reflexivity.
    cbn [List.length Nat.eqb List.map].
    destruct Hin as [<-|[<-|[<-|[]]]]; rewrite Hp; cbn [negb andb];
      rewrite ?andb_false_r; reflexivity.
  - rewrite Hm. apply Nat.eqb_neq in Hl. unfold compactParts in Hl. now rewrite Hl.
  - rewrite Hm. unfold compactParts in Hin.
    destruct (split "_" (substringFrom 4 hash)) as [|a [|b [|c [|d r]]]]; try reflexivity.
    cbn [List.length Nat.eqb nth].
    destruct (Number a) eqn:Ea, (Number b) eqn:Eb, (Number c) eqn:Ec;
      rewrite ?num_div_NaN_l; cbn [isNaN negb andb]; rewrite ?andb_false_r;
      try reflexivity;
      destruct Hin as [<-|[<-|[<-|[]]]];
      first [ rewrite Ea in Hp | rewrite Eb in Hp | rewrite Ec in Hp ];
      simpl in Hp; discriminate Hp.
  - now rewrite Hm.
Qed.

(** Whatever the fragment, the position is set as a whole or not at all. *)
Lemma parseHash_all_or_nothing hash :
  parseHash hash MapState.empty = MapState.empty \/
  exists z la ln,
    isNaN z = false /\ isNaN la = false /\ isNaN ln = false /\
    parseHash hash MapState.empty = MapState.setPosition z la ln MapState.empty.
Proof.
  unfold parseHash.
  destruct (truthy hash); [|now left].
  destruct (includes "/" hash).
  - destruct (List.length (split "/" hash) =? 3)%nat; [|now left].
    destruct (List.map Number (split "/" hash)) as [|a [|b [|c [|d r]]]]; try now left.
    destruct (isNaN a) eqn:Ea, (isNaN b) eqn:Eb, (isNaN c) eqn:Ec; try now left.
    right. exists a, b, c. repeat split; assumption.
  - destruct (startsWith "map_" hash); [|now left].
    destruct (List.length (split "_" (substringFrom 4 hash)) =? 3)%nat; [|now left].
    cbv zeta.
    match goal with
    | |- context [if (negb (isNaN ?a) && negb (isNaN ?b) && negb (isNaN ?c))%bool then _ else _] =>
        destruct (isNaN a) eqn:Ea, (isNaN b) eqn:Eb, (isNaN c) eqn:Ec; try (now left);
        right; exists a, b, c; repeat split; assumption
    end.
Qed.

End Malformed.

(** C2, as the code has it.  Decoding is a total function, and a malformed
    fragment (a wrong number of parts in the slash form or in the [map_]
    form, a part of the slash form or of the [map_] form whose number is
    NaN, or neither form) leaves the position entirely absent; without an
    [id] parameter the whole state is empty. *)
Theorem malformed_fragment_is_empty {RT : Runtime} (u : URL) :
  Malformed isNaN (substringFrom 1 (location_hash u)) ->
  MapState.zoom (parseUrlState u) = None /\
  MapState.lat (parseUrlState u) = None /\
  MapState.lng (parseUrlState u) = None /\
  (URLSearchParams.get "id" (URLSearchParams.parse (location_search u)) = None ->
   parseUrlState u = MapState.empty).
Proof.
  intro H.
  destruct (parseUrlState_position u) as (Pz & Pla & Pln).
  rewrite Pz, Pla, Pln, (parseHash_malformed _ _ H).
  repeat split. intro Hid. unfold parseUrlState.
  now rewrite Hid, (parseHash_malformed _ _ H).
Qed.

Lemma malformed_fragment_is_empty_witness :
  let u := {| base := "https://survey.example/"; query := None; fragment := Some "map_1_2" |} in
  @Malformed engine isNaN (substringFrom 1 (location_hash u)) /\
  MapState.zoom (@parseUrlState engine u) = None /\
  MapState.lat (@parseUrlState engine u) = None /\
  MapState.lng (@parseUrlState engine u) = None /\
  (URLSearchParams.get "id" (URLSearchParams.parse (location_search u)) = None ->
   @parseUrlState engine u = MapState.empty).
Proof.
  cbv zeta.
  assert (M : @Malformed engine isNaN
                (substringFrom 1 (location_hash
                   {| base := "https://survey.example/"; query := None;
                      fragment := Some "map_1_2" |}))).
  { apply CompactArity; [reflexivity | reflexivity | vm_compute; discriminate]. }
  split; [exact M|].
  exact (@malformed_fragment_is_empty engine _ M).
Defined.

(** C2, as the claim has it, fails on a part of the slash form that reads as
    an infinity: it is not a finite number, and the position is set. *)
Lemma infinite_legacy_part_counterexample :
  let u := {| base := "https://survey.example/"; query := None;
              fragment := Some "Infinity/1/2" |} in
  @Malformed engine notFinite (substringFrom 1 (location_hash u)) /\
  MapState.zoom (@parseUrlState engine u) = Some (Inf false) /\
  @parseUrlState engine u <> MapState.empty.
Proof.
  cbv zeta. split; [|split].
  - apply (LegacyPart _ _ "Infinity"); [reflexivity | left; reflexivity | reflexivity].
  - reflexivity.
  - vm_compute. discriminate.
Qed.

(** C10.  In the slash form a part that is empty or holds only white space
    reads as the number 0 and passes the NaN check instead of being
    rejected: with three parts, each blank or read as a number that is not
    NaN, the position is set, a blank part giving 0.  The fragment [//]
    gives zoom 0, latitude 0 and longitude 0. *)
Theorem blank_legacy_parts_read_as_zero {RT : Runtime} (a b c : string) (u : URL) :
  fragment u = Some (a ++ "/" ++ b ++ "/" ++ c) ->
  mem "/" a = false -> mem "/" b = false -> mem "/" c = false ->
  (allChars isSpace a || negb (isNaN (Number a)))%bool = true ->
  (allChars isSpace b || negb (isNaN (Number b)))%bool = true ->
  (allChars isSpace c || negb (isNaN (Number c)))%bool = true ->
  MapState.zoom (parseUrlState u) = Some (if allChars isSpace a then Fin 0 else Number a) /\
  MapState.lat (parseUrlState u) = Some (if allChars isSpace b then Fin 0 else Number b) /\
  MapState.lng (parseUrlState u) = Some (if allChars isSpace c then Fin 0 else Number c).
Proof.
  intros Hu Sa Sb Sc Ha Hb Hc.
  assert (Hz : forall s, allChars isSpace s = true -> Number s = Fin 0).
  { intros s Hs. unfold Number. now rewrite (trim_all_space s Hs). }
  assert (Hr : forall s,
             (allChars isSpace s || negb (isNaN (Number s)))%bool = true ->
             isNaN (Number s) = false /\
             (if allChars isSpace s then Fin 0 else Number s) = Number s).
  { intros s Hs. destruct (allChars isSpace s) eqn:E.
    - rewrite (Hz s E). split; reflexivity.
    - simpl in Hs. apply negb_true_iff in Hs. split; [exact Hs | reflexivity]. }
  destruct (Hr a Ha) as [Na ->], (Hr b Hb) as [Nb ->], (Hr c Hc) as [Nc ->].
  destruct (parseUrlState_position u) as (Pz & Pla & Pln).
  rewrite Pz, Pla, Pln. unfold location_hash. rewrite Hu.
  set (hash := a ++ "/" ++ b ++ "/" ++ c).
  assert (Ht : truthy hash = true) by (subst hash; now destruct a).
  rewrite Ht. cbn [substringFrom].
  unfold parseHash. rewrite Ht.
  assert (Hi : includes "/" hash = true).
  { rewrite includes_char. subst hash. rewrite mem_app. simpl. now rewrite orb_true_r. }
  rewrite Hi. subst hash.
  change (a ++ "/" ++ b ++ "/" ++ c) with (a ++ String "/" (b ++ String "/" c)).
  rewrite (split_app "/" a _ Sa), (split_app "/" b _ Sb), (split_no_sep "/" c Sc).
  cbn [List.length Nat.eqb List.map].
  rewrite Na, Nb, Nc. repeat split.
Qed.

Lemma blank_legacy_parts_read_as_zero_witness :
  let u := withFragment "//" in
  fragment u = Some (EmptyString ++ "/" ++ EmptyString ++ "/" ++ EmptyString) /\
  mem "/" EmptyString = false /\
  (allChars isSpace EmptyString || negb (isNaN (@Number engine EmptyString)))%bool = true /\
  MapState.zoom (@parseUrlState engine u) = Some (Fin 0) /\
  MapState.lat (@parseUrlState engine u) = Some (Fin 0) /\
  MapState.lng (@parseUrlState engine u) = Some (Fin 0).
Proof.
  cbv zeta. do 3 (split; [reflexivity|]).
  exact (@blank_legacy_parts_read_as_zero engine EmptyString EmptyString EmptyString
           (withFragment "//") eq_refl eq_refl eq_refl eq_refl eq_refl eq_refl eq_refl).
Defined.

(** ** The examples of the specification for the fragment *)

(** A legacy link and the compact link of the same view decode to the same
    position: zoom 15 and the doubles nearest to 40.7128 and -74.006. *)
Example legacy_and_compact_links_agree :
  let literal :=
    MapState.setPosition (Fin 15) (@fl engine 40.7128) (@fl engine (-74.006)) MapState.empty in
  samePosition (@parseUrlState engine (withFragment "15/40.71280/-74.00600")) literal = true /\
  samePosition (@parseUrlState engine (withFragment "map_15_4071280_-7400600")) literal = true.
Proof. split; vm_compute; reflexivity. Qed.

Example malformed_fragments_decode_to_nothing :
  @parseUrlState engine (withFragment "garbage") = MapState.empty /\
  @parseUrlState engine (withFragment "map_1_2") = MapState.empty /\
  @parseUrlState engine (withFragment "1/2") = MapState.empty.
Proof. repeat split. Qed.

(** ** Letter case *)

Lemma ascii_eqb_N (a b : ascii) : Ascii.eqb a b = (N_of_ascii a =? N_of_ascii b)%N.
Proof.
  destruct (Ascii.eqb_spec a b) as [->|H].
  - now rewrite N.eqb_refl.
  - symmetry. apply N.eqb_neq. intro E. apply H.
    rewrite <- (ascii_N_embedding a), <- (ascii_N_embedding b). now rewrite E.
Qed.

Lemma N_of_lowerChar (c : ascii) :
  N_of_ascii (lowerChar c)
  = (if ((65 <=? N_of_ascii c) && (N_of_ascii c <=? 90))%N
     then N_of_ascii c + 32 else N_of_ascii c)%N.
Proof.
  unfold lowerChar. destruct ((65 <=? N_of_ascii c) && (N_of_ascii c <=? 90))%N eqn:E;
    [|reflexivity].
  apply andb_true_iff in E as [_ E]. apply N.leb_le in E.
  apply N_ascii_embedding. lia.
Qed.

(** Two characters have the same lower-case form exactly when they are the
    same letter. *)
Lemma sameLetter_lowerChar (c d : ascii) :
  Ascii.eqb (lowerChar c) (lowerChar d) = sameLetter c d.
Proof.
  rewrite ascii_eqb_N, !N_of_lowerChar. unfold sameLetter.
  generalize (N_of_ascii c) (N_of_ascii d). intros m n.
  destruct (N.leb_spec 65 m), (N.leb_spec m 90), (N.leb_spec 65 n), (N.leb_spec n 90);
    cbn [andb];
    repeat match goal with
           | |- context [(?a =? ?b)%N] => destruct (N.eqb_spec a b)
           end; cbn [andb orb]; first [reflexivity | exfalso; lia].
Qed.

Lemma equalIgnoringCase_toLowerCase (a b : string) :
  String.eqb (toLowerCase a) (toLowerCase b) = equalIgnoringCase a b.
Proof.
  revert b. induction a as [|c a IH]; intros [|d b]; simpl; try reflexivity.
  now rewrite sameLetter_lowerChar, IH.
Qed.

Lemma startsWithIgnoringCase_toLowerCase (q s : string) :
  String.prefix (toLowerCase q) (toLowerCase s) = startsWithIgnoringCase q s.
Proof.
  revert s. induction q as [|c q IH]; intros [|d s]; simpl; try reflexivity.
  rewrite <- sameLetter_lowerChar, <- IH.
  destruct (ascii_dec (lowerChar c) (lowerChar d)) as [E|E].
  - rewrite E, Ascii.eqb_refl. reflexivity.
  - apply Ascii.eqb_neq in E. now rewrite E.
Qed.

Lemma includesIgnoringCase_toLowerCase (q s : string) :
  includes (toLowerCase q) (toLowerCase s) = includesIgnoringCase q s.
Proof.
  induction s as [|d s IH].
  - cbn [toLowerCase includes includesIgnoringCase].
    now rewrite <- (startsWithIgnoringCase_toLowerCase q EmptyString).
  - cbn [includes includesIgnoringCase]. rewrite <- IH.
    rewrite <- (startsWithIgnoringCase_toLowerCase q (String d s)). reflexivity.
Qed.

(** ** Exact lookup *)

(** What the callback of the lookup answers on a point. *)
Lemma sameCellId_eq (cellId : string) (p : SurveyPoint JSON) :
  sameCellId cellId p
  = match cellIdText p with
    | Some s => Ok (matchesExactly cellId p)
    | None => Throw TypeError
    end.
Proof.
  unfold sameCellId, matchesExactly, cellIdText, JS.toLowerCaseOf.
  destruct (cell_id p); try reflexivity.
  now rewrite equalIgnoringCase_toLowerCase.
Qed.

Lemma sameCellId_lower (cellId : string) (p : SurveyPoint JSON) (s : string) :
  cell_id p = JString s ->
  sameCellId cellId p = Ok (String.eqb (toLowerCase s) (toLowerCase cellId)).
Proof. intro E. unfold sameCellId, JS.toLowerCaseOf. now rewrite E. Qed.

(** The lookup, read off the list: the points before the one it stops at
    have a text for cell identifier and do not match; it stops at the first
    point that matches, or throws at the first point whose cell identifier
    is not a text. *)
Lemma find_sameCellId (cellId : string) (points : list (SurveyPoint JSON)) :
  exists i : nat,
    (forall (j : nat) (p' : SurveyPoint JSON),
        (j < i)%nat -> nth_error points j = Some p' ->
        cellIdText p' <> None /\ matchesExactly cellId p' = false) /\
    match JS.find (sameCellId cellId) points with
    | Ok (Some p) => nth_error points i = Some p /\ matchesExactly cellId p = true
    | Ok None => i = List.length points
    | Throw e => e = TypeError /\ exists p, nth_error points i = Some p /\ cellIdText p = None
    end.
Proof.
  induction points as [|x l (i & Hbefore & Hi)].
  - exists 0%nat. split; [intros j p' Hj; lia | reflexivity].
  - cbn [JS.find]. rewrite sameCellId_eq.
    destruct (cellIdText x) as [s|] eqn:Es.
    + destruct (matchesExactly cellId x) eqn:Em.
      * exists 0%nat. split; [intros j p' Hj; lia | now split].
      * exists (S i). split.
        -- intros [|j] p' Hj Hp'.
           ++ injection Hp' as <-. split; [congruence | exact Em].
           ++ apply (Hbefore j p'); [lia | exact Hp'].
        -- destruct (JS.find (sameCellId cellId) l) as [[p|]|e]; cbn [nth_error List.length];
             [exact Hi | now f_equal | exact Hi].
    + exists 0%nat. split; [intros j p' Hj; lia|]. split; [reflexivity|]. now exists x.
Qed.

(** C4.  Exact lookup, for ASCII text.  The lookup goes through the points in
    index order.  It returns the first point whose cell identifier is the
    query up to letter case, provided every point before it has a text for
    cell identifier; it returns none when every point has a text for cell
    identifier and none matches; and it throws a TypeError at the first
    point whose cell identifier is not a text, when no point before it
    matches.  [searchAndFlyTo] answers with that lookup (and flies to the
    point found when the widget is there). *)
Theorem exact_lookup_first_match (cellId : string) (mc : MapContainer) :
  isAscii cellId = true ->
  (forall (p : SurveyPoint JSON) (s : string),
      In p (surveyPoints mc) -> cell_id p = JString s -> isAscii s = true) ->
  exists i : nat,
    (forall (j : nat) (p' : SurveyPoint JSON),
        (j < i)%nat -> nth_error (surveyPoints mc) j = Some p' ->
        cellIdText p' <> None /\ matchesExactly cellId p' = false) /\
    match JS.find (sameCellId cellId) (surveyPoints mc) with
    | Ok (Some p) =>
        nth_error (surveyPoints mc) i = Some p /\ matchesExactly cellId p = true /\
        searchAndFlyTo cellId mc
        = Ok (if mapReady mc
              then (true,
                    {| surveyPoints := surveyPoints mc;
                       mapReady := mapReady mc;
                       commands := commands mc ++
                                   [FlyTo (lat p) (lng p) 16 (12 # 10);
                                    Highlight 1200 (lat p) (lng p) 1800] |})
              else (false, mc))
    | Ok None =>
        i = List.length (surveyPoints mc) /\
        searchAndFlyTo cellId mc = Ok (false, mc)
    | Throw e =>
        e = TypeError /\
        (exists p, nth_error (surveyPoints mc) i = Some p /\ cellIdText p = None) /\
        searchAndFlyTo cellId mc = Throw TypeError
    end.
Proof.
  intros _ _. destruct (find_sameCellId cellId (surveyPoints mc)) as (i & Hbefore & Hi).
  exists i. split; [exact Hbefore|]. unfold searchAndFlyTo.
  destruct (JS.find (sameCellId cellId) (surveyPoints mc)) as [[p|]|e].
  - destruct Hi as [Hn Hm]. split; [exact Hn|]. split; [exact Hm|].
    now destruct (mapReady mc).
  - now split.
  - destruct Hi as [-> Hp]. now repeat split.
Qed.

Lemma exact_lookup_first_match_witness :
  let p := {| id := "point_1"; lat := Fin 40.7128; lng := Fin (-74.006);
              cell_id := JString "A23" |} in
  let other := {| id := "point_0"; lat := Fin 1; lng := Fin 2; cell_id := JString "B2" |} in
  let mc := {| surveyPoints := [other; p]; mapReady := true; commands := [] |} in
  isAscii "a23" = true /\
  (forall (q : SurveyPoint JSON) (s : string),
      In q (surveyPoints mc) -> cell_id q = JString s -> isAscii s = true) /\
  JS.find (sameCellId "a23") (surveyPoints mc) = Ok (Some p) /\
  exists i : nat,
    (forall (j : nat) (p' : SurveyPoint JSON),
        (j < i)%nat -> nth_error (surveyPoints mc) j = Some p' ->
        cellIdText p' <> None /\ matchesExactly "a23" p' = false) /\
    match JS.find (sameCellId "a23") (surveyPoints mc) with
    | Ok (Some p) =>
        nth_error (surveyPoints mc) i = Some p /\ matchesExactly "a23" p = true /\
        searchAndFlyTo "a23" mc
        = Ok (if mapReady mc
              then (true,
                    {| surveyPoints := surveyPoints mc;
                       mapReady := mapReady mc;
                       commands := commands mc ++
                                   [FlyTo (lat p) (lng p) 16 (12 # 10);
                                    Highlight 1200 (lat p) (lng p) 1800] |})
              else (false, mc))
    | Ok None =>
        i = List.length (surveyPoints mc) /\
        searchAndFlyTo "a23" mc = Ok (false, mc)
    | Throw e =>
        e = TypeError /\
        (exists p, nth_error (surveyPoints mc) i = Some p /\ cellIdText p = None) /\
        searchAndFlyTo "a23" mc = Throw TypeError
    end.
Proof.
  cbv zeta.
  assert (A : forall (q : SurveyPoint JSON) (s : string),
             In q [ {| id := "point_0"; lat := Fin 1; lng := Fin 2; cell_id := JString "B2" |};
                    {| id := "point_1"; lat := Fin 40.7128; lng := Fin (-74.006);
                       cell_id := JString "A23" |} ] ->
             cell_id q = JString s -> isAscii s = true).
  { intros q s [<-|[<-|[]]] E; injection E as <-; reflexivity. }
  split; [reflexivity|]. split; [exact A|]. split; [reflexivity|].
  exact (exact_lookup_first_match "a23"
           {| surveyPoints :=
                [ {| id := "point_0"; lat := Fin 1; lng := Fin 2; cell_id := JString "B2" |};
                  {| id := "point_1"; lat := Fin 40.7128; lng := Fin (-74.006);
                     cell_id := JString "A23" |} ];
              mapReady := true; commands := [] |} eq_refl A).
Defined.

(** The claim as it is written fails on a dataset that the loader accepts: a
    record whose [cell_id] is the number 23 comes before the record [A23];
    the lookup of [A23] throws and does not return the point that matches. *)
Lemma exact_lookup_counterexample :
  let coordinates := JArray [JNumber (Fin 46.6753); JNumber (Fin 24.7136)] in
  let n := {| id := "point_0"; lat := Fin 24.7136; lng := Fin 46.6753;
              cell_id := JNumber (Fin 23) |} in
  let p := {| id := "point_1"; lat := Fin 24.7136; lng := Fin 46.6753;
              cell_id := JString "A23" |} in
  let mc := {| surveyPoints := [n; p]; mapReady := true; commands := [] |} in
  pointsOfGeoJSON
    (featureCollection [featureWithId (JNumber (Fin 23)) coordinates; feature "A23" coordinates])
  = Ok [n; p] /\
  matchesExactly "A23" p = true /\
  JS.find (sameCellId "A23") (surveyPoints mc) = Throw TypeError /\
  JS.find (sameCellId "A23") (surveyPoints mc) <> Ok (Some p) /\
  searchAndFlyTo "A23" mc = Throw TypeError.
Proof. cbv zeta. repeat split. discriminate. Qed.

(** The example of the specification: [a23] finds the point [A23]. *)
Example exact_lookup_ignores_case :
  let p := {| id := "point_1"; lat := Fin 40.7128; lng := Fin (-74.006);
              cell_id := JString "A23" |} in
  let other := {| id := "point_0"; lat := Fin 1; lng := Fin 2; cell_id := JString "B2" |} in
  JS.find (sameCellId "a23") [other; p] = Ok (Some p).
Proof. reflexivity. Qed.

(** ** The order of strings *)

Lemma string_leb_trans (a b c : string) :
  String.leb a b = true -> String.leb b c = true -> String.leb a c = true.
Proof.
  unfold String.leb. revert b c.
  induction a as [|x a IH]; intros [|y b] [|z c]; simpl; try congruence.
  unfold Ascii.compare.
  destruct (N.compare_spec (N_of_ascii x) (N_of_ascii y)) as [Exy|Lxy|Gxy];
    destruct (N.compare_spec (N_of_ascii y) (N_of_ascii z)) as [Eyz|Lyz|Gyz];
    destruct (N.compare_spec (N_of_ascii x) (N_of_ascii z)) as [Exz|Lxz|Gxz];
    try congruence; try lia.
  apply IH.
Qed.

Lemma string_leb_transitive : Transitive (fun x y : string => is_true (StringOrder.leb x y)).
Proof. intros a b c. apply string_leb_trans. Qed.

(** ** Substrings *)

Lemma prefix_iff (p s : string) :
  String.prefix p s = true <-> exists post, s = p ++ post.
Proof.
  revert s. induction p as [|c p IH]; intros s; simpl.
  - split; [intros _; now exists s | intros _; now destruct s].
  - destruct s as [|d s]; [split; [discriminate | intros (post & H); discriminate H]|].
    simpl. destruct (ascii_dec c d) as [->|Hne].
    + rewrite IH. split; intros (post & H); exists post; [now rewrite H | now injection H].
    + split; [discriminate | intros (post & H); injection H as -> _; now elim Hne].
Qed.

Lemma includes_iff (p s : string) :
  includes p s = true <-> exists pre post, s = pre ++ p ++ post.
Proof.
  induction s as [|d s IH]; cbn [includes].
  - rewrite orb_false_r, prefix_iff. split.
    + intros (post & H). now exists EmptyString, post.
    + intros ([|c pre] & post & H); [now exists post | discriminate H].
  - rewrite orb_true_iff, IH, (prefix_iff p (String d s)). split.
    + intros [(post & H) | (pre & post & H)].
      * now exists EmptyString, post.
      * exists (String d pre), post. now rewrite H.
    + intros ([|c pre] & post & H).
      * left. now exists post.
      * right. injection H as _ H. now exists pre, post.
Qed.

(** ** Trimming twice *)

Lemma trimEnd_idem s : trimEnd (trimEnd s) = trimEnd s.
Proof.
  induction s as [|c s IH]; [reflexivity|].
  simpl. destruct (trimEnd s) as [|d r] eqn:E.
  - destruct (isSpace c) eqn:Hc; [reflexivity|]. simpl. now rewrite Hc.
  - cbn [trimEnd] in IH |- *. fold (trimEnd (String d r)). now rewrite IH.
Qed.

Lemma trimEnd_head c s :
  isSpace c = false -> exists r, trimEnd (String c s) = String c r.
Proof.
  intro Hc. simpl. destruct (trimEnd s) as [|d r].
  - rewrite Hc. now exists EmptyString.
  - now exists (String d r).
Qed.

Lemma trimStart_head s :
  trimStart s = EmptyString \/ exists c r, trimStart s = String c r /\ isSpace c = false.
Proof.
  induction s as [|c s IH]; [now left|].
  simpl. destruct (isSpace c) eqn:Hc; [exact IH|].
  right. now exists c, s.
Qed.

Lemma trim_idem s : trim (trim s) = trim s.
Proof.
  unfold trim. destruct (trimStart_head s) as [E | (c & r & E & Hc)]; rewrite E.
  - reflexivity.
  - destruct (trimEnd_head c r Hc) as (r' & E').
    rewrite E'. cbn [trimStart]. rewrite Hc, <- E'. apply trimEnd_idem.
Qed.

(** ** Suggestions *)

(** A text is blank for [trim] exactly when it holds white space only. *)
Lemma truthy_trim (s : string) : truthy (trim s) = negb (allChars isSpace s).
Proof.
  destruct (allChars isSpace s) eqn:E.
  - now rewrite (trim_all_space s E).
  - cbn [negb]. unfold trim.
    induction s as [|c s IH]; [discriminate E|].
    simpl in E |- *. destruct (isSpace c) eqn:Hc.
    + apply IH. exact E.
    + destruct (trimEnd_head c s Hc) as [r ->]. reflexivity.
Qed.

(** What the callback of the filter answers on a point. *)
Lemma cellIdIncludes_eq (query : string) (p : SurveyPoint JSON) :
  cellIdIncludes (toLowerCase query) p
  = match cellIdText p with
    | Some s => Ok (matchesInside query p)
    | None => Throw TypeError
    end.
Proof.
  unfold cellIdIncludes, matchesInside, cellIdText, JS.toLowerCaseOf.
  destruct (cell_id p); try reflexivity.
  now rewrite includesIgnoringCase_toLowerCase.
Qed.

(** The filter goes through every point: it throws when one of them has a
    cell identifier that is not a text, and keeps the matching points
    otherwise. *)
Lemma filter_cellIdIncludes (query : string) (points : list (SurveyPoint JSON)) :
  match JS.filter (cellIdIncludes (toLowerCase query)) points with
  | Ok kept =>
      (forall p, In p points -> cellIdText p <> None) /\
      kept = List.filter (matchesInside query) points
  | Throw e =>
      e = TypeError /\ exists p, In p points /\ cellIdText p = None
  end.
Proof.
  induction points as [|x l IH]; [now split|].
  cbn [JS.filter]. rewrite cellIdIncludes_eq.
  destruct (cellIdText x) as [s|] eqn:Es.
  - destruct (JS.filter (cellIdIncludes (toLowerCase query)) l) as [kept|e].
    + destruct IH as [Ht ->]. split.
      * intros p [<-|Hp]; [congruence | now apply Ht].
      * reflexivity.
    + destruct IH as [-> (p & Hp & Hn)]. split; [reflexivity|].
      exists p. split; [now right | exact Hn].
  - split; [reflexivity|]. exists x. split; [now left | exact Es].
Qed.

Lemma getSuggestions_of_texts (query : string) (mc : MapContainer) :
  (forall p, In p (surveyPoints mc) -> cellIdText p <> None) ->
  getSuggestions query mc
  = Ok (if allChars isSpace query then []
        else StringSort.sort
               (List.map (fun p => JS.stringOf (cell_id p))
                  (List.filter (matchesInside query) (surveyPoints mc)))).
Proof.
  intro Ht. unfold getSuggestions. rewrite truthy_trim, negb_involutive.
  destruct (allChars isSpace query); [reflexivity|]. cbv zeta.
  pose proof (filter_cellIdIncludes query (surveyPoints mc)) as F.
  destruct (JS.filter _ _) as [kept|e].
  - destruct F as [_ ->]. reflexivity.
  - destruct F as [_ (p & Hp & Hn)]. now elim (Ht p Hp).
Qed.

(** The members of a list of suggestions that was returned. *)
Lemma In_getSuggestions (s query : string) (mc : MapContainer) (all : list string) :
  getSuggestions query mc = Ok all ->
  (In s all <->
   allChars isSpace query = false /\
   exists p : SurveyPoint JSON,
     In p (surveyPoints mc) /\ cell_id p = JString s /\ matchesInside query p = true) /\
  (allChars isSpace query = false -> forall p, In p (surveyPoints mc) -> cellIdText p <> None).
Proof.
  unfold getSuggestions. rewrite truthy_trim, negb_involutive.
  destruct (allChars isSpace query).
  - intro H. injection H as <-. split; [|discriminate].
    split; [intros [] | intros [H _]; discriminate H].
  - cbv zeta. pose proof (filter_cellIdIncludes query (surveyPoints mc)) as F.
    destruct (JS.filter _ _) as [kept|e]; [|discriminate].
    destruct F as [Ht ->]. intro H. injection H as <-. split; [|intros _; exact Ht].
    split.
    + intro H. split; [reflexivity|].
      apply (Permutation_in _ (Permutation_sym (StringSort.Permuted_sort _))) in H.
      apply in_map_iff in H as (p & E & Hp). apply filter_In in Hp as [Hp Hm].
      exists p. split; [exact Hp|]. split; [|exact Hm].
      specialize (Ht p Hp). unfold cellIdText in Ht.
      destruct (cell_id p); try (now elim Ht). simpl in E. now rewrite E.
    + intros (_ & p & Hp & E & Hm).
      apply (Permutation_in _ (StringSort.Permuted_sort _)).
      apply in_map_iff. exists p. split; [now rewrite E|]. apply filter_In. now split.
Qed.

Lemma asciiCellId_text (p : SurveyPoint JSON) : asciiCellId p = true -> cellIdText p <> None.
Proof. unfold asciiCellId. now destruct (cellIdText p). Qed.

Lemma pageGetSuggestions_of_texts (pg : Page) (query : string) :
  (forall p, In p (loadedPoints pg) -> cellIdText p <> None) ->
  pageGetSuggestions pg query
  = Ok (if allChars isSpace query then []
        else StringSort.sort
               (List.map (fun p => JS.stringOf (cell_id p))
                  (List.filter (matchesInside query) (loadedPoints pg)))).
Proof.
  unfold pageGetSuggestions, loadedPoints. destruct (mapRef pg) as [mc|].
  - apply getSuggestions_of_texts.
  - intros _. now destruct (allChars isSpace query).
Qed.

(** C5.  Suggestions, for ASCII text and a dataset whose cell identifiers are
    all texts.  For every query the suggestion operation returns the cell
    identifiers of exactly the points whose cell identifier holds the query
    up to letter case, in ascending lexicographic order; a query that is
    empty or only white space yields no suggestion; and the search box shows
    the first five suggestions for the trimmed text of its input. *)
Theorem suggestions_sorted_matches (query value : string) (pg : Page) (box : SearchBox) :
  isAscii query = true ->
  (forall p, In p (loadedPoints pg) -> asciiCellId p = true) ->
  exists (all forValue : list string) (box' : SearchBox),
    pageGetSuggestions pg query = Ok all /\
    (if allChars isSpace query then all = []
     else Permutation all
            (List.map (fun p => JS.stringOf (cell_id p))
               (List.filter (matchesInside query) (loadedPoints pg)))) /\
    StronglySorted (fun a b : string => String.leb a b = true) all /\
    (forall s : string,
        In s all <->
        allChars isSpace query = false /\
        exists p : SurveyPoint JSON,
          In p (loadedPoints pg) /\ cell_id p = JString s /\
          includesIgnoringCase query s = true) /\
    pageGetSuggestions pg (trim value) = Ok forValue /\
    handleInputChange (pageGetSuggestions pg) value box = (box', None) /\
    searchQuery box' = value /\
    suggestions box' = firstn 5 forValue /\
    (List.length (suggestions box') <= 5)%nat.
Proof.
  intros _ Ha.
  assert (Ht : forall p, In p (loadedPoints pg) -> cellIdText p <> None)
    by (intros p Hp; apply asciiCellId_text, Ha, Hp).
  pose proof (pageGetSuggestions_of_texts pg query Ht) as Eq.
  pose proof (pageGetSuggestions_of_texts pg (trim value) Ht) as Ev.
  set (matches := List.map (fun p => JS.stringOf (cell_id p))
                    (List.filter (matchesInside query) (loadedPoints pg))) in *.
  assert (Hin : forall s, In s matches <->
            exists p : SurveyPoint JSON,
              In p (loadedPoints pg) /\ cell_id p = JString s /\
              includesIgnoringCase query s = true).
  { intro s. unfold matches. rewrite in_map_iff. split.
    - intros (p & E & Hp). apply filter_In in Hp as [Hp Hm].
      exists p. split; [exact Hp|]. unfold matchesInside, cellIdText in Hm.
      destruct (cell_id p); try discriminate Hm. simpl in E. subst s. now split.
    - intros (p & Hp & E & Hm). exists p. split; [now rewrite E|].
      apply filter_In. split; [exact Hp|]. unfold matchesInside, cellIdText. now rewrite E. }
  assert (B : exists box' : SearchBox,
             handleInputChange (pageGetSuggestions pg) value box = (box', None) /\
             searchQuery box' = value /\
             suggestions box'
             = firstn 5 (if allChars isSpace (trim value) then []
                         else StringSort.sort
                                (List.map (fun p => JS.stringOf (cell_id p))
                                   (List.filter (matchesInside (trim value))
                                      (loadedPoints pg)))) /\
             (List.length (suggestions box') <= 5)%nat).
  { unfold handleInputChange. rewrite Ev, truthy_trim.
    destruct (allChars isSpace value) eqn:Es; cbn [negb].
    - eexists. split; [reflexivity|]. rewrite (trim_all_space value Es).
      cbn. split; [reflexivity|]. split; [reflexivity | lia].
    - eexists. split; [reflexivity|]. cbn [searchQuery suggestions].
      split; [reflexivity|]. split; [reflexivity|]. rewrite length_firstn. lia. }
  destruct B as (box' & B1 & B2 & B3 & B4).
  eexists _, _, box'. split; [exact Eq|].
  split; [|split; [|split; [|split; [exact Ev|now repeat split]]]].
  - destruct (allChars isSpace query); [reflexivity|].
    apply Permutation_sym, StringSort.Permuted_sort.
  - destruct (allChars isSpace query); [constructor|].
    apply StringSort.StronglySorted_sort, string_leb_transitive.
  - intro s. destruct (allChars isSpace query).
    + split; [intros [] | intros [H _]; discriminate H].
    + rewrite <- Hin. split.
      * intro H. split; [reflexivity|].
        eapply Permutation_in; [apply Permutation_sym, StringSort.Permuted_sort | exact H].
      * intros [_ H]. eapply Permutation_in; [apply StringSort.Permuted_sort | exact H].
Qed.

Lemma suggestions_sorted_matches_witness :
  let box := {| searchQuery := EmptyString; suggestions := []; showSuggestions := false |} in
  isAscii "a" = true /\
  (forall p, In p (loadedPoints examplePage) -> asciiCellId p = true) /\
  exists (all forValue : list string) (box' : SearchBox),
    pageGetSuggestions examplePage "a" = Ok all /\
    (if allChars isSpace "a" then all = []
     else Permutation all
            (List.map (fun p => JS.stringOf (cell_id p))
               (List.filter (matchesInside "a") (loadedPoints examplePage)))) /\
    StronglySorted (fun a b : string => String.leb a b = true) all /\
    (forall s : string,
        In s all <->
        allChars isSpace "a" = false /\
        exists p : SurveyPoint JSON,
          In p (loadedPoints examplePage) /\ cell_id p = JString s /\
          includesIgnoringCase "a" s = true) /\
    pageGetSuggestions examplePage (trim " a2 ") = Ok forValue /\
    handleInputChange (pageGetSuggestions examplePage) " a2 " box = (box', None) /\
    searchQuery box' = " a2 " /\
    suggestions box' = firstn 5 forValue /\
    (List.length (suggestions box') <= 5)%nat.
Proof.
  cbv zeta.
  assert (A : forall p, In p (loadedPoints examplePage) -> asciiCellId p = true).
  { intros p [<-|[]]. reflexivity. }
  split; [reflexivity|]. split; [exact A|].
  exact (suggestions_sorted_matches "a" " a2 " examplePage
           {| searchQuery := EmptyString; suggestions := []; showSuggestions := false |}
           eq_refl A).
Defined.

(** The claim as it is written fails on a dataset that the loader accepts:
    with a record whose [cell_id] is the number 23 beside the record [A23],
    the suggestions for [a] are not [A23]: the operation throws, and so does
    the handler of the search box. *)
Lemma suggestions_counterexample :
  let coordinates := JArray [JNumber (Fin 46.6753); JNumber (Fin 24.7136)] in
  let n := {| id := "point_0"; lat := Fin 24.7136; lng := Fin 46.6753;
              cell_id := JNumber (Fin 23) |} in
  let p := {| id := "point_1"; lat := Fin 24.7136; lng := Fin 46.6753;
              cell_id := JString "A23" |} in
  let pg := {| isSearching := false; searchError := None;
               mapRef := Some {| surveyPoints := [n; p]; mapReady := true; commands := [] |};
               location := exampleUrl |} in
  let box := {| searchQuery := EmptyString; suggestions := []; showSuggestions := false |} in
  pointsOfGeoJSON
    (featureCollection [featureWithId (JNumber (Fin 23)) coordinates; feature "A23" coordinates])
  = Ok [n; p] /\
  matchesInside "a" p = true /\
  pageGetSuggestions pg "a" = Throw TypeError /\
  pageGetSuggestions pg "a" <> Ok ["A23"] /\
  handleInputChange (pageGetSuggestions pg) "a" box
  = ({| searchQuery := "a"; suggestions := []; showSuggestions := false |}, Some TypeError).
Proof. cbv zeta. repeat split. discriminate. Qed.

(** The example of the specification: among [B2], [A23] and [A1] the query
    [a] suggests [A1] then [A23]. *)
Example suggestions_example :
  let pt := fun c => {| id := "point"; lat := Fin 1; lng := Fin 2; cell_id := JString c |} in
  let mc := {| surveyPoints := [pt "B2"; pt "A23"; pt "A1"]; mapReady := true; commands := [] |} in
  getSuggestions "a" mc = Ok ["A1"; "A23"] /\ getSuggestions "  " mc = Ok [].
Proof. split; reflexivity. Qed.

(** ** Query parameters: writing and reading back *)

Lemma string_app_assoc (a b c : string) : (a ++ b) ++ c = a ++ (b ++ c).
Proof. induction a as [|x a IH]; simpl; [reflexivity | now rewrite IH]. Qed.

Module URLSearchParamsFacts.
Import URLSearchParams.

Lemma encodeComponent_cons c r :
  encodeComponent (String c r) = encodeComponent (String c EmptyString) ++ encodeComponent r.
Proof.
  cbn [encodeComponent].
  destruct (unreserved c); [reflexivity|].
  destruct (Ascii.eqb c " "); reflexivity.
Qed.

Lemma encodeComponent_char_plain c :
  allChars plainChar (encodeComponent (String c EmptyString)) = true.
Proof. destruct c as [[] [] [] [] [] [] [] []]; reflexivity. Qed.

Lemma encodeComponent_plain s : allChars plainChar (encodeComponent s) = true.
Proof.
  induction s as [|c s IH]; [reflexivity|].
  rewrite encodeComponent_cons, allChars_app, encodeComponent_char_plain, IH. reflexivity.
Qed.

Lemma encodeComponent_no_amp s : mem "&" (encodeComponent s) = false.
Proof. apply (allChars_mem plainChar); [apply encodeComponent_plain | reflexivity]. Qed.

Lemma encodeComponent_no_eq s : mem "=" (encodeComponent s) = false.
Proof. apply (allChars_mem plainChar); [apply encodeComponent_plain | reflexivity]. Qed.

Lemma decode_encode_cons c r :
  decodeComponent (encodeComponent (String c r))
  = String c (decodeComponent (encodeComponent r)).
Proof. destruct c as [[] [] [] [] [] [] [] []]; reflexivity. Qed.

Lemma decode_encode s : decodeComponent (encodeComponent s) = s.
Proof.
  induction s as [|c s IH]; [reflexivity|].
  now rewrite decode_encode_cons, IH.
Qed.

Lemma cutAtEq_app a b : mem "=" a = false -> cutAtEq (a ++ String "=" b) = (a, b).
Proof.
  induction a as [|c a IH]; simpl; intro H; [reflexivity|].
  apply orb_false_iff in H as [Hc Ha]. now rewrite Hc, (IH Ha).
Qed.

Lemma pairText_truthy p : truthy (pairText p) = true.
Proof. unfold pairText. now destruct (encodeComponent (fst p)). Qed.

Lemma pairText_no_amp p : mem "&" (pairText p) = false.
Proof.
  unfold pairText. rewrite mem_app. cbn [mem].
  now rewrite !encodeComponent_no_amp.
Qed.

Lemma serialize_cons p q r :
  serialize (p :: q :: r) = pairText p ++ String "&" (serialize (q :: r)).
Proof.
  destruct p as [n v]. cbn [serialize]. unfold pairText. cbn [fst snd].
  rewrite string_app_assoc. reflexivity.
Qed.

Lemma serialize_single p : serialize [p] = pairText p.
Proof. now destruct p. Qed.

Lemma parsePairs_pairText p l :
  parsePairs (pairText p :: l) = p :: parsePairs l.
Proof.
  cbn [parsePairs]. rewrite pairText_truthy. unfold pairText.
  rewrite (cutAtEq_app _ _ (encodeComponent_no_eq (fst p))), !decode_encode.
  now destruct p.
Qed.

(** Reading a serialised list gives the list back. *)
Lemma parse_serialize (l : t) : parseUrlencoded (serialize l) = l.
Proof.
  unfold parseUrlencoded. induction l as [|p l IH]; [reflexivity|].
  destruct l as [|q r].
  - rewrite serialize_single, (split_no_sep "&" _ (pairText_no_amp p)).
    now rewrite parsePairs_pairText.
  - rewrite serialize_cons, (split_app "&" _ _ (pairText_no_amp p)).
    now rewrite parsePairs_pairText, IH.
Qed.

Lemma serialize_truthy p l : truthy (serialize (p :: l)) = true.
Proof.
  destruct l as [|q r].
  - rewrite serialize_single. apply pairText_truthy.
  - rewrite serialize_cons. pose proof (pairText_truthy p) as H.
    now destruct (pairText p).
Qed.

Lemma get_set name value l : get name (set name value l) = Some value.
Proof.
  induction l as [|[n v] l IH]; simpl.
  - now rewrite String.eqb_refl.
  - destruct (String.eqb n name) eqn:E; simpl; now rewrite E.
Qed.

Lemma set_not_nil name value l : set name value l <> [].
Proof.
  destruct l as [|[n v] l]; simpl; [discriminate|].
  destruct (String.eqb n name); discriminate.
Qed.

Lemma get_delete name l : get name (delete name l) = None.
Proof.
  unfold delete. induction l as [|[n v] l IH]; simpl; [reflexivity|].
  destruct (String.eqb n name) eqn:E; simpl; [exact IH | now rewrite E].
Qed.

End URLSearchParamsFacts.
Import URLSearchParamsFacts.

(** After [searchParams.set("id", v)] the query reads back [v]. *)
Lemma get_after_set (v : string) (u : URL) :
  URLSearchParams.get "id"
    (URLSearchParams.parse
       (location_search (update_searchParams (URLSearchParams.set "id" v) u)))
  = Some v.
Proof.
  unfold update_searchParams, location_search. cbn [query].
  set (l := URLSearchParams.set "id" v _).
  assert (Hl : l <> []) by apply set_not_nil.
  destruct l as [|p r] eqn:E; [now elim Hl|].
  rewrite serialize_truthy. cbv beta iota. rewrite serialize_truthy.
  change (URLSearchParams.parse (String "?" ?s)) with (URLSearchParams.parseUrlencoded s).
  rewrite parse_serialize, <- E. apply get_set.
Qed.

(** After [searchParams.delete("id")] the query holds no [id]. *)
Lemma get_after_delete (u : URL) :
  URLSearchParams.get "id"
    (URLSearchParams.parse
       (location_search (update_searchParams (URLSearchParams.delete "id") u)))
  = None.
Proof.
  unfold update_searchParams, location_search. cbn [query].
  set (l := URLSearchParams.delete "id" _).
  assert (G : URLSearchParams.get "id" l = None) by apply get_delete.
  destruct l as [|p r] eqn:E; [reflexivity|].
  rewrite serialize_truthy. cbv beta iota. rewrite serialize_truthy.
  change (URLSearchParams.parse (String "?" ?s)) with (URLSearchParams.parseUrlencoded s).
  now rewrite parse_serialize.
Qed.

Section CellId.
Context {RT : Runtime}.

Lemma cellId_parseHash hash st : MapState.cellId (parseHash hash st) = MapState.cellId st.
Proof.
  unfold parseHash.
  repeat match goal with
         | |- context [if ?b then _ else _] => destruct b
         | |- context [match ?l with [] => _ | _ :: _ => _ end] => destruct l
         end; reflexivity.
Qed.

(** The cell id that [parseUrlState] returns. *)
Lemma parseUrlState_cellId (u : URL) :
  MapState.cellId (parseUrlState u) =
  match URLSearchParams.get "id" (URLSearchParams.parse (location_search u)) with
  | Some c => if truthy c then Some (trim c) else None
  | None => None
  end.
Proof.
  unfold parseUrlState.
  destruct (URLSearchParams.get "id" _) as [c|].
  - destruct (truthy c); [reflexivity | apply cellId_parseHash].
  - apply cellId_parseHash.
Qed.

End CellId.

(** ** Search from the page *)

(** The lookup when no text among the cell identifiers matches: none, or an
    exception at a cell identifier that is not a text. *)
Lemma find_of_no_match (cellId : string) (points : list (SurveyPoint JSON)) :
  (forall p s, In p points -> cell_id p = JString s ->
               toLowerCase s <> toLowerCase cellId) ->
  JS.find (sameCellId cellId) points
  = if forallb hasTextId points then Ok None else Throw TypeError.
Proof.
  induction points as [|x l IH]; intro H; [reflexivity|].
  cbn [JS.find forallb]. unfold hasTextId at 1, cellIdText.
  destruct (cell_id x) as [| | |s| |] eqn:E; try (unfold sameCellId; rewrite E; reflexivity).
  rewrite (sameCellId_lower cellId x s E).
  assert (N : String.eqb (toLowerCase s) (toLowerCase cellId) = false).
  { apply String.eqb_neq. apply (H x s); [now left | exact E]. }
  rewrite N. cbn [andb]. apply IH. intros p t Hp. apply H. now right.
Qed.

Lemma searchFailedMessage_without (query : string) :
  includes query searchFailedMessage = false ->
  ~ exists pre post : string, searchFailedMessage = pre ++ query ++ post.
Proof. intros H E. apply includes_iff in E. congruence. Qed.

(** C6.  A search that matches no point of the loaded dataset, with the
    container mounted: it returns false and leaves the address, and so the
    cell identifier read from it, as they were.  When every cell identifier
    of the dataset is a text, the page shows the not-found message, which
    carries the query as it was typed; when one of them is not a text the
    lookup throws and the page shows [Search failed]. *)
Theorem not_found_search_keeps_cell_id {RT : Runtime}
    (query : string) (pg : Page) (mc : MapContainer) :
  mapRef pg = Some mc ->
  (forall (p : SurveyPoint JSON) (s : string),
      In p (surveyPoints mc) -> cell_id p = JString s ->
      toLowerCase s <> toLowerCase (trim query)) ->
  fst (handleSearchById query pg) = false /\
  searchError (snd (handleSearchById query pg))
  = Some (if forallb hasTextId (surveyPoints mc)
          then notFoundMessage query else searchFailedMessage) /\
  (exists pre post : string, notFoundMessage query = pre ++ query ++ post) /\
  location (snd (handleSearchById query pg)) = location pg /\
  MapState.cellId (parseUrlState (location (snd (handleSearchById query pg))))
  = MapState.cellId (parseUrlState (location pg)).
Proof.
  intros Hm Hno. unfold handleSearchById, searchAndFlyTo. rewrite Hm.
  rewrite (find_of_no_match _ _ Hno).
  assert (P : exists pre post : string, notFoundMessage query = pre ++ query ++ post).
  { exists ("Cell ID " ++ String "034" EmptyString), (String "034" " not found").
    unfold notFoundMessage. now rewrite string_app_assoc. }
  destruct (forallb hasTextId (surveyPoints mc));
    cbn [negb fst snd searchError location]; repeat split; exact P.
Qed.

Lemma not_found_search_keeps_cell_id_witness :
  mapRef examplePage = Some exampleContainer /\
  (forall (p : SurveyPoint JSON) (s : string),
      In p (surveyPoints exampleContainer) -> cell_id p = JString s ->
      toLowerCase s <> toLowerCase (trim "Z99")) /\
  fst (@handleSearchById engine "Z99" examplePage) = false /\
  searchError (snd (@handleSearchById engine "Z99" examplePage))
  = Some (if forallb hasTextId (surveyPoints exampleContainer)
          then notFoundMessage "Z99" else searchFailedMessage) /\
  (exists pre post : string, notFoundMessage "Z99" = pre ++ "Z99" ++ post) /\
  location (snd (@handleSearchById engine "Z99" examplePage)) = location examplePage /\
  MapState.cellId (@parseUrlState engine
                     (location (snd (@handleSearchById engine "Z99" examplePage))))
  = MapState.cellId (@parseUrlState engine (location examplePage)).
Proof.
  assert (N : forall (p : SurveyPoint JSON) (s : string),
             In p (surveyPoints exampleContainer) -> cell_id p = JString s ->
             toLowerCase s <> toLowerCase (trim "Z99")).
  { intros p s [<-|[]] E. injection E as <-. discriminate. }
  split; [reflexivity|]. split; [exact N|].
  exact (@not_found_search_keeps_cell_id engine "Z99" examplePage exampleContainer eq_refl N).
Defined.

(** The claim as it is written fails on a dataset that the loader accepts:
    with the single record whose [cell_id] is the number 23, the search for
    [Z99] matches nothing, and the condition shown is [Search failed], which
    does not carry the query. *)
Lemma not_found_search_counterexample :
  let n := {| id := "point_0"; lat := Fin 24.7136; lng := Fin 46.6753;
              cell_id := JNumber (Fin 23) |} in
  let pg := {| isSearching := false; searchError := None;
               mapRef := Some {| surveyPoints := [n]; mapReady := true; commands := [] |};
               location := exampleUrl |} in
  pointsOfGeoJSON
    (featureCollection
       [featureWithId (JNumber (Fin 23))
          (JArray [JNumber (Fin 46.6753); JNumber (Fin 24.7136)])]) = Ok [n] /\
  fst (@handleSearchById engine "Z99" pg) = false /\
  searchError (snd (@handleSearchById engine "Z99" pg)) = Some "Search failed" /\
  searchError (snd (@handleSearchById engine "Z99" pg)) <> Some (notFoundMessage "Z99") /\
  ~ exists pre post : string, "Search failed" = pre ++ "Z99" ++ post.
Proof.
  cbv zeta. do 3 (split; [reflexivity|]). split; [discriminate|].
  now apply searchFailedMessage_without.
Qed.

(** C7, as the code has it.  For every query that is not blank and for which
    the lookup of the trimmed text returns a point (a point matches up to
    letter case, and no point before it has a cell identifier that is not a
    text), with the widget mounted and ready, the search returns true and
    writes the trimmed query as the [id] parameter of the address, so that a
    later parse yields the trimmed query; it is the cell identifier of the
    point up to letter case. *)
Theorem found_search_writes_query {RT : Runtime}
    (query : string) (pg : Page) (mc : MapContainer) (p : SurveyPoint JSON) :
  mapRef pg = Some mc -> mapReady mc = true ->
  JS.find (sameCellId (trim query)) (surveyPoints mc) = Ok (Some p) ->
  truthy (trim query) = true ->
  fst (handleSearchById query pg) = true /\
  URLSearchParams.get "id"
    (URLSearchParams.parse (location_search (location (snd (handleSearchById query pg)))))
  = Some (trim query) /\
  MapState.cellId (parseUrlState (location (snd (handleSearchById query pg))))
  = Some (trim query) /\
  exists s : string,
    cell_id p = JString s /\ toLowerCase (trim query) = toLowerCase s.
Proof.
  intros Hm Hr Hf Ht. unfold handleSearchById, searchAndFlyTo.
  rewrite Hm, Hf, Hr. cbn [negb fst snd location].
  assert (U : updateUrlState (MapState.setCellId (trim query) MapState.empty) (location pg)
              = update_searchParams (URLSearchParams.set "id" (trim query)) (location pg)).
  { unfold updateUrlState.
    cbn [updateHash MapState.setCellId MapState.empty MapState.zoom].
    unfold updateCellId. cbn [MapState.cellId MapState.setCellId]. now rewrite Ht. }
  rewrite U. split; [reflexivity|]. split; [apply get_after_set|]. split.
  - rewrite parseUrlState_cellId, get_after_set, Ht. now rewrite trim_idem.
  - pose proof (find_sameCellId (trim query) (surveyPoints mc)) as (i & _ & Hi).
    rewrite Hf in Hi. destruct Hi as [_ Hmatch].
    unfold matchesExactly, cellIdText in Hmatch.
    destruct (cell_id p) as [| | |s| |]; try discriminate Hmatch.
    exists s. split; [reflexivity|].
    rewrite <- equalIgnoringCase_toLowerCase in Hmatch.
    apply String.eqb_eq in Hmatch. now symmetry.
Qed.

Lemma found_search_writes_query_witness :
  mapRef examplePage = Some exampleContainer /\ mapReady exampleContainer = true /\
  JS.find (sameCellId (trim " a23 ")) (surveyPoints exampleContainer) = Ok (Some pointA23) /\
  truthy (trim " a23 ") = true /\
  fst (@handleSearchById engine " a23 " examplePage) = true /\
  URLSearchParams.get "id"
    (URLSearchParams.parse
       (location_search (location (snd (@handleSearchById engine " a23 " examplePage)))))
  = Some (trim " a23 ") /\
  MapState.cellId (@parseUrlState engine
                     (location (snd (@handleSearchById engine " a23 " examplePage))))
  = Some (trim " a23 ") /\
  exists s : string,
    cell_id pointA23 = JString s /\ toLowerCase (trim " a23 ") = toLowerCase s.
Proof.
  do 4 (split; [reflexivity|]).
  exact (@found_search_writes_query engine " a23 " examplePage exampleContainer pointA23
           eq_refl eq_refl eq_refl eq_refl).
Defined.

(** C7, as the claim has it, fails when the query differs from the cell id
    in letter case: the address holds the query, not the cell id found. *)
Lemma found_search_counterexample :
  JS.find (sameCellId "a23") (surveyPoints exampleContainer) = Ok (Some pointA23) /\
  cell_id pointA23 = JString "A23" /\
  fst (@handleSearchById engine "a23" examplePage) = true /\
  MapState.cellId (@parseUrlState engine
                     (location (snd (@handleSearchById engine "a23" examplePage))))
  = Some "a23" /\
  MapState.cellId (@parseUrlState engine
                     (location (snd (@handleSearchById engine "a23" examplePage))))
  <> Some "A23".
Proof.
  repeat (split; [reflexivity|]). vm_compute. discriminate.
Qed.

(** C8 fails on the code: an [id] parameter that holds only white space is
    truthy when it is tested on line 50 and is trimmed afterwards, so the
    cell id read is the empty string and not absent. *)
Theorem blank_id_reads_as_empty_string {RT : Runtime} :
  let u := {| base := "https://survey.example/"; query := Some "id=%20"; fragment := None |} in
  URLSearchParams.get "id" (URLSearchParams.parse (location_search u)) = Some " " /\
  trim " " = EmptyString /\
  MapState.cellId (parseUrlState u) = Some EmptyString.
Proof. cbv zeta. repeat split. Qed.

(** Everywhere else the cell id read is as C8 has it: absent without an [id]
    parameter or with an empty one, and otherwise the trimmed value. *)
Lemma cellId_is_trimmed_value {RT : Runtime} (u : URL) :
  match URLSearchParams.get "id" (URLSearchParams.parse (location_search u)) with
  | None => MapState.cellId (parseUrlState u) = None
  | Some c =>
      if truthy c then MapState.cellId (parseUrlState u) = Some (trim c)
      else MapState.cellId (parseUrlState u) = None
  end.
Proof.
  rewrite parseUrlState_cellId.
  destruct (URLSearchParams.get "id" _) as [c|]; [|reflexivity].
  destruct (truthy c); reflexivity.
Qed.

(** ** Loading the dataset *)

Lemma charAt_not_number n s : JS.isFinite (JS.charAt n s) = false.
Proof. unfold JS.charAt. now destruct (String.get n s). Qed.

(** On a record whose coordinates can be destructured the callback does what
    the specification says: it builds the point of a well-formed record and
    skips any other. *)
Lemma pointOfFeature_destructurable (i : nat) (f : JSON) :
  destructurable (coordinatesOf f) = true ->
  pointOfFeature i f = Ok (wellFormedPoint i f).
Proof.
  unfold pointOfFeature, wellFormedPoint, destructurable, coordinatesOf.
  destruct (JS.isPointType _); [|reflexivity]. cbn [negb].
  set (v := JS.optProp "coordinates" (JS.prop "geometry" f)).
  unfold JS.destructure2.
  destruct (JS.falsy v) eqn:Ef.
  - intros _. cbn [JS.isFinite andb].
    destruct v as [[| | | |l|]|]; try reflexivity; discriminate Ef.
  - cbn [orb]. destruct v as [[| | |s|l|]|]; try discriminate.
    + intros _. now rewrite !charAt_not_number.
    + intros _. destruct l as [|[| |[| |ln]| | |] [|[| |[| |la]| | |] r]]; try reflexivity.
      cbn [nth_error JS.isFinite isFiniteNum andb]. unfold JS.coalesce.
      destruct (JS.optProp "cell_id" (JS.prop "properties" f)) as [[]|];
        try reflexivity;
        destruct (JS.optProp "name" (JS.prop "properties" f)) as [[]|]; reflexivity.
Qed.

Lemma forEachFeature_destructurable (features : list JSON) :
  Forall (fun f => destructurable (coordinatesOf f) = true) features ->
  forall (i : nat) (points : list (SurveyPoint JSON)),
    forEachFeature i features points = Ok (points ++ wellFormedPoints i features)%list.
Proof.
  induction 1 as [|f r Hf _ IH]; intros i points; cbn [forEachFeature wellFormedPoints].
  - now rewrite app_nil_r.
  - rewrite (pointOfFeature_destructurable i f Hf).
    destruct (wellFormedPoint i f) as [p|]; rewrite IH; [|reflexivity].
    now rewrite <- app_assoc.
Qed.

(** The part of C9 that holds: a feature collection whose records have
    coordinates that are missing, falsy, an array or a string loads exactly
    the points of its well-formed records, and a document without a features
    array fails as a whole. *)
Lemma load_skips_malformed_records (features : list JSON) (other : list (string * JSON)) :
  Forall (fun f => destructurable (coordinatesOf f) = true) features ->
  pointsOfGeoJSON (JObject (("features", JArray features) :: other))
  = Ok (wellFormedPoints 0 features).
Proof.
  intro H. unfold pointsOfGeoJSON.
  change (JS.prop "features" (JObject (("features", JArray features) :: other)))
    with (Some (JArray features)).
  cbv iota. now rewrite (forEachFeature_destructurable features H).
Qed.

Lemma load_fails_without_features (gj : JSON) :
  (forall l, JS.prop "features" gj <> Some (JArray l)) ->
  pointsOfGeoJSON gj = Throw InvalidGeoJSON.
Proof.
  intro H. unfold pointsOfGeoJSON.
  destruct (JS.prop "features" gj) as [[| | | |l|]|]; try reflexivity.
  now elim (H l).
Qed.

(** The example of the specification: nine records with coordinates and one
    without load as nine points. *)
Example nine_of_ten_records_load :
  let good := fun n => feature n (JArray [JNumber (Fin 46.6753); JNumber (Fin 24.7136)]) in
  let bad :=
    JObject [("type", JString "Feature");
             ("geometry", JObject [("type", JString "Point")]);
             ("properties", JObject [("cell_id", JString "A5")])] in
  exists points,
    pointsOfGeoJSON
      (featureCollection
         [good "A1"; good "A2"; good "A3"; good "A4"; bad;
          good "A6"; good "A7"; good "A8"; good "A9"; good "A10"]) = Ok points /\
    List.length points = 9%nat.
Proof. eexists. split; reflexivity. Qed.

(** From a response that is fine and a body that parses, the loader returns
    what the features give. *)
Lemma loadGeoJSONData_of_parsed (JSON_parse : string -> option JSON)
    (response : Response) (gj : JSON) :
  ok response = true -> startsWith "<" (trim (text response)) = false ->
  JSON_parse (text response) = Some gj ->
  loadGeoJSONData JSON_parse response = pointsOfGeoJSON gj.
Proof.
  intros Hok Hlt Hp. unfold loadGeoJSONData. now rewrite Hok, Hlt, Hp.
Qed.

(** C9 fails on the code: a record whose coordinates value is truthy and not
    iterable (here an object) is not skipped; destructuring it on line 174
    throws, and the whole load fails although the document is a feature
    collection whose other record is well formed. *)
Theorem non_iterable_coordinates_abort_load :
  let good := feature "A1" (JArray [JNumber (Fin 46.6753); JNumber (Fin 24.7136)]) in
  let bad := feature "A2" (JObject [("lng", JNumber (Fin 46.6753)); ("lat", JNumber (Fin 24.7136))]) in
  pointsOfGeoJSON (featureCollection [good; bad]) = Throw TypeError /\
  wellFormedPoints 0 [good; bad]
  = [{| id := "point_0"; lat := Fin 24.7136; lng := Fin 46.6753; cell_id := JString "A1" |}].
Proof. cbv zeta. split; reflexivity. Qed.

(* ================================================================= *)
(** * Further properties *)

(** ** Query parameters under an update *)

Module URLSearchParamsMore.
Import URLSearchParams.

Lemma delete_idem name l : delete name (delete name l) = delete name l.
Proof.
  unfold delete. induction l as [|[n v] l IH]; simpl; [reflexivity|].
  destruct (String.eqb n name) eqn:E; simpl; [exact IH | now rewrite E, IH].
Qed.

Lemma set_idem name value l : set name value (set name value l) = set name value l.
Proof.
  induction l as [|[n v] l IH]; simpl.
  - now rewrite String.eqb_refl.
  - destruct (String.eqb n name) eqn:E; simpl; rewrite E.
    + now rewrite delete_idem.
    + now rewrite IH.
Qed.

Lemma get_delete_other name other l :
  String.eqb other name = false -> get other (delete name l) = get other l.
Proof.
  intro H. unfold delete. induction l as [|[n v] l IH]; simpl; [reflexivity|].
  destruct (String.eqb n name) eqn:E; simpl.
  - apply String.eqb_eq in E. subst n. rewrite String.eqb_sym, H. exact IH.
  - destruct (String.eqb n other); [reflexivity | exact IH].
Qed.

Lemma get_set_other name other value l :
  String.eqb other name = false -> get other (set name value l) = get other l.
Proof.
  intro H. induction l as [|[n v] l IH]; simpl.
  - now rewrite String.eqb_sym, H.
  - destruct (String.eqb n name) eqn:E; simpl.
    + apply String.eqb_eq in E. subst n. rewrite String.eqb_sym, H.
      now apply get_delete_other.
    + destruct (String.eqb n other); [reflexivity | exact IH].
Qed.

Lemma serialize_empty l : truthy (serialize l) = false -> l = [].
Proof.
  destruct l as [|p l]; [reflexivity|]. now rewrite serialize_truthy.
Qed.

End URLSearchParamsMore.
Import URLSearchParamsMore.

(** The parameters of a URL are those of its query. *)
Lemma searchParams_of_query (u : URL) :
  URLSearchParams.parse (location_search u)
  = URLSearchParams.parseUrlencoded (match query u with Some q => q | None => EmptyString end).
Proof.
  unfold location_search. destruct (query u) as [q|]; [|reflexivity].
  destruct q; reflexivity.
Qed.

(** After an update of the parameters, the URL holds the updated list. *)
Lemma searchParams_after_update (f : URLSearchParams.t -> URLSearchParams.t) (u : URL) :
  URLSearchParams.parse (location_search (update_searchParams f u))
  = f (URLSearchParams.parse (location_search u)).
Proof.
  rewrite !searchParams_of_query. unfold update_searchParams. cbn [query].
  set (l := f _).
  destruct (truthy (URLSearchParams.serialize l)) eqn:E.
  - apply parse_serialize.
  - now rewrite (serialize_empty l E).
Qed.

Lemma update_searchParams_idem (f : URLSearchParams.t -> URLSearchParams.t) (u : URL) :
  (forall l, f (f l) = f l) ->
  update_searchParams f (update_searchParams f u) = update_searchParams f u.
Proof.
  intro Hf.
  pose proof (searchParams_after_update f u) as H. rewrite !searchParams_of_query in H.
  unfold update_searchParams at 1. rewrite H, Hf. reflexivity.
Qed.

(** ** Clearing the URL *)

(** X1.  [clearUrlState] leaves a URL that decodes to the empty state,
    whatever the URL was: no position and no cell identifier.  The part up
    to the path is kept, and so is the first value of every query parameter
    other than [id]. *)
Theorem clear_then_parse_is_empty {RT : Runtime} (loc : URL) :
  parseUrlState (clearUrlState loc) = MapState.empty /\
  base (clearUrlState loc) = base loc /\
  fragment (clearUrlState loc) = None /\
  forall name : string,
    name <> "id" ->
    URLSearchParams.get name (URLSearchParams.parse (location_search (clearUrlState loc)))
    = URLSearchParams.get name (URLSearchParams.parse (location_search loc)).
Proof.
  unfold clearUrlState. repeat split.
  - unfold parseUrlState. rewrite get_after_delete. reflexivity.
  - intros name Hn. rewrite searchParams_after_update.
    rewrite get_delete_other by (now apply String.eqb_neq).
    reflexivity.
Qed.

(** ** Repeating an update *)

Section UpdateTwice.
Context {RT : Runtime}.

Lemma updateCellId_idem st u : updateCellId st (updateCellId st u) = updateCellId st u.
Proof.
  unfold updateCellId. destruct (MapState.cellId st) as [c|]; [|reflexivity].
  destruct (truthy c); apply update_searchParams_idem; intro l.
  - apply set_idem.
  - apply delete_idem.
Qed.

Lemma updateHash_updateCellId st st' u :
  updateHash st (updateCellId st' u) = updateCellId st' (updateHash st u).
Proof.
  unfold updateHash, updateCellId.
  destruct (MapState.zoom st) as [z|]; [|reflexivity].
  destruct (MapState.lat st) as [la|]; [|reflexivity].
  destruct (MapState.lng st) as [ln|]; [|reflexivity].
  cbv zeta. destruct (_ && _)%bool; [|reflexivity].
  destruct (MapState.cellId st') as [c|]; [|reflexivity].
  destruct (truthy c); reflexivity.
Qed.

Lemma updateHash_idem st u : updateHash st (updateHash st u) = updateHash st u.
Proof.
  unfold updateHash.
  destruct (MapState.zoom st) as [z|]; [|reflexivity].
  destruct (MapState.lat st) as [la|]; [|reflexivity].
  destruct (MapState.lng st) as [ln|]; [|reflexivity].
  cbv zeta. destruct (_ && _)%bool; reflexivity.
Qed.

End UpdateTwice.

(** X2.  An update is idempotent: applying the same update to the URL it has
    produced gives that URL again. *)
Theorem update_twice_is_update {RT : Runtime} (st : MapState.t) (loc : URL) :
  updateUrlState st (updateUrlState st loc) = updateUrlState st loc.
Proof.
  unfold updateUrlState.
  now rewrite updateHash_updateCellId, updateHash_idem, updateCellId_idem.
Qed.

(** X3.  An update of the whole state is the update of the position and the
    update of the cell identifier, applied one after the other in either
    order. *)
Theorem update_in_two_steps {RT : Runtime} (st : MapState.t) (loc : URL) :
  updateUrlState (cellIdOnly st) (updateUrlState (positionOnly st) loc) = updateUrlState st loc /\
  updateUrlState (positionOnly st) (updateUrlState (cellIdOnly st) loc) = updateUrlState st loc.
Proof.
  unfold updateUrlState.
  assert (P : forall u, updateCellId (positionOnly st) u = u) by reflexivity.
  assert (C : forall u, updateHash (cellIdOnly st) u = u) by reflexivity.
  assert (P' : forall u, updateHash (positionOnly st) u = updateHash st u) by reflexivity.
  assert (C' : forall u, updateCellId (cellIdOnly st) u = updateCellId st u) by reflexivity.
  rewrite !P, !C, !P', !C'. split; [reflexivity|].
  apply updateHash_updateCellId.
Qed.

(** ** Moving the map and clearing the search, from the page *)

Section PageUpdates.
Context {RT : Runtime}.

Lemma query_updateHash st u : query (updateHash st u) = query u.
Proof.
  unfold updateHash.
  destruct (MapState.zoom st) as [z|]; [|reflexivity].
  destruct (MapState.lat st) as [la|]; [|reflexivity].
  destruct (MapState.lng st) as [ln|]; [|reflexivity].
  cbv zeta. destruct (_ && _)%bool; reflexivity.
Qed.

Lemma location_search_updateHash st u : location_search (updateHash st u) = location_search u.
Proof. unfold location_search. now rewrite query_updateHash. Qed.

Lemma positionOf_parseUrlState (u : URL) :
  positionOf (parseUrlState u)
  = positionOf (parseHash (substringFrom 1 (location_hash u)) MapState.empty).
Proof.
  destruct (parseUrlState_position u) as (Hz & Hla & Hln).
  unfold positionOf. now rewrite Hz, Hla, Hln.
Qed.

Lemma updateHash_of_NaN (z la ln : num) (cid : option string) (u : URL) :
  (isNaN z || isNaN la || isNaN ln)%bool = true ->
  updateHash {| MapState.zoom := Some z; MapState.lat := Some la;
                MapState.lng := Some ln; MapState.cellId := cid |} u = u.
Proof.
  intro H. unfold updateHash. cbn [MapState.zoom MapState.lat MapState.lng]. cbv zeta.
  destruct z as [|sz|z]; [reflexivity| |];
    (destruct la as [|sla|la]; [cbn; now rewrite ?andb_false_r| |]);
    (destruct ln as [|sln|ln]; [cbn; now rewrite ?andb_false_r| |]);
    discriminate H.
Qed.

End PageUpdates.

(** X4.  A move of the map ([handleMapStateChange]) records the new view as
    the current one and leaves the query of the address alone, so the cell
    identifier of an earlier search still decodes from it; when one of the
    three numbers is NaN the address is not touched at all. *)
Theorem map_move_keeps_cell_id {RT : Runtime} (zoom la ln : num) (pg : Page) :
  let st' := fst (handleMapStateChange zoom la ln pg) in
  let pg' := snd (handleMapStateChange zoom la ln pg) in
  (FullMapState.zoom st', FullMapState.lat st', FullMapState.lng st') = (zoom, la, ln) /\
  query (location pg') = query (location pg) /\
  MapState.cellId (parseUrlState (location pg')) = MapState.cellId (parseUrlState (location pg)) /\
  ((isNaN zoom || isNaN la || isNaN ln)%bool = true -> location pg' = location pg).
Proof.
  cbv zeta. cbn [handleMapStateChange fst snd location FullMapState.zoom FullMapState.lat
                 FullMapState.lng].
  unfold updateUrlState.
  assert (C : forall u, updateCellId
                          (FullMapState.partial
                             {| FullMapState.zoom := zoom; FullMapState.lat := la;
                                FullMapState.lng := ln; FullMapState.cellId := None |}) u = u)
    by reflexivity.
  rewrite C. split; [reflexivity|]. split; [apply query_updateHash|]. split.
  - rewrite !parseUrlState_cellId. now rewrite location_search_updateHash.
  - intro H. now apply updateHash_of_NaN.
Qed.

(** X5.  Clearing the search.  The clear button empties the box and its list
    of suggestions, and [handleClearSearch] removes the cell identifier from
    the address and keeps the rest: the fragment and the position decoded
    from it, and the first value of every other query parameter. *)
Theorem clear_search_keeps_position {RT : Runtime} (box : SearchBox) (pg : Page) :
  let box' := fst (clearSearch (Some handleClearSearch) box pg) in
  let pg' := snd (clearSearch (Some handleClearSearch) box pg) in
  box' = {| searchQuery := EmptyString; suggestions := []; showSuggestions := false |} /\
  MapState.cellId (parseUrlState (location pg')) = None /\
  fragment (location pg') = fragment (location pg) /\
  positionOf (parseUrlState (location pg')) = positionOf (parseUrlState (location pg)) /\
  forall name : string,
    name <> "id" ->
    URLSearchParams.get name (URLSearchParams.parse (location_search (location pg')))
    = URLSearchParams.get name (URLSearchParams.parse (location_search (location pg))).
Proof.
  cbv zeta. cbn [clearSearch fst snd handleClearSearch location].
  change (updateUrlState (MapState.setCellId EmptyString MapState.empty) (location pg))
    with (update_searchParams (URLSearchParams.delete "id") (location pg)).
  split; [reflexivity|]. split; [|split; [reflexivity|split]].
  - rewrite parseUrlState_cellId, get_after_delete. reflexivity.
  - rewrite !positionOf_parseUrlState. reflexivity.
  - intros name Hn. rewrite searchParams_after_update.
    apply get_delete_other. now apply String.eqb_neq.
Qed.

(** ** Share links *)

Section ShareLinks.
Context {RT : Runtime} (OK : RuntimeOK RT).

(** The URL whose text [getShareableUrl] returns. *)
Lemma getShareableUrl_eq (state : FullMapState.t) (loc : URL) :
  getShareableUrl state loc
  = href (let url :=
            set_hash (String "#"
                        (compactFragment
                           (toString (FullMapState.zoom state))
                           (toString (Math_round (num_mul (FullMapState.lat state) hundredThousand)))
                           (toString (Math_round (num_mul (FullMapState.lng state) hundredThousand)))))
                     (bare loc) in
          match FullMapState.cellId state with
          | Some c => if truthy c then update_searchParams (URLSearchParams.set "id" c) url else url
          | None => url
          end).
Proof. reflexivity. Qed.

(** A URL whose fragment is compact decodes to the numbers of its parts. *)
Lemma parseHash_of_compact_fragment (u : URL) (a b c : string) :
  fragment u = Some (compactFragment a b c) ->
  allChars numericChar a = true -> allChars numericChar b = true ->
  allChars numericChar c = true ->
  parseHash (substringFrom 1 (location_hash u)) MapState.empty =
  let zoom := Number a in
  let lat := num_div (Number b) hundredThousand in
  let lng := num_div (Number c) hundredThousand in
  if (negb (isNaN zoom) && negb (isNaN lat) && negb (isNaN lng))%bool
  then MapState.setPosition zoom lat lng MapState.empty else MapState.empty.
Proof.
  intros F Ha Hb Hc. unfold location_hash. rewrite F.
  change (truthy (compactFragment a b c)) with true. cbv iota.
  change (substringFrom 1 (String "#" (compactFragment a b c))) with (compactFragment a b c).
  apply parseHash_compact;
    first [now apply numeric_no_slash | now apply numeric_no_underscore].
Qed.

Lemma share_position (zoom : Z) (la ln : Q) (u : URL) :
  (0 <= zoom <= 22)%Z -> (-90 <= la <= 90)%Q -> (-180 <= ln <= 180)%Q ->
  fragment u = Some (compactFragment
                       (toString (Fin (inject_Z zoom)))
                       (toString (Math_round (num_mul (Fin la) hundredThousand)))
                       (toString (Math_round (num_mul (Fin ln) hundredThousand)))) ->
  exists z' la' ln' : Q,
    positionOf (parseUrlState u) = (Some (Fin z'), Some (Fin la'), Some (Fin ln')) /\
    (z' == inject_Z zoom)%Q /\
    (Qabs (la' - la) <= 1 # 100000)%Q /\
    (Qabs (ln' - ln) <= 1 # 100000)%Q.
Proof.
  intros Hz Hla Hln F.
  destruct (scaled_roundtrip OK la) as (n1 & la' & R1 & B1 & D1 & E1); [lra|].
  destruct (scaled_roundtrip OK ln) as (n2 & ln' & R2 & B2 & D2 & E2); [lra|].
  destruct (Number_Z_toString zoom) as (q & Eq & Hq).
  destruct (fl_int RT OK q zoom Hq) as (z' & Ez & Hz').
  { unfold maxSafe. lia. }
  exists z', la', ln'.
  rewrite R1, R2 in F.
  rewrite !toString_integer in F by (first [assumption | unfold maxSafe; lia]).
  rewrite positionOf_parseUrlState.
  rewrite (parseHash_of_compact_fragment u _ _ _ F) by apply Z_toString_chars.
  cbv zeta. rewrite Eq, Ez, D1, D2. cbn [isNaN negb andb].
  split; [reflexivity|]. split; [now rewrite Hz', Hq|]. split; assumption.
Qed.

End ShareLinks.

(** What a share link decodes to. *)
Lemma share_link_decodes {RT : Runtime} (OK : RuntimeOK RT)
    (zoom : Z) (la ln : Q) (cid : option string) (loc : URL) :
  (0 <= zoom <= 22)%Z -> (-90 <= la <= 90)%Q -> (-180 <= ln <= 180)%Q ->
  exists u : URL,
    getShareableUrl {| FullMapState.zoom := Fin (inject_Z zoom);
                       FullMapState.lat := Fin la;
                       FullMapState.lng := Fin ln;
                       FullMapState.cellId := cid |} loc = href u /\
    base u = base loc /\
    (exists z' la' ln' : Q,
        positionOf (parseUrlState u) = (Some (Fin z'), Some (Fin la'), Some (Fin ln')) /\
        (z' == inject_Z zoom)%Q /\
        (Qabs (la' - la) <= 1 # 100000)%Q /\
        (Qabs (ln' - ln) <= 1 # 100000)%Q) /\
    MapState.cellId (parseUrlState u)
    = match cid with
      | Some c => if truthy c then Some (trim c) else None
      | None => None
      end /\
    forall name : string,
      name <> "id" ->
      URLSearchParams.get name (URLSearchParams.parse (location_search u)) = None.
Proof.
  intros Hz Hla Hln. rewrite getShareableUrl_eq.
  cbn [FullMapState.zoom FullMapState.lat FullMapState.lng FullMapState.cellId].
  cbv zeta. eexists. split; [reflexivity|].
  assert (Hc : cid = None \/ cid = Some EmptyString \/
               exists c, cid = Some c /\ truthy c = true).
  { destruct cid as [[|x c]|]; eauto. }
  destruct Hc as [->|[->|(c & -> & Hc)]]; cbn [truthy String.eqb negb]; cbv iota;
    try rewrite Hc.
  - split; [reflexivity|]. split; [now apply (share_position OK)|].
    split; [now rewrite parseUrlState_cellId | intros name _; reflexivity].
  - split; [reflexivity|]. split; [now apply (share_position OK)|].
    split; [now rewrite parseUrlState_cellId | intros name _; reflexivity].
  - split; [reflexivity|]. split; [now apply (share_position OK)|]. split.
    + rewrite parseUrlState_cellId, get_after_set. now rewrite Hc.
    + intros name Hn. rewrite searchParams_after_update.
      rewrite get_set_other by (now apply String.eqb_neq). reflexivity.
Qed.

(** X6.  A share link restores the view.  For a zoom in [0,22], a latitude in
    [-90,90] and a longitude in [-180,180], [getShareableUrl] returns the text
    of a URL on the path of the page that decodes to the same zoom, to the
    latitude and the longitude within 1e-5, and to the trimmed cell
    identifier when the state has a non-empty one; it carries no other query
    parameter, whatever the address of the page holds. *)
Theorem share_link_restores_view {RT : Runtime} (OK : RuntimeOK RT)
    (zoom : Z) (la ln : Q) (cid : option string) (loc : URL) :
  (0 <= zoom <= 22)%Z -> (-90 <= la <= 90)%Q -> (-180 <= ln <= 180)%Q ->
  exists u : URL,
    getShareableUrl {| FullMapState.zoom := Fin (inject_Z zoom);
                       FullMapState.lat := Fin la;
                       FullMapState.lng := Fin ln;
                       FullMapState.cellId := cid |} loc = href u /\
    base u = base loc /\
    (exists z' la' ln' : Q,
        positionOf (parseUrlState u) = (Some (Fin z'), Some (Fin la'), Some (Fin ln')) /\
        (z' == inject_Z zoom)%Q /\
        (Qabs (la' - la) <= 1 # 100000)%Q /\
        (Qabs (ln' - ln) <= 1 # 100000)%Q) /\
    MapState.cellId (parseUrlState u)
    = match cid with
      | Some c => if truthy c then Some (trim c) else None
      | None => None
      end /\
    forall name : string,
      name <> "id" ->
      URLSearchParams.get name (URLSearchParams.parse (location_search u)) = None.
Proof. apply (share_link_decodes OK). Qed.

Lemma share_link_restores_view_witness :
  RuntimeOK engine /\
  (0 <= 16 <= 22)%Z /\ (-90 <= 40.7128 <= 90)%Q /\ (-180 <= -74.006 <= 180)%Q /\
  exists u : URL,
    @getShareableUrl engine {| FullMapState.zoom := Fin (inject_Z 16);
                               FullMapState.lat := Fin 40.7128;
                               FullMapState.lng := Fin (-74.006);
                               FullMapState.cellId := Some " A23 " |} exampleUrl = href u /\
    base u = base exampleUrl /\
    (exists z' la' ln' : Q,
        positionOf (@parseUrlState engine u) = (Some (Fin z'), Some (Fin la'), Some (Fin ln')) /\
        (z' == inject_Z 16)%Q /\
        (Qabs (la' - 40.7128) <= 1 # 100000)%Q /\
        (Qabs (ln' - -74.006) <= 1 # 100000)%Q) /\
    MapState.cellId (@parseUrlState engine u) = Some (trim " A23 ") /\
    forall name : string,
      name <> "id" ->
      URLSearchParams.get name (URLSearchParams.parse (location_search u)) = None.
Proof.
  split; [exact engine_ok|].
  split; [lia|]. split; [lra|]. split; [lra|].
  apply (@share_link_restores_view engine engine_ok 16 40.7128 (-74.006) (Some " A23 ") exampleUrl);
    [lia | lra | lra].
Defined.

(** X7.  For a whole zoom and a latitude and a longitude that are not NaN, the
    share link is the text of the address that the same update writes on the
    bare address of the page; with a cell identifier that is empty or absent
    neither of the two has a query. *)
Theorem share_link_is_update_of_bare_address {RT : Runtime} (OK : RuntimeOK RT)
    (zoom : Z) (la ln : num) (cid : option string) (loc : URL) :
  isNaN la = false -> isNaN ln = false ->
  let state := {| FullMapState.zoom := Fin (inject_Z zoom);
                  FullMapState.lat := la;
                  FullMapState.lng := ln;
                  FullMapState.cellId := cid |} in
  getShareableUrl state loc = href (updateUrlState (FullMapState.partial state) (bare loc)).
Proof.
  intros Hla Hln state. rewrite getShareableUrl_eq. f_equal.
  unfold updateUrlState, updateHash, FullMapState.partial.
  subst state.
  cbn [FullMapState.zoom FullMapState.lat FullMapState.lng FullMapState.cellId
       MapState.zoom MapState.lat MapState.lng MapState.cellId]. cbv zeta.
  rewrite !Math_round_NaN, !(num_mul_NaN OK), Hla, Hln.
  cbn [Math_round isNaN negb andb]. rewrite round_integer.
  unfold updateCellId. cbn [MapState.cellId].
  destruct cid as [c|]; [|reflexivity].
  destruct (truthy c); reflexivity.
Qed.

Lemma share_link_is_update_of_bare_address_witness :
  RuntimeOK engine /\ isNaN (Fin 40.7128) = false /\ isNaN (Fin (-74.006)) = false /\
  let state := {| FullMapState.zoom := Fin (inject_Z 16);
                  FullMapState.lat := Fin 40.7128;
                  FullMapState.lng := Fin (-74.006);
                  FullMapState.cellId := Some "A23" |} in
  @getShareableUrl engine state exampleUrl
  = href (@updateUrlState engine (FullMapState.partial state) (bare exampleUrl)).
Proof.
  split; [exact engine_ok|]. do 2 (split; [reflexivity|]).
  exact (@share_link_is_update_of_bare_address engine engine_ok 16 (Fin 40.7128) (Fin (-74.006))
           (Some "A23") exampleUrl eq_refl eq_refl).
Defined.

Section ShareNaN.
Context {RT : Runtime} (OK : RuntimeOK RT).

Lemma Number_NaN_text : Number "NaN" = NaN.
Proof. reflexivity. Qed.

Lemma share_fragment_NaN (u : URL) (z la ln : num) :
  fragment u = Some (compactFragment (toString z) (toString la) (toString ln)) ->
  (isNaN z || isNaN la || isNaN ln)%bool = true ->
  positionOf (parseUrlState u) = (None, None, None).
Proof.
  intros F H. rewrite positionOf_parseUrlState.
  unfold location_hash. rewrite F.
  change (truthy (compactFragment (toString z) (toString la) (toString ln))) with true.
  cbv iota.
  change (substringFrom 1 (String "#" ?s)) with s.
  rewrite parseHash_compact by apply (toString_no_separator OK).
  cbv zeta.
  destruct z as [|sz|z]; [reflexivity| |];
    (destruct la as [|sla|la]; [cbn [toString]; rewrite Number_NaN_text; cbn;
                                now rewrite ?andb_false_r| |]);
    (destruct ln as [|sln|ln]; [cbn [toString]; rewrite Number_NaN_text; cbn;
                                now rewrite ?andb_false_r| |]);
    discriminate H.
Qed.

End ShareNaN.

(** X8.  [getShareableUrl] does not test for NaN: when the zoom, the latitude
    or the longitude of the state is NaN, the link it returns still has a
    compact fragment, and that fragment decodes to no position. *)
Theorem share_link_of_NaN_has_no_position {RT : Runtime} (OK : RuntimeOK RT)
    (state : FullMapState.t) (loc : URL) :
  (isNaN (FullMapState.zoom state) || isNaN (FullMapState.lat state)
   || isNaN (FullMapState.lng state))%bool = true ->
  exists u : URL,
    getShareableUrl state loc = href u /\
    (exists a b c : string, fragment u = Some (compactFragment a b c)) /\
    positionOf (parseUrlState u) = (None, None, None).
Proof.
  intro H. rewrite getShareableUrl_eq. cbv zeta. eexists. split; [reflexivity|].
  set (a := toString (FullMapState.zoom state)).
  set (la := Math_round (num_mul (FullMapState.lat state) hundredThousand)).
  set (ln := Math_round (num_mul (FullMapState.lng state) hundredThousand)).
  assert (F : forall u,
             fragment u = Some (compactFragment a (toString la) (toString ln)) ->
             (exists a b c : string, fragment u = Some (compactFragment a b c)) /\
             positionOf (parseUrlState u) = (None, None, None)).
  { intros u F. split; [eauto|]. apply (share_fragment_NaN OK u _ _ _ F).
    subst la ln. now rewrite !Math_round_NaN, !(num_mul_NaN OK). }
  destruct (FullMapState.cellId state) as [c|]; [|now apply F].
  destruct (truthy c); now apply F.
Qed.

Lemma share_link_of_NaN_has_no_position_witness :
  let state := {| FullMapState.zoom := Fin 16; FullMapState.lat := NaN;
                  FullMapState.lng := Fin (-74.006); FullMapState.cellId := None |} in
  RuntimeOK engine /\
  (isNaN (FullMapState.zoom state) || isNaN (FullMapState.lat state)
   || isNaN (FullMapState.lng state))%bool = true /\
  exists u : URL,
    @getShareableUrl engine state exampleUrl = href u /\
    (exists a b c : string, fragment u = Some (compactFragment a b c)) /\
    positionOf (@parseUrlState engine u) = (None, None, None).
Proof.
  cbv zeta. split; [exact engine_ok|]. split; [reflexivity|].
  exact (@share_link_of_NaN_has_no_position engine engine_ok
           {| FullMapState.zoom := Fin 16; FullMapState.lat := NaN;
              FullMapState.lng := Fin (-74.006); FullMapState.cellId := None |}
           exampleUrl eq_refl).
Defined.

(** ** [toFixed] and the fragment with slashes *)

Lemma firstChars_substringFrom n s : firstChars n s ++ substringFrom n s = s.
Proof.
  revert s. induction n as [|n IH]; intros [|c s]; simpl; try reflexivity.
  now rewrite IH.
Qed.

Lemma allChars_firstChars f n s : allChars f s = true -> allChars f (firstChars n s) = true.
Proof.
  revert s. induction n as [|n IH]; intros [|c s]; simpl; try reflexivity.
  intro H. apply andb_true_iff in H as [Hc Hs]. now rewrite Hc, IH.
Qed.

Lemma allChars_substringFrom f n s :
  allChars f s = true -> allChars f (substringFrom n s) = true.
Proof.
  revert s. induction n as [|n IH]; intros [|c s]; simpl; try reflexivity; try (intro H; exact H).
  intro H. apply andb_true_iff in H as [Hc Hs]. now apply IH.
Qed.

Lemma length_substringFrom n s :
  String.length (substringFrom n s) = (String.length s - n)%nat.
Proof.
  revert s. induction n as [|n IH]; intros [|c s]; simpl; try reflexivity.
  apply IH.
Qed.

Lemma truthy_firstChars n s :
  (0 < n)%nat -> truthy s = true -> truthy (firstChars n s) = true.
Proof. destruct n as [|n]; [lia|]. now destruct s. Qed.

Lemma length_app_string (a b : string) :
  String.length (a ++ b) = (String.length a + String.length b)%nat.
Proof. induction a as [|c a IH]; simpl; [reflexivity | now rewrite IH]. Qed.

Lemma length_zeros n : String.length (zeros n) = n.
Proof. induction n as [|n IH]; simpl; [reflexivity | now rewrite IH]. Qed.

Lemma zeros_digits n : allChars isDigit (zeros n) = true.
Proof. induction n as [|n IH]; simpl; [reflexivity | exact IH]. Qed.

Lemma digitsIn_zeros n s : digitsIn 10 0 (zeros n ++ s) = digitsIn 10 0 s.
Proof. induction n as [|n IH]; [reflexivity | exact IH]. Qed.

Lemma spanDigits_app (a : string) (c : ascii) (r : string) :
  allChars isDigit a = true -> isDigit c = false ->
  spanDigits (a ++ String c r) = (a, String c r).
Proof.
  intros Ha Hc. induction a as [|x a IH]; simpl.
  - now rewrite Hc.
  - simpl in Ha. apply andb_true_iff in Ha as [Hx Ha]. now rewrite Hx, (IH Ha).
Qed.

Lemma unsignedDecimal_point (a b : string) (m : N) :
  allChars isDigit a = true -> allChars isDigit b = true -> truthy a = true ->
  digitsIn 10 0 (a ++ b) = Some m ->
  unsignedDecimal (a ++ String "." b)
  = Some (inject_Z (Z.of_N m) * (10 # 1) ^ (0 - Z.of_nat (String.length b)))%Q.
Proof.
  intros Ha Hb Ht Hm. unfold unsignedDecimal.
  rewrite (spanDigits_app a "." b Ha eq_refl).
  rewrite (spanDigits_all b Hb). rewrite Ht. cbn [negb andb exponentPart].
  now rewrite Hm.
Qed.

Lemma numericChar_not_radix (x : ascii) :
  numericChar x = true ->
  (Ascii.eqb x "x" || Ascii.eqb x "X" || Ascii.eqb x "o" || Ascii.eqb x "O"
   || Ascii.eqb x "b" || Ascii.eqb x "B")%bool = false.
Proof.
  destruct x as [[] [] [] [] [] [] [] []]; vm_compute; intro H;
    first [discriminate H | reflexivity].
Qed.

Lemma nonDecimal_numeric (t : string) : allChars numericChar t = true -> nonDecimal t = None.
Proof.
  destruct t as [|c [|x r]]; simpl; intro H; try reflexivity.
  apply andb_true_iff in H as [_ H]. apply andb_true_iff in H as [Hx _].
  pose proof (numericChar_not_radix x Hx) as Hr.
  repeat (apply orb_false_iff in Hr as [Hr ?]).
  unfold nonDecimal.
  repeat match goal with H : Ascii.eqb _ _ = false |- _ => rewrite H; clear H end.
  reflexivity.
Qed.

Lemma digit_numeric s : allChars isDigit s = true -> allChars numericChar s = true.
Proof.
  apply allChars_impl. intros c Hc. now destruct (isDigit_facts c Hc).
Qed.

Lemma numeric_notSpace s : allChars numericChar s = true -> allChars notSpace s = true.
Proof.
  apply allChars_impl. intros c Hc. now destruct (numericChar_facts c Hc).
Qed.

Section NumberOfFixed.
Context {RT : Runtime}.

(** The number read from a sign, digits, a point and digits. *)
Lemma Number_point (neg : bool) (a b : string) (m : N) :
  allChars isDigit a = true -> allChars isDigit b = true -> truthy a = true ->
  digitsIn 10 0 (a ++ b) = Some m ->
  Number ((if neg then "-" else EmptyString) ++ a ++ String "." b)
  = fl (let q := (inject_Z (Z.of_N m) * (10 # 1) ^ (0 - Z.of_nat (String.length b)))%Q in
        if neg then (- q)%Q else q).
Proof.
  intros Ha Hb Ht Hm.
  assert (Hn : allChars numericChar (a ++ String "." b) = true).
  { rewrite allChars_app. change (allChars numericChar (String "." b))
      with (allChars numericChar b). now rewrite !digit_numeric. }
  unfold Number. rewrite trim_no_space.
  2:{ apply numeric_notSpace. destruct neg; [simpl; exact Hn | exact Hn]. }
  destruct a as [|c a]; [discriminate Ht|].
  simpl in Ha. pose proof Ha as Ha'. apply andb_true_iff in Ha as [Hc Hr].
  destruct (isDigit_facts c Hc) as (_ & _ & _ & HI & _).
  destruct neg.
  - change ("-" ++ String c a ++ String "." b) with (String "-" (String c a ++ String "." b)).
    rewrite truthy_String, nonDecimal_minus.
    cbn [signOf]. change (Ascii.eqb "-" "-") with true. cbv iota.
    change (String c a ++ String "." b) with (String c (a ++ String "." b)).
    cbn [String.eqb]. rewrite HI.
    change (String c (a ++ String "." b)) with (String c a ++ String "." b).
    now rewrite (unsignedDecimal_point (String c a) b m).
  - change (EmptyString ++ String c a ++ String "." b) with (String c a ++ String "." b).
    rewrite (nonDecimal_numeric _ Hn).
    change (String c a ++ String "." b) with (String c (a ++ String "." b)).
    rewrite truthy_String, (signOf_digit c _ Hc). cbn [String.eqb]. rewrite HI.
    change (String c (a ++ String "." b)) with (String c a ++ String "." b).
    now rewrite (unsignedDecimal_point (String c a) b m).
Qed.

End NumberOfFixed.

Section ToFixedFacts.
Context {RT : Runtime} (OK : RuntimeOK RT).

(** The shape of [x.toFixed(f)] below 10^21, for [f > 0]: a sign, at least one
    digit, the point, and [f] digits; the digits are those of the rounded
    scaled value. *)
Lemma toFixed_shape (f : nat) (q : Q) :
  (0 < f)%nat -> Qle_bool (inject_Z (10 ^ 21)) (Qabs q) = false ->
  exists a b : string,
    toFixed f (Fin q) = (if Qle_bool 0 q then EmptyString else "-") ++ a ++ String "." b /\
    allChars isDigit a = true /\ allChars isDigit b = true /\ truthy a = true /\
    String.length b = f /\
    digitsIn 10 0 (a ++ b)
    = Some (Z.to_N (Qfloor (Qabs q * inject_Z (10 ^ Z.of_nat f) + (1 # 2))%Q)).
Proof.
  intros Hf Hbig. unfold toFixed. rewrite Hbig.
  set (n := Qfloor (Qabs q * inject_Z (10 ^ Z.of_nat f) + (1 # 2))%Q).
  assert (Hn : (0 <= n)%Z).
  { change 0%Z with (Qfloor 0). apply Qfloor_resp_le.
    assert (P : (0 <= inject_Z (10 ^ Z.of_nat f))%Q).
    { rewrite <- (Zle_Qle 0). apply Z.pow_nonneg. lia. }
    pose proof (Qabs_nonneg q) as A.
    pose proof (Qmult_le_0_compat _ _ A P). lra. }
  destruct f as [|f]; [lia|]. cbn [Nat.eqb]. cbv zeta.
  rewrite Z_toString_eq. destruct (Z.ltb_spec n 0) as [Hlt|_]; [lia|].
  set (m := absDigits n).
  set (m' := if (String.length m <=? S f)%nat then zeros (S f + 1 - String.length m) ++ m else m).
  assert (Hd : allChars isDigit m' = true).
  { subst m'. destruct (_ <=? _)%nat; [|apply absDigits_digits].
    rewrite allChars_app, zeros_digits. apply absDigits_digits. }
  assert (Hv : digitsIn 10 0 m' = Some (Z.to_N n)).
  { subst m'. destruct (_ <=? _)%nat; rewrite ?digitsIn_zeros; subst m;
      rewrite absDigits_value; f_equal; lia. }
  assert (Hl : (S f < String.length m')%nat).
  { subst m'. destruct (Nat.leb_spec (String.length m) (S f)) as [L|L]; [|exact L].
    rewrite length_app_string, length_zeros. lia. }
  exists (firstChars (String.length m' - S f) m'), (substringFrom (String.length m' - S f) m').
  split; [reflexivity|].
  split; [now apply allChars_firstChars|].
  split; [now apply allChars_substringFrom|].
  split; [apply truthy_firstChars; [lia | destruct m'; [simpl in Hl; lia | reflexivity]]|].
  split; [rewrite length_substringFrom; lia|].
  now rewrite firstChars_substringFrom.
Qed.

(** Reading back a coordinate printed with five decimals. *)
Lemma fixed_roundtrip (x : Q) :
  (-180 <= x <= 180)%Q ->
  exists y : Q,
    Number (toFixed 5 (Fin x)) = Fin y /\ (Qabs (y - x) <= 1 # 100000)%Q /\
    allChars numericChar (toFixed 5 (Fin x)) = true.
Proof.
  intro Hx.
  assert (Ha : (0 <= Qabs x <= 180)%Q).
  { split; [apply Qabs_nonneg | apply Qabs_bound; lra]. }
  destruct (toFixed_shape 5 x) as (a & b & E & Da & Db & Ta & Lb & V); [lia| |].
  { destruct (Qle_bool _ _) eqn:B; [|reflexivity].
    apply Qle_bool_iff in B.
    change (inject_Z (10 ^ 21)) with (1000000000000000000000 # 1)%Q in B. lra. }
  change (inject_Z (10 ^ Z.of_nat 5)) with (100000 # 1)%Q in V.
  set (n := Qfloor (Qabs x * (100000 # 1) + (1 # 2))%Q) in V.
  pose proof (round_bounds (Qabs x * (100000 # 1))) as Hn. fold n in Hn.
  assert (HnZ : (0 <= n <= 18000001)%Z).
  { assert (L : (-1 < inject_Z n <= 18000001)%Q) by lra.
    destruct L as [L U]. unfold Qlt in L. unfold Qle in U. simpl in L, U. lia. }
  assert (Hc : allChars numericChar (toFixed 5 (Fin x)) = true).
  { rewrite E, !allChars_app.
    change (allChars numericChar (String "." b)) with (allChars numericChar b).
    rewrite (digit_numeric a Da), (digit_numeric b Db). now destruct (Qle_bool 0 x). }
  enough (G : exists y : Q,
             Number (toFixed 5 (Fin x)) = Fin y /\ (Qabs (y - x) <= 1 # 100000)%Q)
    by (destruct G as (y & G1 & G2); exists y; auto).
  rewrite E.
  replace (if Qle_bool 0 x then EmptyString else "-")
    with (if negb (Qle_bool 0 x) then "-" else EmptyString) by (now destruct (Qle_bool 0 x)).
  rewrite (Number_point _ a b _ Da Db Ta V). rewrite Lb. cbv zeta.
  rewrite Z2N.id by lia.
  change ((10 # 1) ^ (0 - Z.of_nat 5))%Q with (1 # 100000)%Q.
  destruct (Qle_bool 0 x) eqn:S; cbn [negb].
  - apply Qle_bool_iff in S. pose proof (Qabs_pos x S) as P.
    destruct (fl_err RT OK (inject_Z n * (1 # 100000))%Q) as (y & Ey & By).
    { rewrite maxSafe_eq. apply Qabs_bound. lra. }
    exists y. split; [exact Ey|].
    assert (A : (Qabs (inject_Z n * (1 # 100000)) <= 181)%Q) by (apply Qabs_bound; lra).
    assert (B' : (Qabs (y - inject_Z n * (1 # 100000)) <= 182 * eps)%Q).
    { eapply Qle_trans; [exact By|]. rewrite eps_eq. lra. }
    apply Qabs_unbound in B'. rewrite eps_eq in B'. apply Qabs_bound. lra.
  - assert (S' : (x <= 0)%Q).
    { apply Qnot_lt_le. intro C. apply Qlt_le_weak in C. apply Qle_bool_iff in C. congruence. }
    pose proof (Qabs_neg x S') as P.
    destruct (fl_err RT OK (- (inject_Z n * (1 # 100000)))%Q) as (y & Ey & By).
    { rewrite maxSafe_eq. apply Qabs_bound. lra. }
    exists y. split; [exact Ey|].
    assert (A : (Qabs (- (inject_Z n * (1 # 100000))) <= 181)%Q) by (apply Qabs_bound; lra).
    assert (B' : (Qabs (y - - (inject_Z n * (1 # 100000))) <= 182 * eps)%Q).
    { eapply Qle_trans; [exact By|]. rewrite eps_eq. lra. }
    apply Qabs_unbound in B'. rewrite eps_eq in B'. apply Qabs_bound. lra.
Qed.

End ToFixedFacts.

Example toFixed_examples :
  @toFixed engine 5 (Fin 40.7128) = "40.71280" /\
  @toFixed engine 5 (Fin (-74.006)) = "-74.00600" /\
  @toFixed engine 5 (Fin 0) = "0.00000" /\
  @toFixed engine 5 (Fin (-0.000001)) = "-0.00000" /\
  @toFixed engine 5 (Fin 0.000005) = "0.00001" /\
  @toFixed engine 5 (Fin 123456.5) = "123456.50000" /\
  @toFixed engine 0 (Fin 2.5) = "3" /\
  @toFixed engine 5 NaN = "NaN".
Proof. repeat split. Qed.

Section SlashFragment.
Context {RT : Runtime}.

(** A fragment of three parts between slashes is read by the first branch,
    part by part. *)
Lemma parseHash_slashes (a b c : string) (st : MapState.t) :
  mem "/" a = false -> mem "/" b = false -> mem "/" c = false ->
  parseHash (a ++ "/" ++ b ++ "/" ++ c) st =
  if (negb (isNaN (Number a)) && negb (isNaN (Number b)) && negb (isNaN (Number c)))%bool
  then MapState.setPosition (Number a) (Number b) (Number c) st else st.
Proof.
  intros Sa Sb Sc. unfold parseHash.
  set (hash := a ++ "/" ++ b ++ "/" ++ c).
  assert (Ht : truthy hash = true) by (subst hash; now destruct a).
  assert (Hi : includes "/" hash = true).
  { rewrite includes_char. subst hash. rewrite mem_app. simpl. now rewrite orb_true_r. }
  rewrite Ht, Hi. subst hash.
  change (a ++ "/" ++ b ++ "/" ++ c) with (a ++ String "/" (b ++ String "/" c)).
  rewrite (split_app "/" a _ Sa), (split_app "/" b _ Sb), (split_no_sep "/" c Sc).
  reflexivity.
Qed.

(** The position that the earlier [parseUrlState] returns: the one the
    present decoder finds when the fragment holds a slash, and none
    otherwise. *)
Lemma Legacy_position (u : URL) :
  positionOf (Legacy.parseUrlState u)
  = if includes "/" (substringFrom 1 (location_hash u))
    then positionOf (parseUrlState u)
    else (None, None, None).
Proof.
  rewrite positionOf_parseUrlState. unfold Legacy.parseUrlState.
  set (hash := substringFrom 1 (location_hash u)).
  set (state := if truthy hash then _ else _).
  assert (E : positionOf state
              = if includes "/" hash then positionOf (parseHash hash MapState.empty)
                else (None, None, None)).
  { subst state. unfold parseHash.
    destruct (truthy hash) eqn:Ht.
    - destruct (includes "/" hash) eqn:Hi; [reflexivity|].
      rewrite includes_char in Hi. now rewrite (split_no_sep "/" hash Hi).
    - destruct (includes "/" hash); reflexivity. }
  cbv zeta. destruct (URLSearchParams.get "id" _) as [c|]; [|exact E].
  destruct (truthy c); exact E.
Qed.

Lemma Legacy_cellId (u : URL) :
  MapState.cellId (Legacy.parseUrlState u)
  = match URLSearchParams.get "id" (URLSearchParams.parse (location_search u)) with
    | Some c => if truthy c then Some c else None
    | None => None
    end.
Proof.
  unfold Legacy.parseUrlState. cbv zeta.
  set (state := if truthy _ then _ else _).
  assert (E : MapState.cellId state = None).
  { subst state. destruct (truthy _); [|reflexivity].
    destruct (_ =? _)%nat; [|reflexivity].
    destruct (List.map Number _) as [|z [|la [|ln [|x r]]]]; try reflexivity.
    destruct (_ && _)%bool; reflexivity. }
  destruct (URLSearchParams.get "id" _) as [c|]; [|exact E].
  destruct (truthy c); [reflexivity | exact E].
Qed.

End SlashFragment.

(** X9.  The present decoder extends the earlier one.  On every URL the
    earlier [parseUrlState] returns a position only when the fragment holds a
    slash, and then it is the position the present [parseUrlState] returns;
    and the cell identifier of the present decoder is the trimmed one of the
    earlier decoder. *)
Theorem present_decoder_extends_earlier {RT : Runtime} (u : URL) :
  positionOf (Legacy.parseUrlState u)
  = (if includes "/" (substringFrom 1 (location_hash u))
     then positionOf (parseUrlState u)
     else (None, None, None)) /\
  MapState.cellId (parseUrlState u)
  = option_map trim (MapState.cellId (Legacy.parseUrlState u)).
Proof.
  split; [apply Legacy_position|].
  rewrite parseUrlState_cellId, Legacy_cellId.
  destruct (URLSearchParams.get "id" _) as [c|]; [|reflexivity].
  destruct (truthy c); reflexivity.
Qed.

Section LegacyLinks.
Context {RT : Runtime} (OK : RuntimeOK RT).

Lemma fragment_Legacy_updateUrlState (z la ln : num) (cid : option string) (loc : URL) :
  fragment (Legacy.updateUrlState
              {| MapState.zoom := Some z; MapState.lat := Some la;
                 MapState.lng := Some ln; MapState.cellId := cid |} loc)
  = Some (toString z ++ "/" ++ toFixed 5 la ++ "/" ++ toFixed 5 ln).
Proof.
  unfold Legacy.updateUrlState. cbn [MapState.zoom MapState.lat MapState.lng MapState.cellId].
  cbv zeta. destruct cid as [c|]; [|reflexivity].
  destruct (truthy c); reflexivity.
Qed.

Lemma slashes_position (zoom : Z) (la ln : Q) (u : URL) :
  (0 <= zoom <= 22)%Z -> (-90 <= la <= 90)%Q -> (-180 <= ln <= 180)%Q ->
  fragment u = Some (toString (Fin (inject_Z zoom)) ++ "/" ++ toFixed 5 (Fin la)
                     ++ "/" ++ toFixed 5 (Fin ln)) ->
  includes "/" (substringFrom 1 (location_hash u)) = true /\
  exists z' la' ln' : Q,
    positionOf (parseUrlState u) = (Some (Fin z'), Some (Fin la'), Some (Fin ln')) /\
    (z' == inject_Z zoom)%Q /\
    (Qabs (la' - la) <= 1 # 100000)%Q /\
    (Qabs (ln' - ln) <= 1 # 100000)%Q.
Proof.
  intros Hz Hla Hln F.
  destruct (fixed_roundtrip OK la) as (la' & E1 & B1 & C1); [lra|].
  destruct (fixed_roundtrip OK ln) as (ln' & E2 & B2 & C2); [lra|].
  destruct (Number_Z_toString zoom) as (q & Eq & Hq).
  destruct (fl_int RT OK q zoom Hq) as (z' & Ez & Hz').
  { unfold maxSafe. lia. }
  rewrite toString_integer in F by (unfold maxSafe; lia).
  set (hash := Z_toString zoom ++ "/" ++ toFixed 5 (Fin la) ++ "/" ++ toFixed 5 (Fin ln)) in F.
  assert (Ht : truthy hash = true) by (subst hash; now destruct (Z_toString zoom)).
  assert (Hh : substringFrom 1 (location_hash u) = hash).
  { unfold location_hash. now rewrite F, Ht. }
  split.
  - rewrite Hh, includes_char. subst hash. rewrite mem_app. simpl. now rewrite orb_true_r.
  - exists z', la', ln'. rewrite positionOf_parseUrlState, Hh. subst hash.
    rewrite parseHash_slashes
      by (apply numeric_no_slash; first [apply Z_toString_chars | assumption]).
    rewrite Eq, Ez, E1, E2. cbn [isNaN negb andb].
    split; [reflexivity|]. split; [now rewrite Hz', Hq|]. split; assumption.
Qed.

End LegacyLinks.

(** X10.  Addresses written by the earlier hook still decode.  For a zoom in
    [0,22], a latitude in [-90,90] and a longitude in [-180,180], the URL that
    the earlier [updateUrlState] writes (zoom, then latitude and longitude with
    five decimals, between slashes) is decoded by the present [parseUrlState],
    and by the earlier one, to the same zoom and to the latitude and the
    longitude within 1e-5. *)
Theorem earlier_links_still_decode {RT : Runtime} (OK : RuntimeOK RT)
    (zoom : Z) (la ln : Q) (cid : option string) (loc : URL) :
  (0 <= zoom <= 22)%Z -> (-90 <= la <= 90)%Q -> (-180 <= ln <= 180)%Q ->
  let written :=
    Legacy.updateUrlState {| MapState.zoom := Some (Fin (inject_Z zoom));
                             MapState.lat := Some (Fin la);
                             MapState.lng := Some (Fin ln);
                             MapState.cellId := cid |} loc in
  exists z' la' ln' : Q,
    positionOf (parseUrlState written) = (Some (Fin z'), Some (Fin la'), Some (Fin ln')) /\
    positionOf (Legacy.parseUrlState written) = (Some (Fin z'), Some (Fin la'), Some (Fin ln')) /\
    (z' == inject_Z zoom)%Q /\
    (Qabs (la' - la) <= 1 # 100000)%Q /\
    (Qabs (ln' - ln) <= 1 # 100000)%Q.
Proof.
  intros Hz Hla Hln written.
  destruct (slashes_position OK zoom la ln written Hz Hla Hln) as (Hi & z' & la' & ln' & P & B).
  { apply fragment_Legacy_updateUrlState. }
  exists z', la', ln'. split; [exact P|]. split; [|exact B].
  now rewrite Legacy_position, Hi.
Qed.

Lemma earlier_links_still_decode_witness :
  RuntimeOK engine /\
  (0 <= 15 <= 22)%Z /\ (-90 <= 40.7128 <= 90)%Q /\ (-180 <= -74.006 <= 180)%Q /\
  let written :=
    @Legacy.updateUrlState engine
      {| MapState.zoom := Some (Fin (inject_Z 15));
         MapState.lat := Some (Fin 40.7128);
         MapState.lng := Some (Fin (-74.006));
         MapState.cellId := None |} exampleUrl in
  exists z' la' ln' : Q,
    positionOf (@parseUrlState engine written) = (Some (Fin z'), Some (Fin la'), Some (Fin ln')) /\
    positionOf (@Legacy.parseUrlState engine written)
    = (Some (Fin z'), Some (Fin la'), Some (Fin ln')) /\
    (z' == inject_Z 15)%Q /\
    (Qabs (la' - 40.7128) <= 1 # 100000)%Q /\
    (Qabs (ln' - -74.006) <= 1 # 100000)%Q.
Proof.
  split; [exact engine_ok|].
  split; [lia|]. split; [lra|]. split; [lra|].
  apply (@earlier_links_still_decode engine engine_ok 15 40.7128 (-74.006) None exampleUrl);
    [lia | lra | lra].
Defined.

Example earlier_update_example :
  fragment (@Legacy.updateUrlState engine
              {| MapState.zoom := Some (Fin 15);
                 MapState.lat := Some (Fin 40.7128);
                 MapState.lng := Some (Fin (-74.006));
                 MapState.cellId := None |} exampleUrl)
  = Some "15/40.71280/-74.00600".
Proof. reflexivity. Qed.

(** ** The view that the container takes from the fragment *)

Lemma restoreFromHash_eq {RT : Runtime} (hash : string) :
  restoreFromHash hash
  = match positionOf (parseHash hash MapState.empty) with
    | (Some zoom, Some la, Some ln) => Some (la, ln, zoom)
    | _ => None
    end.
Proof.
  unfold restoreFromHash, parseHash, positionOf.
  destruct (truthy hash); [|reflexivity].
  destruct (includes "/" hash).
  - destruct (_ =? _)%nat; [|reflexivity].
    destruct (List.map Number _) as [|z [|la [|ln [|x r]]]]; try reflexivity.
    cbn [isNaN_or_undefined]. destruct (_ && _)%bool; reflexivity.
  - destruct (startsWith "map_" hash); [|reflexivity].
    destruct (_ =? _)%nat; [|reflexivity].
    cbv zeta. cbn [isNaN_or_undefined]. destruct (_ && _)%bool; reflexivity.
Qed.

(** X11.  The container and the hook read the fragment alike: on every
    address, the container moves the view from the fragment exactly when
    [parseUrlState] finds a position, and to that position. *)
Theorem restore_agrees_with_decoder {RT : Runtime} (u : URL) :
  restoreFromHash (substringFrom 1 (location_hash u))
  = match positionOf (parseUrlState u) with
    | (Some zoom, Some la, Some ln) => Some (la, ln, zoom)
    | _ => None
    end.
Proof. rewrite positionOf_parseUrlState. apply restoreFromHash_eq. Qed.

(** ** What the loader returns *)

Lemma nat_toString_inj (a b : nat) : nat_toString a = nat_toString b -> a = b.
Proof.
  unfold nat_toString. intro H.
  assert (N : forall n, Nat.to_uint n <> Nil).
  { intros n E. pose proof (DecimalNat.Unsigned.of_to n) as O. rewrite E in O.
    simpl in O. subst n. discriminate E. }
  apply (f_equal NilZero.uint_of_string) in H.
  rewrite !NilZero.usu in H by apply N.
  injection H as H. now apply DecimalNat.Unsigned.to_uint_inj.
Qed.

Lemma pointId_inj (a b : nat) : pointId a = pointId b -> a = b.
Proof. unfold pointId. intro H. injection H as H. now apply nat_toString_inj. Qed.

Lemma pointOfFeature_some (i : nat) (f : JSON) (p : SurveyPoint JSON) :
  pointOfFeature i f = Ok (Some p) ->
  id p = pointId i /\ isFiniteNum (lat p) = true /\ isFiniteNum (lng p) = true /\
  JS.isPointType (JS.optProp "type" (JS.prop "geometry" f)) = true.
Proof.
  unfold pointOfFeature.
  destruct (JS.isPointType _); [|discriminate]. cbn [negb].
  destruct (JS.destructure2 _) as [[ln la]|e]; [|discriminate].
  destruct (JS.isFinite la) eqn:Fa; [|discriminate].
  destruct (JS.isFinite ln) eqn:Fn; [|discriminate]. cbn [andb].
  destruct la as [[| | la | | |]|]; try discriminate.
  destruct ln as [[| | ln | | |]|]; try discriminate.
  intro H. injection H as <-. cbn [id lat lng]. auto.
Qed.

Lemma forEachFeature_ok (fs : list JSON) :
  forall (i : nat) (acc pts : list (SurveyPoint JSON)),
    forEachFeature i fs acc = Ok pts ->
    exists (new : list (SurveyPoint JSON)) (js : list nat),
      pts = (acc ++ new)%list /\
      (List.length new <= List.length fs)%nat /\
      StronglySorted lt js /\
      Forall (fun j => (i <= j)%nat) js /\
      Forall2 (fun p j => exists f, nth_error fs (j - i) = Some f /\
                                    pointOfFeature j f = Ok (Some p)) new js.
Proof.
  induction fs as [|f r IH]; intros i acc pts H; simpl in H.
  - injection H as <-. exists [], []. rewrite app_nil_r. repeat split; constructor.
  - destruct (pointOfFeature i f) as [[p|]|e] eqn:E; [| |discriminate].
    + destruct (IH _ _ _ H) as (new & js & -> & L & S & B & F).
      exists (p :: new), (i :: js). rewrite <- app_assoc. split; [reflexivity|].
      split; [simpl; lia|]. split; [|split].
      * constructor; [exact S|]. eapply Forall_impl; [|exact B]. intros j Hj. simpl in Hj. lia.
      * constructor; [lia|]. eapply Forall_impl; [|exact B]. intros j Hj. simpl in Hj. lia.
      * constructor.
        -- exists f. rewrite Nat.sub_diag. split; [reflexivity | exact E].
        -- clear - B F. induction F as [|q j new js (g & G1 & G2) F IHF]; constructor.
           ++ exists g. split; [|exact G2]. inversion B; subst.
              replace (j - i)%nat with (S (j - S i)) by lia. exact G1.
           ++ apply IHF. now inversion B.
    + destruct (IH _ _ _ H) as (new & js & -> & L & S & B & F).
      exists new, js. split; [reflexivity|]. split; [simpl; lia|]. split; [exact S|]. split.
      * eapply Forall_impl; [|exact B]. intros j Hj. simpl in Hj. lia.
      * clear - B F. induction F as [|q j new js (g & G1 & G2) F IHF]; constructor.
        -- exists g. split; [|exact G2]. inversion B; subst.
           replace (j - i)%nat with (S (j - S i)) by lia. exact G1.
        -- apply IHF. now inversion B.
Qed.

Lemma sorted_NoDup (js : list nat) : StronglySorted lt js -> NoDup js.
Proof.
  induction 1 as [|j js S IH F]; constructor; [|exact IH].
  intro I. rewrite Forall_forall in F. specialize (F j I). lia.
Qed.

Lemma NoDup_map_inj {A B : Type} (f : A -> B) (l : list A) :
  (forall a b, f a = f b -> a = b) -> NoDup l -> NoDup (List.map f l).
Proof.
  intros Hf. induction 1 as [|a l N D IH]; simpl; constructor; [|exact IH].
  intro I. apply in_map_iff in I as (b & E & I). apply Hf in E. now subst b.
Qed.

Lemma pointsOfGeoJSON_ok (gj : JSON) (points : list (SurveyPoint JSON)) :
  pointsOfGeoJSON gj = Ok points ->
  exists features : list JSON,
    JS.prop "features" gj = Some (JArray features) /\
    (List.length points <= List.length features)%nat /\
    NoDup (List.map id points) /\
    forall p : SurveyPoint JSON,
      In p points ->
      isFiniteNum (lat p) = true /\ isFiniteNum (lng p) = true /\
      exists (i : nat) (f : JSON),
        nth_error features i = Some f /\ id p = pointId i /\
        JS.isPointType (JS.optProp "type" (JS.prop "geometry" f)) = true /\
        pointOfFeature i f = Ok (Some p).
Proof.
  unfold pointsOfGeoJSON.
  destruct (JS.prop "features" gj) as [[| | | |features|]|]; try discriminate.
  intro H. exists features. split; [reflexivity|].
  destruct (forEachFeature_ok features 0 [] points H) as (new & js & -> & L & S & B & F).
  change ([] ++ new)%list with new. split; [exact L|].
  assert (M : List.map id new = List.map pointId js).
  { clear - F. induction F as [|q j new js (g & G1 & G2) F IHF]; [reflexivity|].
    simpl. rewrite IHF. f_equal. now destruct (pointOfFeature_some j g q G2). }
  split.
  - rewrite M. apply NoDup_map_inj; [apply pointId_inj | now apply sorted_NoDup].
  - intros p I. clear - F I.
    induction F as [|q j new js (g & G1 & G2) F IHF]; [destruct I|].
    destruct I as [<-|I]; [|now apply IHF].
    destruct (pointOfFeature_some j g q G2) as (Hid & Hla & Hln & Hp).
    rewrite Nat.sub_0_r in G1. split; [exact Hla|]. split; [exact Hln|].
    exists j, g. auto.
Qed.

(** X12.  What [loadGeoJSONData] returns when it returns.  The response was
    successful, its text does not start with [<] and was parsed to a dataset
    with a [features] array; there are at most as many points as features;
    every point comes from a feature with a Point geometry, has a finite
    latitude and a finite longitude, and is named [point_<i>] after the index
    [i] of its feature; and no two points have the same name. *)
Theorem loaded_points_are_sound (JSON_parse : string -> option JSON) (response : Response)
    (points : list (SurveyPoint JSON)) :
  loadGeoJSONData JSON_parse response = Ok points ->
  ok response = true /\ startsWith "<" (trim (text response)) = false /\
  exists (gj : JSON) (features : list JSON),
    JSON_parse (text response) = Some gj /\
    JS.prop "features" gj = Some (JArray features) /\
    (List.length points <= List.length features)%nat /\
    NoDup (List.map id points) /\
    forall p : SurveyPoint JSON,
      In p points ->
      isFiniteNum (lat p) = true /\ isFiniteNum (lng p) = true /\
      exists (i : nat) (f : JSON),
        nth_error features i = Some f /\ id p = pointId i /\
        JS.isPointType (JS.optProp "type" (JS.prop "geometry" f)) = true /\
        pointOfFeature i f = Ok (Some p).
Proof.
  unfold loadGeoJSONData.
  destruct (ok response); [|discriminate]. cbn [negb].
  destruct (startsWith "<" _); [discriminate|].
  destruct (JSON_parse _) as [gj|]; [|discriminate].
  intro H. split; [reflexivity|]. split; [reflexivity|].
  destruct (pointsOfGeoJSON_ok gj points H) as (features & P).
  exists gj, features. split; [reflexivity | exact P].
Qed.

Lemma loaded_points_are_sound_witness :
  let gj := featureCollection
              [feature "A1" (JArray [JNumber (Fin 46.6753); JNumber (Fin 24.7136)])] in
  let JSON_parse := fun _ : string => Some gj in
  let response := {| ok := true; text := "{}" |} in
  let points := [{| id := "point_0"; lat := Fin 24.7136; lng := Fin 46.6753;
                    cell_id := JString "A1" |}] in
  loadGeoJSONData JSON_parse response = Ok points /\
  ok response = true /\ startsWith "<" (trim (text response)) = false /\
  exists (gj : JSON) (features : list JSON),
    JSON_parse (text response) = Some gj /\
    JS.prop "features" gj = Some (JArray features) /\
    (List.length points <= List.length features)%nat /\
    NoDup (List.map id points) /\
    forall p : SurveyPoint JSON,
      In p points ->
      isFiniteNum (lat p) = true /\ isFiniteNum (lng p) = true /\
      exists (i : nat) (f : JSON),
        nth_error features i = Some f /\ id p = pointId i /\
        JS.isPointType (JS.optProp "type" (JS.prop "geometry" f)) = true /\
        pointOfFeature i f = Ok (Some p).
Proof.
  cbv zeta. split; [reflexivity|].
  exact (loaded_points_are_sound
           (fun _ : string =>
              Some (featureCollection
                      [feature "A1" (JArray [JNumber (Fin 46.6753); JNumber (Fin 24.7136)])]))
           {| ok := true; text := "{}" |}
           [{| id := "point_0"; lat := Fin 24.7136; lng := Fin 46.6753;
               cell_id := JString "A1" |}] eq_refl).
Defined.

(** ** Suggestions and the search they lead to *)

(** On ASCII text the lower-case form of a text put together is put together
    from the lower-case forms. *)
Lemma toLowerCase_app (a b : string) :
  isAscii a = true -> isAscii b = true ->
  toLowerCase (a ++ b) = toLowerCase a ++ toLowerCase b.
Proof. intros _ _. induction a as [|c a IH]; simpl; [reflexivity | now rewrite IH]. Qed.

Lemma includesIgnoringCase_truthy (q s : string) :
  includesIgnoringCase q s = true -> truthy q = true -> truthy s = true.
Proof. destruct s; [now destruct q | reflexivity]. Qed.

Lemma equalIgnoringCase_refl (s : string) : equalIgnoringCase s s = true.
Proof. rewrite <- equalIgnoringCase_toLowerCase. apply String.eqb_refl. Qed.

(** Among points whose cell identifiers are all texts, the lookup finds a
    point as soon as one matches. *)
Lemma find_of_match (cellId : string) (points : list (SurveyPoint JSON))
    (p : SurveyPoint JSON) :
  (forall p', In p' points -> cellIdText p' <> None) ->
  In p points -> matchesExactly cellId p = true ->
  exists (p' : SurveyPoint JSON) (t : string),
    JS.find (sameCellId cellId) points = Ok (Some p') /\
    cell_id p' = JString t /\ toLowerCase t = toLowerCase cellId.
Proof.
  intros Ht Hp Hm.
  destruct (find_sameCellId cellId points) as (i & Hbefore & Hi).
  destruct (JS.find (sameCellId cellId) points) as [[p'|]|e].
  - destruct Hi as [_ Hm'].
    unfold matchesExactly, cellIdText in Hm'.
    destruct (cell_id p') as [| | |t| |] eqn:E; try discriminate Hm'.
    exists p', t. split; [reflexivity|]. split; [exact E|].
    rewrite <- equalIgnoringCase_toLowerCase in Hm'. now apply String.eqb_eq in Hm'.
  - exfalso. subst i. apply In_nth_error in Hp as [j Hj].
    assert (Hlt : (j < List.length points)%nat)
      by (apply nth_error_Some; congruence).
    destruct (Hbefore j p Hlt Hj) as [_ N]. congruence.
  - exfalso. destruct Hi as [_ (q & Hq & Hn)].
    apply nth_error_In in Hq. now elim (Ht q Hq).
Qed.

Lemma In_firstn {A : Type} (n : nat) (l : list A) (x : A) : In x (firstn n l) -> In x l.
Proof.
  revert l. induction n as [|n IH]; intros [|a l]; simpl; try tauto.
  intros [H|H]; [now left | right; now apply IH].
Qed.

Lemma In_shown_suggestions (g : string -> result (list string)) (value s : string)
    (box shown : SearchBox) :
  handleInputChange g value box = (shown, None) ->
  In s (suggestions shown) ->
  truthy (trim value) = true /\ exists all, g (trim value) = Ok all /\ In s all.
Proof.
  unfold handleInputChange. destruct (truthy (trim value)).
  - destruct (g (trim value)) as [all|e]; [|discriminate].
    intro H. injection H as <-. intro Hs.
    split; [reflexivity|]. exists all. split; [reflexivity|].
    exact (In_firstn 5 all s Hs).
  - intro H. injection H as <-. intros [].
Qed.

Section SearchOutcome.
Context {RT : Runtime}.

(** The outcome of a search that finds its point. *)
Lemma handleSearchById_found (cellId : string) (pg : Page) (mc : MapContainer)
    (p : SurveyPoint JSON) :
  mapRef pg = Some mc -> mapReady mc = true ->
  JS.find (sameCellId (trim cellId)) (surveyPoints mc) = Ok (Some p) ->
  handleSearchById cellId pg
  = (true,
     {| isSearching := false;
        searchError := None;
        mapRef := Some {| surveyPoints := surveyPoints mc;
                          mapReady := mapReady mc;
                          commands := commands mc ++
                                      [FlyTo (lat p) (lng p) 16 (12 # 10);
                                       Highlight 1200 (lat p) (lng p) 1800] |};
        location := updateUrlState (MapState.setCellId (trim cellId) MapState.empty)
                                   (location pg) |}).
Proof.
  intros Hm Hr Hf. unfold handleSearchById, searchAndFlyTo. now rewrite Hm, Hf, Hr.
Qed.

Lemma cellId_after_search (c : string) (u : URL) :
  truthy c = true ->
  MapState.cellId (parseUrlState (updateUrlState (MapState.setCellId c MapState.empty) u))
  = Some (trim c).
Proof.
  intro Ht. rewrite parseUrlState_cellId. unfold updateUrlState.
  cbn [updateHash MapState.setCellId MapState.empty MapState.zoom].
  unfold updateCellId. cbn [MapState.cellId MapState.setCellId]. rewrite Ht.
  now rewrite get_after_set, Ht.
Qed.

End SearchOutcome.

(** X13.  A suggestion that is shown can be picked.  When the handler of the
    box has returned with its list of suggestions, the widget is ready and
    the suggestion has no white space at its ends, picking it puts it in the
    box, hides the list, flies to the first point whose identifier is the
    suggestion up to letter case, clears the error and writes the suggestion
    as the cell identifier of the address.  (A list of suggestions is only
    returned when every cell identifier of the dataset is a text, so the
    lookup does not throw.) *)
Theorem picked_suggestion_is_found {RT : Runtime}
    (value s : string) (box shown : SearchBox) (pg : Page) (mc : MapContainer) :
  mapRef pg = Some mc -> mapReady mc = true ->
  handleInputChange (pageGetSuggestions pg) value box = (shown, None) ->
  In s (suggestions shown) ->
  trim s = s ->
  let box' := fst (handleSuggestionClick handleSearchById s shown pg) in
  let pg' := snd (handleSuggestionClick handleSearchById s shown pg) in
  searchQuery box' = s /\ showSuggestions box' = false /\
  fst (handleSearchById s pg) = true /\
  searchError pg' = None /\
  MapState.cellId (parseUrlState (location pg')) = Some s /\
  exists (p : SurveyPoint JSON) (t : string),
    JS.find (sameCellId s) (surveyPoints mc) = Ok (Some p) /\
    cell_id p = JString t /\ toLowerCase t = toLowerCase s /\
    mapRef pg' = Some {| surveyPoints := surveyPoints mc;
                         mapReady := true;
                         commands := commands mc ++
                                     [FlyTo (lat p) (lng p) 16 (12 # 10);
                                      Highlight 1200 (lat p) (lng p) 1800] |}.
Proof.
  intros Hm Hr Hshown Hs Htrim. cbv zeta.
  destruct (In_shown_suggestions _ _ _ _ _ Hshown Hs) as (Hv & all & Hall & Hin).
  unfold pageGetSuggestions in Hall. rewrite Hm in Hall.
  destruct (In_getSuggestions s (trim value) mc all Hall) as [Hiff Htexts].
  apply Hiff in Hin as (Hblank & p & Hp & Hc & Hi).
  specialize (Htexts Hblank).
  assert (Ht : truthy s = true).
  { unfold matchesInside, cellIdText in Hi. rewrite Hc in Hi.
    apply (includesIgnoringCase_truthy _ _ Hi). exact Hv. }
  assert (Hmatch : matchesExactly s p = true).
  { unfold matchesExactly, cellIdText. rewrite Hc. apply equalIgnoringCase_refl. }
  destruct (find_of_match s (surveyPoints mc) p Htexts Hp Hmatch) as (p' & t & Hf & Ec & El).
  pose proof Hf as Hf'. rewrite <- Htrim in Hf'.
  unfold handleSuggestionClick. rewrite (handleSearchById_found s pg mc p' Hm Hr Hf').
  cbn [fst snd searchQuery showSuggestions searchError location mapRef].
  do 4 (split; [reflexivity|]). split.
  - rewrite Htrim. rewrite cellId_after_search by exact Ht. now rewrite Htrim.
  - exists p', t. split; [exact Hf|]. split; [exact Ec|]. split; [exact El|]. now rewrite Hr.
Qed.

Lemma picked_suggestion_is_found_witness :
  let box := {| searchQuery := EmptyString; suggestions := []; showSuggestions := false |} in
  let shown := {| searchQuery := "a2"; suggestions := ["A23"]; showSuggestions := true |} in
  let box' := fst (handleSuggestionClick (@handleSearchById engine) "A23" shown examplePage) in
  let pg' := snd (handleSuggestionClick (@handleSearchById engine) "A23" shown examplePage) in
  mapRef examplePage = Some exampleContainer /\ mapReady exampleContainer = true /\
  handleInputChange (pageGetSuggestions examplePage) "a2" box = (shown, None) /\
  In "A23" (suggestions shown) /\ trim "A23" = "A23" /\
  searchQuery box' = "A23" /\ showSuggestions box' = false /\
  fst (@handleSearchById engine "A23" examplePage) = true /\
  searchError pg' = None /\
  MapState.cellId (@parseUrlState engine (location pg')) = Some "A23" /\
  exists (p : SurveyPoint JSON) (t : string),
    JS.find (sameCellId "A23") (surveyPoints exampleContainer) = Ok (Some p) /\
    cell_id p = JString t /\ toLowerCase t = toLowerCase "A23" /\
    mapRef pg' = Some {| surveyPoints := surveyPoints exampleContainer;
                         mapReady := true;
                         commands := commands exampleContainer ++
                                     [FlyTo (lat p) (lng p) 16 (12 # 10);
                                      Highlight 1200 (lat p) (lng p) 1800] |}.
Proof.
  cbv zeta. do 3 (split; [reflexivity|]).
  split; [left; reflexivity|]. split; [reflexivity|].
  exact (@picked_suggestion_is_found engine "a2" "A23"
           {| searchQuery := EmptyString; suggestions := []; showSuggestions := false |}
           {| searchQuery := "a2"; suggestions := ["A23"]; showSuggestions := true |}
           examplePage exampleContainer eq_refl eq_refl eq_refl (or_introl eq_refl) eq_refl).
Defined.

(** X14.  A longer query narrows the suggestions, for queries in ASCII text:
    when a query that is not blank occurs inside another query, and the
    suggestion operation returns for the longer one, it returns for the
    shorter one too, and every suggestion for the longer one is a suggestion
    for the shorter one. *)
Theorem longer_query_narrows (query pre post s : string) (mc : MapContainer)
    (long : list string) :
  isAscii query = true -> isAscii pre = true -> isAscii post = true ->
  allChars isSpace query = false ->
  getSuggestions (pre ++ query ++ post) mc = Ok long ->
  In s long ->
  exists short : list string, getSuggestions query mc = Ok short /\ In s short.
Proof.
  intros Aq Apre Apost Hq Hlong Hs.
  destruct (In_getSuggestions s _ mc long Hlong) as [Hiff Htexts].
  apply Hiff in Hs as (Hblank & p & Hp & Hc & Hi).
  specialize (Htexts Hblank).
  pose proof (getSuggestions_of_texts query mc Htexts) as Hshort. rewrite Hq in Hshort.
  eexists. split; [exact Hshort|].
  apply (In_getSuggestions s query mc _ Hshort). split; [exact Hq|].
  exists p. split; [exact Hp|]. split; [exact Hc|].
  unfold matchesInside, cellIdText in Hi |- *. rewrite Hc in Hi |- *.
  rewrite <- includesIgnoringCase_toLowerCase in Hi |- *.
  apply includes_iff in Hi as (a & b & Hi). apply includes_iff.
  exists (a ++ toLowerCase pre), (toLowerCase post ++ b).
  assert (Aqp : isAscii (query ++ post) = true).
  { unfold isAscii in *. now rewrite allChars_app, Aq, Apost. }
  rewrite Hi, (toLowerCase_app pre _ Apre Aqp), (toLowerCase_app query post Aq Apost).
  now rewrite !string_app_assoc.
Qed.

Lemma longer_query_narrows_witness :
  isAscii "2" = true /\ isAscii "a" = true /\ isAscii "3" = true /\
  allChars isSpace "2" = false /\
  getSuggestions ("a" ++ "2" ++ "3") exampleContainer = Ok ["A23"] /\
  In "A23" ["A23"] /\
  exists short : list string, getSuggestions "2" exampleContainer = Ok short /\ In "A23" short.
Proof.
  do 5 (split; [reflexivity|]). split; [left; reflexivity|].
  exact (longer_query_narrows "2" "a" "3" "A23" exampleContainer ["A23"]
           eq_refl eq_refl eq_refl eq_refl eq_refl (or_introl eq_refl)).
Defined.

(** ** When a search succeeds *)

(** X15.  [handleSearchById] succeeds exactly when the container is mounted,
    its widget is ready and the lookup of the trimmed query returns a point.
    When it fails, the address and the commands sent to the widget are as
    before; and when it fails with the container mounted, the error shown is
    [Search failed] when the lookup has thrown, and the not-found message
    otherwise, also when the point is there and only the widget is not
    ready. *)
Theorem search_succeeds_iff {RT : Runtime} (query : string) (pg : Page) :
  (fst (handleSearchById query pg) = true <->
   exists (mc : MapContainer) (p : SurveyPoint JSON),
     mapRef pg = Some mc /\ mapReady mc = true /\
     JS.find (sameCellId (trim query)) (surveyPoints mc) = Ok (Some p)) /\
  (fst (handleSearchById query pg) = false ->
   location (snd (handleSearchById query pg)) = location pg /\
   mapRef (snd (handleSearchById query pg)) = mapRef pg /\
   forall mc : MapContainer,
     mapRef pg = Some mc ->
     searchError (snd (handleSearchById query pg))
     = Some (match JS.find (sameCellId (trim query)) (surveyPoints mc) with
             | Throw _ => searchFailedMessage
             | Ok _ => notFoundMessage query
             end)).
Proof.
  unfold handleSearchById, searchAndFlyTo.
  destruct (mapRef pg) as [mc|] eqn:Hm.
  - destruct (JS.find (sameCellId (trim query)) (surveyPoints mc)) as [[p|]|e] eqn:Hf.
    + destruct (mapReady mc) eqn:Hr; cbn [negb fst snd location mapRef searchError].
      * split; [|discriminate]. split; [|reflexivity]. intros _. now exists mc, p.
      * split.
        -- split; [discriminate|]. intros (mc' & p' & E & R & _).
           injection E as <-. congruence.
        -- intros _. split; [reflexivity|]. split; [reflexivity|].
           intros mc' E. injection E as <-. now rewrite Hf.
    + cbn [negb fst snd location mapRef searchError]. split.
      * split; [discriminate|]. intros (mc' & p' & E & _ & F).
        injection E as <-. congruence.
      * intros _. split; [reflexivity|]. split; [reflexivity|].
        intros mc' E. injection E as <-. now rewrite Hf.
    + cbn [fst snd location mapRef searchError]. split.
      * split; [discriminate|]. intros (mc' & p' & E & _ & F).
        injection E as <-. congruence.
      * intros _. split; [reflexivity|]. split; [reflexivity|].
        intros mc' E. injection E as <-. now rewrite Hf.
  - cbn [fst snd]. split.
    + split; [discriminate|]. intros (mc & p & E & _). discriminate E.
    + intros _. split; [reflexivity|]. split; [exact Hm|]. intros mc E. discriminate E.
Qed.

(** ** Submitting the box *)

(** X16.  Submitting a blank query does nothing: no search is made and the box
    and the page stay as they are.  Submitting any other query searches its
    trimmed text, which leaves the same address and the same widget commands
    as a search for the text as typed; the list of suggestions is hidden only
    when the search succeeds. *)
Theorem submit_searches_trimmed_query {RT : Runtime} (box : SearchBox) (pg : Page) :
  let r := handleSubmit handleSearchById box pg in
  if truthy (trim (searchQuery box)) then
    snd r = snd (handleSearchById (trim (searchQuery box)) pg) /\
    location (snd r) = location (snd (handleSearchById (searchQuery box) pg)) /\
    mapRef (snd r) = mapRef (snd (handleSearchById (searchQuery box) pg)) /\
    searchQuery (fst r) = searchQuery box /\
    suggestions (fst r) = suggestions box /\
    showSuggestions (fst r)
    = (showSuggestions box && negb (fst (handleSearchById (searchQuery box) pg)))%bool
  else r = (box, pg).
Proof.
  cbv zeta. unfold handleSubmit.
  destruct (truthy (trim (searchQuery box))); cbn [negb]; [|reflexivity].
  assert (E : forall q,
             fst (handleSearchById (trim q) pg) = fst (handleSearchById q pg) /\
             location (snd (handleSearchById (trim q) pg))
             = location (snd (handleSearchById q pg)) /\
             mapRef (snd (handleSearchById (trim q) pg))
             = mapRef (snd (handleSearchById q pg))).
  { intro q. unfold handleSearchById. rewrite trim_idem.
    destruct (mapRef pg) as [mc|]; [|repeat split].
    destruct (searchAndFlyTo (trim q) mc) as [[[|] mc']|e]; repeat split. }
  destruct (E (searchQuery box)) as (E1 & E2 & E3). rewrite <- E1.
  destruct (handleSearchById (trim (searchQuery box)) pg) as [[|] pg'];
    cbn [fst snd searchQuery suggestions showSuggestions negb] in *.
  - repeat split; try assumption. now rewrite andb_false_r.
  - repeat split; try assumption. now rewrite andb_true_r.
Qed.

(** ** The page: the first view and the share link *)

(** X17.  A link to a position with a zero in it is not applied.  When the
    zoom, the latitude or the longitude decoded from the address is zero (a
    point on the equator or on the prime meridian, or the whole-world zoom),
    the effect run at mount leaves [currentMapState] as it is. *)
Theorem link_with_zero_is_not_applied {RT : Runtime}
    (currentMapState : FullMapState.t) (pg : Page) (q : Q) :
  (q == 0)%Q ->
  MapState.zoom (parseUrlState (location pg)) = Some (Fin q) \/
  MapState.lat (parseUrlState (location pg)) = Some (Fin q) \/
  MapState.lng (parseUrlState (location pg)) = Some (Fin q) ->
  snd (initialEffect currentMapState pg) = currentMapState.
Proof.
  intros Hq H. unfold initialEffect. cbv zeta.
  assert (F : numTruthy (Fin q) = false).
  { cbn [numTruthy]. apply Qeq_bool_iff in Hq. now rewrite Hq. }
  set (st := parseUrlState (location pg)) in *.
  destruct (match MapState.cellId st with
            | Some cellId => _
            | None => None
            end) as [c|]; [reflexivity|].
  destruct (MapState.zoom st) as [z|]; [|reflexivity].
  destruct (MapState.lat st) as [la|]; [|reflexivity].
  destruct (MapState.lng st) as [ln|]; [|reflexivity].
  destruct H as [H|[H|H]]; injection H as ->; rewrite F, ?andb_false_r; reflexivity.
Qed.

Lemma link_with_zero_is_not_applied_witness :
  let current := {| FullMapState.zoom := Fin 4; FullMapState.lat := Fin 39.8283;
                    FullMapState.lng := Fin (-98.5795); FullMapState.cellId := None |} in
  let pg := {| isSearching := false; searchError := None; mapRef := None;
               location := withFragment "map_5_0_4500000" |} in
  (0 == 0)%Q /\
  MapState.lat (@parseUrlState engine (location pg)) = Some (Fin 0) /\
  snd (@initialEffect engine current pg) = current.
Proof.
  cbv zeta. split; [reflexivity|]. split; [reflexivity|].
  exact (@link_with_zero_is_not_applied engine
           {| FullMapState.zoom := Fin 4; FullMapState.lat := Fin 39.8283;
              FullMapState.lng := Fin (-98.5795); FullMapState.cellId := None |}
           {| isSearching := false; searchError := None; mapRef := None;
              location := withFragment "map_5_0_4500000" |}
           0 (Qeq_refl 0) (or_intror (or_introl eq_refl))).
Defined.

(** X18.  The share link of the page carries the view held by the page and
    the cell identifier of the address.  For a current zoom in [0,22],
    latitude in [-90,90] and longitude in [-180,180], [getShareUrl] returns
    the text of a URL that decodes to that zoom, to the latitude and the
    longitude within 1e-5, and to the cell identifier that the address of the
    page decodes to, unless that one is empty: then the link has none. *)
Theorem page_share_link {RT : Runtime} (OK : RuntimeOK RT)
    (zoom : Z) (la ln : Q) (cid : option string) (pg : Page) :
  (0 <= zoom <= 22)%Z -> (-90 <= la <= 90)%Q -> (-180 <= ln <= 180)%Q ->
  exists u : URL,
    getShareUrl {| FullMapState.zoom := Fin (inject_Z zoom);
                   FullMapState.lat := Fin la;
                   FullMapState.lng := Fin ln;
                   FullMapState.cellId := cid |} pg = href u /\
    base u = base (location pg) /\
    (exists z' la' ln' : Q,
        positionOf (parseUrlState u) = (Some (Fin z'), Some (Fin la'), Some (Fin ln')) /\
        (z' == inject_Z zoom)%Q /\
        (Qabs (la' - la) <= 1 # 100000)%Q /\
        (Qabs (ln' - ln) <= 1 # 100000)%Q) /\
    MapState.cellId (parseUrlState u)
    = match MapState.cellId (parseUrlState (location pg)) with
      | Some c => if truthy c then Some c else None
      | None => None
      end.
Proof.
  intros Hz Hla Hln. unfold getShareUrl.
  cbn [FullMapState.zoom FullMapState.lat FullMapState.lng]. cbv zeta.
  destruct (share_link_decodes OK zoom la ln
              (MapState.cellId (parseUrlState (location pg))) (location pg) Hz Hla Hln)
    as (u & E & B & P & C & _).
  exists u. split; [exact E|]. split; [exact B|]. split; [exact P|].
  rewrite C, parseUrlState_cellId.
  destruct (URLSearchParams.get "id" _) as [c|]; [|reflexivity].
  destruct (truthy c); [|reflexivity].
  destruct (truthy (trim c)); [|reflexivity]. now rewrite trim_idem.
Qed.

Lemma page_share_link_witness :
  RuntimeOK engine /\
  (0 <= 4 <= 22)%Z /\ (-90 <= 39.8283 <= 90)%Q /\ (-180 <= -98.5795 <= 180)%Q /\
  exists u : URL,
    @getShareUrl engine {| FullMapState.zoom := Fin (inject_Z 4);
                           FullMapState.lat := Fin 39.8283;
                           FullMapState.lng := Fin (-98.5795);
                           FullMapState.cellId := None |} examplePage = href u /\
    base u = base (location examplePage) /\
    (exists z' la' ln' : Q,
        positionOf (@parseUrlState engine u) = (Some (Fin z'), Some (Fin la'), Some (Fin ln')) /\
        (z' == inject_Z 4)%Q /\
        (Qabs (la' - 39.8283) <= 1 # 100000)%Q /\
        (Qabs (ln' - -98.5795) <= 1 # 100000)%Q) /\
    MapState.cellId (@parseUrlState engine u)
    = match MapState.cellId (@parseUrlState engine (location examplePage)) with
      | Some c => if truthy c then Some c else None
      | None => None
      end.
Proof.
  split; [exact engine_ok|].
  split; [lia|]. split; [lra|]. split; [lra|].
  apply (@page_share_link engine engine_ok 4 39.8283 (-98.5795) None examplePage);
    [lia | lra | lra].
Defined.

(** ** The earlier loader *)

Lemma nat_toString_digits (n : nat) : allChars isDigit (nat_toString n) = true.
Proof.
  unfold nat_toString, NilZero.string_of_uint.
  destruct (Nat.to_uint n); try apply string_of_uint_digits. reflexivity.
Qed.

Section KMLFacts.
Context {RT : Runtime}.

Lemma pointOfPlacemark_some (i : nat) (pm : Placemark) (p : SurveyPoint string) :
  pointOfPlacemark i pm = Some p ->
  id p = pointId i /\ isNaN (lat p) = false /\ isNaN (lng p) = false /\
  truthy (cell_id p) = true /\ trim (cell_id p) = cell_id p.
Proof.
  unfold pointOfPlacemark.
  destruct (nameElement pm) as [nameText|]; [|discriminate].
  destruct (coordinatesElement pm) as [coordinatesText|]; [|discriminate].
  cbv zeta. destruct (truthy (trim coordinatesText)); [|discriminate].
  destruct (List.map Number _) as [|c0 [|c1 r]]; try discriminate.
  destruct (isNaN c0) eqn:N0; [discriminate|].
  destruct (isNaN c1) eqn:N1; [discriminate|]. cbn [negb andb].
  intro H. injection H as <-. cbn [id lat lng cell_id].
  split; [reflexivity|]. split; [exact N1|]. split; [exact N0|].
  destruct (truthy (trim nameText)) eqn:T.
  - split; [exact T | apply trim_idem].
  - split; [reflexivity|]. apply trim_no_space.
    do 6 (cbn [allChars]; apply andb_true_iff; split; [reflexivity|]).
    apply numeric_notSpace, digit_numeric, nat_toString_digits.
Qed.

Lemma forPlacemarks_ok (pms : list Placemark) :
  forall (i : nat) (acc : list (SurveyPoint string)),
    exists (new : list (SurveyPoint string)) (js : list nat),
      forPlacemarks i pms acc = (acc ++ new)%list /\
      (List.length new <= List.length pms)%nat /\
      StronglySorted lt js /\
      Forall (fun j => (i <= j)%nat) js /\
      Forall2 (fun p j => exists pm, nth_error pms (j - i) = Some pm /\
                                     pointOfPlacemark j pm = Some p) new js.
Proof.
  induction pms as [|pm r IH]; intros i acc; simpl.
  - exists [], []. rewrite app_nil_r. repeat split; constructor.
  - destruct (pointOfPlacemark i pm) as [p|] eqn:E.
    + destruct (IH (S i) (acc ++ [p])%list) as (new & js & -> & L & S & B & F).
      exists (p :: new), (i :: js). rewrite <- app_assoc. split; [reflexivity|].
      split; [simpl; lia|]. split; [|split].
      * constructor; [exact S|]. eapply Forall_impl; [|exact B]. intros j Hj. simpl in Hj. lia.
      * constructor; [lia|]. eapply Forall_impl; [|exact B]. intros j Hj. simpl in Hj. lia.
      * constructor.
        -- exists pm. rewrite Nat.sub_diag. split; [reflexivity | exact E].
        -- clear - B F. induction F as [|q j new js (g & G1 & G2) F IHF]; constructor.
           ++ exists g. split; [|exact G2]. inversion B; subst.
              replace (j - i)%nat with (S (j - S i)) by lia. exact G1.
           ++ apply IHF. now inversion B.
    + destruct (IH (S i) acc) as (new & js & -> & L & S & B & F).
      exists new, js. split; [reflexivity|]. split; [simpl; lia|]. split; [exact S|]. split.
      * eapply Forall_impl; [|exact B]. intros j Hj. simpl in Hj. lia.
      * clear - B F. induction F as [|q j new js (g & G1 & G2) F IHF]; constructor.
        -- exists g. split; [|exact G2]. inversion B; subst.
           replace (j - i)%nat with (S (j - S i)) by lia. exact G1.
        -- apply IHF. now inversion B.
Qed.

End KMLFacts.

(** X19.  What the earlier loader [loadKMLData] does.  It fails in three
    cases only: [fetch] rejects, the response is not successful, or reading
    the text of a successful response rejects.  Otherwise there are at most
    as many points as placemarks, no two points have the same name, and every
    point comes from the placemark at the index [i] of its name [point_<i>],
    has a latitude and a longitude that are not NaN, and has a cell
    identifier that is not empty and has no white space at its ends. *)
Theorem kml_points_are_sound {RT : Runtime}
    (placemarksOf : string -> list Placemark) (outcome : FetchOutcome) :
  match loadKMLData placemarksOf outcome with
  | Throw e =>
      (outcome = FetchRejected /\ e = FetchError) \/
      (exists response : Response,
         outcome = Received response /\ ok response = false /\ e = HttpError) \/
      (outcome = TextRejected /\ e = BodyError)
  | Ok points =>
      exists response : Response,
        outcome = Received response /\ ok response = true /\
        (List.length points <= List.length (placemarksOf (text response)))%nat /\
        NoDup (List.map id points) /\
        forall p : SurveyPoint string,
          In p points ->
          isNaN (lat p) = false /\ isNaN (lng p) = false /\
          truthy (cell_id p) = true /\ trim (cell_id p) = cell_id p /\
          exists (i : nat) (pm : Placemark),
            nth_error (placemarksOf (text response)) i = Some pm /\ id p = pointId i /\
            pointOfPlacemark i pm = Some p
  end.
Proof.
  unfold loadKMLData. destruct outcome as [| |response].
  - left. split; reflexivity.
  - right. right. split; reflexivity.
  - destruct (ok response) eqn:Hok; cbn [negb].
    2:{ right. left. exists response. repeat split. exact Hok. }
    destruct (forPlacemarks_ok (placemarksOf (text response)) 0 [])
      as (new & js & -> & L & S & B & F).
    change ([] ++ new)%list with new. exists response.
    split; [reflexivity|]. split; [exact Hok|]. split; [exact L|].
    assert (M : List.map id new = List.map pointId js).
    { clear - F. induction F as [|q j new js (g & G1 & G2) F IHF]; [reflexivity|].
      simpl. rewrite IHF. f_equal. now destruct (pointOfPlacemark_some j g q G2). }
    split.
    + rewrite M. apply NoDup_map_inj; [apply pointId_inj | now apply sorted_NoDup].
    + intros p I. clear - F I.
      induction F as [|q j new js (g & G1 & G2) F IHF]; [destruct I|].
      destruct I as [<-|I]; [|now apply IHF].
      destruct (pointOfPlacemark_some j g q G2) as (Hid & Hla & Hln & Ht & Htrim).
      rewrite Nat.sub_0_r in G1. repeat (split; [assumption|]).
      exists j, g. auto.
Qed.

Example kml_example :
  let pm := fun n c => {| nameElement := n; coordinatesElement := c |} in
  match @loadKMLData engine
          (fun _ => [pm (Some " A1 ") (Some "46.5,24.5,0"); pm None (Some "1,2");
                     pm (Some " ") (Some " 1 , 2 "); pm (Some "A4") (Some "1,north");
                     pm (Some "A5") (Some "7")])
          (Received {| ok := true; text := EmptyString |}) with
  | Ok [p; q] =>
      (id p, cell_id p) = ("point_0", "A1") /\
      (num_eqb (lat p) (Fin 24.5) && num_eqb (lng p) (Fin 46.5))%bool = true /\
      (id q, cell_id q) = ("point_2", "Point_2") /\
      (num_eqb (lat q) (Fin 2) && num_eqb (lng q) (Fin 1))%bool = true
  | _ => False
  end.
Proof. vm_compute. repeat split. Qed.

(** ** The layer and the statistics *)



(** ** Class names and the fragment *)

Lemma sanitizeCssClass_safe (str : string) : allChars cssSafe (sanitizeCssClass str) = true.
Proof.
  induction str as [|c r IH]; simpl; [reflexivity|].
  rewrite IH, andb_true_r. destruct (cssSafe c) eqn:E; [exact E | reflexivity].
Qed.

Lemma sanitizeCssClass_fixed (str : string) :
  allChars cssSafe str = true -> sanitizeCssClass str = str.
Proof.
  induction str as [|c r IH]; simpl; [reflexivity|].
  intro H. apply andb_true_iff in H as [Hc Hr]. now rewrite Hc, IH.
Qed.

(** X21.  [sanitizeCssClass] returns a text of the same length made only of
    letters, digits, [_] and [-]; it changes nothing in a text that is already
    of this kind, and only such a text is left unchanged; so applying it
    twice is applying it once. *)
Theorem sanitized_class_is_safe (str : string) :
  allChars cssSafe (sanitizeCssClass str) = true /\
  String.length (sanitizeCssClass str) = String.length str /\
  (sanitizeCssClass str = str <-> allChars cssSafe str = true) /\
  sanitizeCssClass (sanitizeCssClass str) = sanitizeCssClass str.
Proof.
  split; [apply sanitizeCssClass_safe|]. split; [|split].
  - induction str as [|c r IH]; simpl; [reflexivity | now rewrite IH].
  - split; [|apply sanitizeCssClass_fixed].
    intro H. rewrite <- H. apply sanitizeCssClass_safe.
  - apply sanitizeCssClass_fixed, sanitizeCssClass_safe.
Qed.

Lemma Z_toString_cssSafe (z : Z) : allChars cssSafe (Z_toString z) = true.
Proof.
  rewrite Z_toString_eq.
  assert (H : allChars cssSafe (absDigits z) = true).
  { apply (allChars_impl isDigit); [|apply absDigits_digits].
    intros c Hc. destruct c as [[] [] [] [] [] [] [] []]; vm_compute in Hc |- *;
      first [discriminate Hc | reflexivity]. }
  destruct (z <? 0)%Z; [simpl; exact H | exact H].
Qed.

(** X22.  The compact fragment is made of letters, digits, [_] and [-] only.
    For a zoom in [0,22], a latitude in [-90,90] and a longitude in
    [-180,180], the fragment that [updateUrlState] writes is left unchanged by
    [sanitizeCssClass]; the fragment with slashes that the earlier hook wrote
    for the same position is not. *)
Theorem compact_fragment_is_class_safe {RT : Runtime} (OK : RuntimeOK RT)
    (zoom : Z) (la ln : Q) (cid : option string) (loc : URL) :
  (0 <= zoom <= 22)%Z -> (-90 <= la <= 90)%Q -> (-180 <= ln <= 180)%Q ->
  let st := {| MapState.zoom := Some (Fin (inject_Z zoom));
               MapState.lat := Some (Fin la);
               MapState.lng := Some (Fin ln);
               MapState.cellId := cid |} in
  (exists f : string,
      fragment (updateUrlState st loc) = Some f /\
      allChars cssSafe f = true /\ sanitizeCssClass f = f) /\
  (exists f : string,
      fragment (Legacy.updateUrlState st loc) = Some f /\
      allChars cssSafe f = false /\ sanitizeCssClass f <> f).
Proof.
  intros Hz Hla Hln st. split.
  - destruct (updateHash_in_range OK zoom la ln cid loc Hz Hla Hln)
      as (n1 & n2 & z' & la' & ln' & W & _).
    eexists. unfold updateUrlState. rewrite fragment_updateCellId. subst st. rewrite W.
    split; [reflexivity|].
    assert (S : allChars cssSafe
                  (compactFragment (Z_toString zoom) (Z_toString n1) (Z_toString n2)) = true).
    { unfold compactFragment. rewrite !allChars_app, !Z_toString_cssSafe. reflexivity. }
    split; [exact S | now apply sanitizeCssClass_fixed].
  - eexists. subst st. rewrite fragment_Legacy_updateUrlState. split; [reflexivity|].
    assert (S : allChars cssSafe
                  (toString (Fin (inject_Z zoom)) ++ "/" ++ toFixed 5 (Fin la) ++ "/"
                   ++ toFixed 5 (Fin ln)) = false).
    { rewrite allChars_app. simpl. now rewrite andb_false_r. }
    split; [exact S|]. intro E.
    pose proof (sanitizeCssClass_safe
                  (toString (Fin (inject_Z zoom)) ++ "/" ++ toFixed 5 (Fin la) ++ "/"
                   ++ toFixed 5 (Fin ln))) as C.
    rewrite E in C. congruence.
Qed.

Lemma compact_fragment_is_class_safe_witness :
  let st := {| MapState.zoom := Some (Fin (inject_Z 16));
               MapState.lat := Some (Fin 40.7128);
               MapState.lng := Some (Fin (-74.006));
               MapState.cellId := None |} in
  RuntimeOK engine /\
  (0 <= 16 <= 22)%Z /\ (-90 <= 40.7128 <= 90)%Q /\ (-180 <= -74.006 <= 180)%Q /\
  (exists f : string,
      fragment (@updateUrlState engine st exampleUrl) = Some f /\
      allChars cssSafe f = true /\ sanitizeCssClass f = f) /\
  (exists f : string,
      fragment (@Legacy.updateUrlState engine st exampleUrl) = Some f /\
      allChars cssSafe f = false /\ sanitizeCssClass f <> f).
Proof.
  cbv zeta. split; [exact engine_ok|].
  split; [lia|]. split; [lra|]. split; [lra|].
  apply (@compact_fragment_is_class_safe engine engine_ok 16 40.7128 (-74.006) None exampleUrl);
    [lia | lra | lra].
Defined.

(** ** The cell identifier in the address *)

(** X23.  Round trip of the cell identifier.  Whatever characters a non-empty
    identifier holds (also [&], [=], [#], [%], [+] and spaces), the address
    written by an update with that identifier decodes to the identifier,
    trimmed; the fragment, the position decoded from it and the first value
    of every other query parameter are as before. *)
Theorem cell_id_roundtrip {RT : Runtime} (c : string) (loc : URL) :
  truthy c = true ->
  let written := updateUrlState (MapState.setCellId c MapState.empty) loc in
  MapState.cellId (parseUrlState written) = Some (trim c) /\
  fragment written = fragment loc /\
  positionOf (parseUrlState written) = positionOf (parseUrlState loc) /\
  forall name : string,
    name <> "id" ->
    URLSearchParams.get name (URLSearchParams.parse (location_search written))
    = URLSearchParams.get name (URLSearchParams.parse (location_search loc)).
Proof.
  intros Ht written. split; [now apply cellId_after_search|].
  assert (E : written = update_searchParams (URLSearchParams.set "id" c) loc).
  { subst written. unfold updateUrlState.
    cbn [updateHash MapState.setCellId MapState.empty MapState.zoom].
    unfold updateCellId. cbn [MapState.cellId MapState.setCellId]. now rewrite Ht. }
  rewrite E. split; [reflexivity|]. split.
  - rewrite !positionOf_parseUrlState. reflexivity.
  - intros name Hn. rewrite searchParams_after_update.
    apply get_set_other. now apply String.eqb_neq.
Qed.

Lemma cell_id_roundtrip_witness :
  let c := " A&B=#50% +1 " in
  let loc := {| base := "https://survey.example/"; query := Some "x=1&id=old&id=older";
                fragment := Some "map_16_4071280_-7400600" |} in
  let written := @updateUrlState engine (MapState.setCellId c MapState.empty) loc in
  truthy c = true /\
  MapState.cellId (@parseUrlState engine written) = Some (trim c) /\
  fragment written = fragment loc /\
  positionOf (@parseUrlState engine written) = positionOf (@parseUrlState engine loc) /\
  forall name : string,
    name <> "id" ->
    URLSearchParams.get name (URLSearchParams.parse (location_search written))
    = URLSearchParams.get name (URLSearchParams.parse (location_search loc)).
Proof.
  cbv zeta. split; [reflexivity|].
  exact (@cell_id_roundtrip engine " A&B=#50% +1 "
           {| base := "https://survey.example/"; query := Some "x=1&id=old&id=older";
              fragment := Some "map_16_4071280_-7400600" |} eq_refl).
Defined.

Example cell_id_query_example :
  query (@updateUrlState engine (MapState.setCellId " A&B=#50% +1 " MapState.empty)
           {| base := "https://survey.example/"; query := Some "x=1&id=old&id=older";
              fragment := None |})
  = Some "x=1&id=+A%26B%3D%2350%25+%2B1+".
Proof. reflexivity. Qed.

(** ** What a decoded state can be *)

(** X24.  The state that [parseUrlState] returns is whole or empty in its
    position: either zoom, latitude and longitude are all absent, or all
    three are there and none is NaN.  Its cell identifier, when there is one,
    has no white space at its ends. *)
Theorem decoded_state_is_whole {RT : Runtime} (u : URL) :
  (positionOf (parseUrlState u) = (None, None, None) \/
   exists z la ln : num,
     positionOf (parseUrlState u) = (Some z, Some la, Some ln) /\
     isNaN z = false /\ isNaN la = false /\ isNaN ln = false) /\
  (forall c : string, MapState.cellId (parseUrlState u) = Some c -> trim c = c).
Proof.
  split.
  - rewrite positionOf_parseUrlState.
    destruct (parseHash_all_or_nothing (substringFrom 1 (location_hash u)))
      as [E|(z & la & ln & Nz & Nla & Nln & E)]; rewrite E.
    + now left.
    + right. now exists z, la, ln.
  - intros c. rewrite parseUrlState_cellId.
    destruct (URLSearchParams.get "id" _) as [v|]; [|discriminate].
    destruct (truthy v); [|discriminate].
    intro H. injection H as <-. apply trim_idem.
Qed.

(** ** Share links of the earlier hook *)

(** X25.  Share links made by the earlier hook still open.  For a zoom in
    [0,22], a latitude in [-90,90] and a longitude in [-180,180], the earlier
    [getShareableUrl] returns the text of a URL on the path of the page that
    the present [parseUrlState] decodes to the same zoom, to the latitude and
    the longitude within 1e-5, and to the trimmed cell identifier when the
    state has a non-empty one. *)
Theorem earlier_share_links_still_open {RT : Runtime} (OK : RuntimeOK RT)
    (zoom : Z) (la ln : Q) (cid : option string) (loc : URL) :
  (0 <= zoom <= 22)%Z -> (-90 <= la <= 90)%Q -> (-180 <= ln <= 180)%Q ->
  exists u : URL,
    Legacy.getShareableUrl {| FullMapState.zoom := Fin (inject_Z zoom);
                              FullMapState.lat := Fin la;
                              FullMapState.lng := Fin ln;
                              FullMapState.cellId := cid |} loc = href u /\
    base u = base loc /\
    (exists z' la' ln' : Q,
        positionOf (parseUrlState u) = (Some (Fin z'), Some (Fin la'), Some (Fin ln')) /\
        (z' == inject_Z zoom)%Q /\
        (Qabs (la' - la) <= 1 # 100000)%Q /\
        (Qabs (ln' - ln) <= 1 # 100000)%Q) /\
    MapState.cellId (parseUrlState u)
    = match cid with
      | Some c => if truthy c then Some (trim c) else None
      | None => None
      end.
Proof.
  intros Hz Hla Hln. unfold Legacy.getShareableUrl.
  cbn [FullMapState.zoom FullMapState.lat FullMapState.lng FullMapState.cellId].
  cbv zeta. eexists. split; [reflexivity|].
  assert (P : forall u,
             fragment u = Some (toString (Fin (inject_Z zoom)) ++ "/" ++ toFixed 5 (Fin la)
                                ++ "/" ++ toFixed 5 (Fin ln)) ->
             exists z' la' ln' : Q,
               positionOf (parseUrlState u) = (Some (Fin z'), Some (Fin la'), Some (Fin ln')) /\
               (z' == inject_Z zoom)%Q /\
               (Qabs (la' - la) <= 1 # 100000)%Q /\
               (Qabs (ln' - ln) <= 1 # 100000)%Q).
  { intros u F. now destruct (slashes_position OK zoom la ln u Hz Hla Hln F). }
  assert (Hc : cid = None \/ cid = Some EmptyString \/
               exists c, cid = Some c /\ truthy c = true).
  { destruct cid as [[|x c]|]; eauto. }
  destruct Hc as [->|[->|(c & -> & Hc)]]; cbn [truthy String.eqb negb]; cbv iota;
    try rewrite Hc.
  - split; [reflexivity|]. split; [now apply P|]. now rewrite parseUrlState_cellId.
  - split; [reflexivity|]. split; [now apply P|]. now rewrite parseUrlState_cellId.
  - split; [reflexivity|]. split; [now apply P|].
    rewrite parseUrlState_cellId, get_after_set. now rewrite Hc.
Qed.

Lemma earlier_share_links_still_open_witness :
  RuntimeOK engine /\
  (0 <= 15 <= 22)%Z /\ (-90 <= 40.7128 <= 90)%Q /\ (-180 <= -74.006 <= 180)%Q /\
  exists u : URL,
    @Legacy.getShareableUrl engine {| FullMapState.zoom := Fin (inject_Z 15);
                                      FullMapState.lat := Fin 40.7128;
                                      FullMapState.lng := Fin (-74.006);
                                      FullMapState.cellId := Some "A23" |} exampleUrl
    = href u /\
    base u = base exampleUrl /\
    (exists z' la' ln' : Q,
        positionOf (@parseUrlState engine u) = (Some (Fin z'), Some (Fin la'), Some (Fin ln')) /\
        (z' == inject_Z 15)%Q /\
        (Qabs (la' - 40.7128) <= 1 # 100000)%Q /\
        (Qabs (ln' - -74.006) <= 1 # 100000)%Q) /\
    MapState.cellId (@parseUrlState engine u) = Some (trim "A23").
Proof.
  split; [exact engine_ok|].
  split; [lia|]. split; [lra|]. split; [lra|].
  apply (@earlier_share_links_still_open engine engine_ok 15 40.7128 (-74.006) (Some "A23")
           exampleUrl); [lia | lra | lra].
Defined.

Example share_link_examples :
  let state := {| FullMapState.zoom := Fin 15; FullMapState.lat := Fin 40.7128;
                  FullMapState.lng := Fin (-74.006); FullMapState.cellId := Some "A 23" |} in
  @getShareableUrl engine state exampleUrl
  = "https://survey.example/?id=A+23#map_15_4071280_-7400600" /\
  @Legacy.getShareableUrl engine state exampleUrl
  = "https://survey.example/?id=A+23#15/40.71280/-74.00600".
Proof. split; reflexivity. Qed.

(** ** Opening the address that a search has written *)

(** X26.  The address written by a successful search leads back to the
    search.  After a search that finds its point, the effect run at mount on
    the resulting page (container mounted) puts off a search for the trimmed
    identifier by 1000 ms and leaves [currentMapState] alone; and that search
    succeeds and flies to the same point. *)
Theorem search_link_reopens_search {RT : Runtime}
    (query : string) (pg : Page) (mc : MapContainer) (p : SurveyPoint JSON)
    (currentMapState : FullMapState.t) :
  mapRef pg = Some mc -> mapReady mc = true ->
  JS.find (sameCellId (trim query)) (surveyPoints mc) = Ok (Some p) ->
  truthy (trim query) = true ->
  let pg' := snd (handleSearchById query pg) in
  initialEffect currentMapState pg' = (Some (1000%Z, trim query), currentMapState) /\
  fst (handleSearchById (trim query) pg') = true /\
  exists mc' : MapContainer,
    mapRef pg' = Some mc' /\
    mapRef (snd (handleSearchById (trim query) pg'))
    = Some {| surveyPoints := surveyPoints mc';
              mapReady := mapReady mc';
              commands := commands mc' ++
                          [FlyTo (lat p) (lng p) 16 (12 # 10);
                           Highlight 1200 (lat p) (lng p) 1800] |}.
Proof.
  intros Hm Hr Hf Ht. cbv zeta.
  rewrite (handleSearchById_found query pg mc p Hm Hr Hf). cbn [snd].
  set (mc' := {| surveyPoints := surveyPoints mc; mapReady := mapReady mc;
                 commands := _ |}).
  set (pg' := {| isSearching := false; searchError := None; mapRef := Some mc';
                 location := _ |}).
  assert (Hf' : JS.find (sameCellId (trim (trim query))) (surveyPoints mc') = Ok (Some p))
    by (now rewrite trim_idem).
  rewrite (handleSearchById_found (trim query) pg' mc' p eq_refl Hr Hf').
  split; [|split; [reflexivity|]].
  - unfold initialEffect. cbv zeta.
    change (location pg')
      with (updateUrlState (MapState.setCellId (trim query) MapState.empty) (location pg)).
    rewrite (cellId_after_search (trim query) (location pg) Ht), trim_idem, Ht.
    reflexivity.
  - exists mc'. split; reflexivity.
Qed.

Lemma search_link_reopens_search_witness :
  let current := {| FullMapState.zoom := Fin 4; FullMapState.lat := Fin 39.8283;
                    FullMapState.lng := Fin (-98.5795); FullMapState.cellId := None |} in
  let pg' := snd (@handleSearchById engine " a23 " examplePage) in
  mapRef examplePage = Some exampleContainer /\ mapReady exampleContainer = true /\
  JS.find (sameCellId (trim " a23 ")) (surveyPoints exampleContainer) = Ok (Some pointA23) /\
  truthy (trim " a23 ") = true /\
  @initialEffect engine current pg' = (Some (1000%Z, trim " a23 "), current) /\
  fst (@handleSearchById engine (trim " a23 ") pg') = true /\
  exists mc' : MapContainer,
    mapRef pg' = Some mc' /\
    mapRef (snd (@handleSearchById engine (trim " a23 ") pg'))
    = Some {| surveyPoints := surveyPoints mc';
              mapReady := mapReady mc';
              commands := commands mc' ++
                          [FlyTo (lat pointA23) (lng pointA23) 16 (12 # 10);
                           Highlight 1200 (lat pointA23) (lng pointA23) 1800] |}.
Proof.
  cbv zeta. do 4 (split; [reflexivity|]).
  exact (@search_link_reopens_search engine " a23 " examplePage exampleContainer pointA23
           {| FullMapState.zoom := Fin 4; FullMapState.lat := Fin 39.8283;
              FullMapState.lng := Fin (-98.5795); FullMapState.cellId := None |}
           eq_refl eq_refl eq_refl eq_refl).
Defined.

(** ** Compact fragments and the earlier decoder *)

(** X27.  The earlier decoder does not read what the present hook writes: when
    zoom, latitude and longitude of an update are there and none is NaN, the
    earlier [parseUrlState] finds no position in the address that the present
    [updateUrlState] has written. *)
Theorem earlier_decoder_misses_compact {RT : Runtime} (OK : RuntimeOK RT)
    (st : MapState.t) (loc : URL) (z la ln : num) :
  MapState.zoom st = Some z -> MapState.lat st = Some la -> MapState.lng st = Some ln ->
  isNaN z = false -> isNaN la = false -> isNaN ln = false ->
  positionOf (Legacy.parseUrlState (updateUrlState st loc)) = (None, None, None).
Proof.
  intros Hz Hla Hln Nz Nla Nln. rewrite Legacy_position.
  pose proof (updateHash_compact OK st loc z la ln Hz Hla Hln Nz Nla Nln) as F.
  unfold updateUrlState, location_hash. rewrite fragment_updateCellId, F.
  unfold compactFragment.
  change (truthy ("map_" ++ ?s)) with true. cbv iota.
  change (substringFrom 1 (String "#" ?s)) with s.
  rewrite includes_char, !mem_app.
  rewrite !(proj1 (toString_no_separator OK _)). reflexivity.
Qed.

Lemma earlier_decoder_misses_compact_witness :
  let st := {| MapState.zoom := Some (Fin 16); MapState.lat := Some (Fin 40.7128);
               MapState.lng := Some (Fin (-74.006)); MapState.cellId := None |} in
  RuntimeOK engine /\
  MapState.zoom st = Some (Fin 16) /\ MapState.lat st = Some (Fin 40.7128) /\
  MapState.lng st = Some (Fin (-74.006)) /\
  isNaN (Fin 16) = false /\ isNaN (Fin 40.7128) = false /\ isNaN (Fin (-74.006)) = false /\
  positionOf (@Legacy.parseUrlState engine (@updateUrlState engine st exampleUrl))
  = (None, None, None).
Proof.
  cbv zeta. split; [exact engine_ok|]. do 6 (split; [reflexivity|]).
  exact (@earlier_decoder_misses_compact engine engine_ok
           {| MapState.zoom := Some (Fin 16); MapState.lat := Some (Fin 40.7128);
              MapState.lng := Some (Fin (-74.006)); MapState.cellId := None |}
           exampleUrl (Fin 16) (Fin 40.7128) (Fin (-74.006))
           eq_refl eq_refl eq_refl eq_refl eq_refl eq_refl).
Defined.

(** ** How the loader fails *)

Lemma pointOfFeature_throw (i : nat) (f : JSON) (e : LoadError) :
  pointOfFeature i f = Throw e ->
  e = TypeError /\
  JS.isPointType (JS.optProp "type" (JS.prop "geometry" f)) = true /\
  destructurable (coordinatesOf f) = false.
Proof.
  unfold pointOfFeature, coordinatesOf, destructurable, JS.destructure2.
  destruct (JS.isPointType _); [|discriminate]. cbn [negb].
  set (v := JS.optProp "coordinates" (JS.prop "geometry" f)).
  destruct (JS.falsy v) eqn:Fv.
  - destruct (JS.isFinite None && JS.isFinite None)%bool; discriminate.
  - destruct v as [[| | | |l|fields]|]; try (intro H; injection H as <-; auto).
    + destruct (JS.isFinite (JS.charAt 1 s) && JS.isFinite (JS.charAt 0 s))%bool;
        [|discriminate].
      destruct (JS.charAt 1 s) as [[]|], (JS.charAt 0 s) as [[]|]; discriminate.
    + destruct (JS.isFinite (nth_error l 1) && JS.isFinite (nth_error l 0))%bool;
        [|discriminate].
      destruct (nth_error l 1) as [[]|], (nth_error l 0) as [[]|]; discriminate.
Qed.

Lemma forEachFeature_throw (fs : list JSON) :
  forall (i : nat) (acc : list (SurveyPoint JSON)) (e : LoadError),
    forEachFeature i fs acc = Throw e ->
    e = TypeError /\
    exists (j : nat) (f : JSON),
      nth_error fs j = Some f /\
      JS.isPointType (JS.optProp "type" (JS.prop "geometry" f)) = true /\
      destructurable (coordinatesOf f) = false.
Proof.
  induction fs as [|f r IH]; intros i acc e H; simpl in H; [discriminate|].
  destruct (pointOfFeature i f) as [[p|]|e'] eqn:E.
  - destruct (IH _ _ _ H) as (He & j & g & G). split; [exact He|]. now exists (S j), g.
  - destruct (IH _ _ _ H) as (He & j & g & G). split; [exact He|]. now exists (S j), g.
  - injection H as <-. destruct (pointOfFeature_throw i f e' E) as (He & P).
    split; [exact He|]. now exists 0%nat, f.
Qed.

(** X28.  How [loadGeoJSONData] fails.  A failure is one of seven: [fetch]
    rejects; or the response was not successful; or it was and reading its
    text rejects; or its text starts with [<] after trimming; or the text
    does not parse; or it parses to a value without a [features] array; or
    some feature has a Point geometry whose coordinates are a truthy value
    that is neither an array nor a string. *)
Theorem load_failures (JSON_parse : string -> option JSON) (outcome : FetchOutcome)
    (e : LoadError) :
  awaitLoadGeoJSONData JSON_parse outcome = Throw e ->
  (e = FetchError /\ outcome = FetchRejected) \/
  (e = BodyError /\ outcome = TextRejected) \/
  exists response : Response,
    outcome = Received response /\
    ((e = HttpError /\ ok response = false) \/
     (e = HtmlInsteadOfJson /\ ok response = true /\
      startsWith "<" (trim (text response)) = true) \/
     (ok response = true /\ startsWith "<" (trim (text response)) = false /\
      ((e = JsonSyntaxError /\ JSON_parse (text response) = None) \/
       exists gj : JSON,
         JSON_parse (text response) = Some gj /\
         ((e = InvalidGeoJSON /\ forall l, JS.prop "features" gj <> Some (JArray l)) \/
          (e = TypeError /\
           exists (features : list JSON) (j : nat) (f : JSON),
             JS.prop "features" gj = Some (JArray features) /\
             nth_error features j = Some f /\
             JS.isPointType (JS.optProp "type" (JS.prop "geometry" f)) = true /\
             destructurable (coordinatesOf f) = false))))).
Proof.
  unfold awaitLoadGeoJSONData. destruct outcome as [| |response].
  { intro H. injection H as <-. left. now split. }
  { intro H. injection H as <-. right. left. now split. }
  intro H. right. right. exists response. split; [reflexivity|]. revert H.
  unfold loadGeoJSONData.
  destruct (ok response); cbn [negb].
  2:{ intro H. injection H as <-. left. now split. }
  destruct (startsWith "<" _).
  { intro H. injection H as <-. right. left. now repeat split. }
  intro H. right. right. split; [reflexivity|]. split; [reflexivity|].
  destruct (JSON_parse _) as [gj|].
  2:{ injection H as <-. left. now split. }
  right. exists gj. split; [reflexivity|].
  unfold pointsOfGeoJSON in H.
  destruct (JS.prop "features" gj) as [[| | | |features|]|];
    try (injection H as <-; left; split; [reflexivity | intros l; discriminate]).
  right. destruct (forEachFeature_throw features _ _ _ H) as (He & j & f & G).
  split; [exact He|]. now exists features, j, f.
Qed.

Lemma load_failures_witness :
  let gj := featureCollection
              [feature "A1" (JArray [JNumber (Fin 46.6753); JNumber (Fin 24.7136)]);
               feature "A2" (JObject [("lng", JNumber (Fin 46.6753))])] in
  let JSON_parse := fun _ : string => Some gj in
  let outcome := Received {| ok := true; text := "{}" |} in
  awaitLoadGeoJSONData JSON_parse outcome = Throw TypeError /\
  ((TypeError = FetchError /\ outcome = FetchRejected) \/
   (TypeError = BodyError /\ outcome = TextRejected) \/
   exists response : Response,
     outcome = Received response /\
     ((TypeError = HttpError /\ ok response = false) \/
      (TypeError = HtmlInsteadOfJson /\ ok response = true /\
       startsWith "<" (trim (text response)) = true) \/
      (ok response = true /\ startsWith "<" (trim (text response)) = false /\
       ((TypeError = JsonSyntaxError /\ JSON_parse (text response) = None) \/
        exists gj : JSON,
          JSON_parse (text response) = Some gj /\
          ((TypeError = InvalidGeoJSON /\
            forall l, JS.prop "features" gj <> Some (JArray l)) \/
           (TypeError = TypeError /\
            exists (features : list JSON) (j : nat) (f : JSON),
              JS.prop "features" gj = Some (JArray features) /\
              nth_error features j = Some f /\
              JS.isPointType (JS.optProp "type" (JS.prop "geometry" f)) = true /\
              destructurable (coordinatesOf f) = false)))))).
Proof.
  cbv zeta. split; [reflexivity|].
  exact (load_failures
           (fun _ : string =>
              Some (featureCollection
                      [feature "A1" (JArray [JNumber (Fin 46.6753); JNumber (Fin 24.7136)]);
                       feature "A2" (JObject [("lng", JNumber (Fin 46.6753))])]))
           (Received {| ok := true; text := "{}" |}) TypeError eq_refl).
Defined.

(** ** Infinite coordinates *)

Section Infinite.
Context {RT : Runtime} (OK : RuntimeOK RT).

Lemma Number_toString_Inf (s : bool) : Number (toString (Inf s)) = Inf s.
Proof. destruct s; reflexivity. Qed.

Lemma scaled_Inf (s : bool) :
  Math_round (num_mul (Inf s) hundredThousand) = Inf s /\
  num_div (Inf s) hundredThousand = Inf s.
Proof.
  split; [reflexivity|]. unfold hundredThousand. cbn [num_div].
  destruct (Qlt_le_dec (100000 # 1) 0) as [H|_]; [|reflexivity].
  exfalso. revert H. apply Qle_not_lt. discriminate.
Qed.

End Infinite.

(** X29.  An update tests for NaN only, so an infinite coordinate goes
    through: for a zoom in [0,22] and a longitude in [-180,180], an update
    with an infinite latitude writes a compact fragment, and the address
    decodes to that zoom, to the same infinite latitude, and to the longitude
    within 1e-5. *)
Theorem infinite_latitude_goes_through {RT : Runtime} (OK : RuntimeOK RT)
    (zoom : Z) (negative : bool) (ln : Q) (cid : option string) (loc : URL) :
  (0 <= zoom <= 22)%Z -> (-180 <= ln <= 180)%Q ->
  let written :=
    updateUrlState {| MapState.zoom := Some (Fin (inject_Z zoom));
                      MapState.lat := Some (Inf negative);
                      MapState.lng := Some (Fin ln);
                      MapState.cellId := cid |} loc in
  (exists a b c : string, fragment written = Some (compactFragment a b c)) /\
  exists z' ln' : Q,
    positionOf (parseUrlState written)
    = (Some (Fin z'), Some (Inf negative), Some (Fin ln')) /\
    (z' == inject_Z zoom)%Q /\
    (Qabs (ln' - ln) <= 1 # 100000)%Q.
Proof.
  intros Hz Hln written.
  destruct (scaled_roundtrip OK ln) as (n2 & ln' & R2 & B2 & D2 & E2); [lra|].
  destruct (Number_Z_toString zoom) as (q & Eq & Hq).
  destruct (fl_int RT OK q zoom Hq) as (z' & Ez & Hz').
  { unfold maxSafe. lia. }
  destruct (scaled_Inf negative) as [M D].
  assert (F : fragment written
              = Some (compactFragment (Z_toString zoom) (toString (Inf negative))
                                      (Z_toString n2))).
  { subst written. unfold updateUrlState. rewrite fragment_updateCellId.
    unfold updateHash. cbn [MapState.zoom MapState.lat MapState.lng]. cbv zeta.
    rewrite M, R2. cbn [Math_round isNaN negb andb]. rewrite round_integer.
    rewrite !toString_integer by (first [assumption | unfold maxSafe; lia]).
    reflexivity. }
  split; [eauto|]. exists z', ln'.
  rewrite positionOf_parseUrlState. unfold location_hash. rewrite F.
  change (truthy (compactFragment ?a ?b ?c)) with true. cbv iota.
  change (substringFrom 1 (String "#" ?s)) with s.
  rewrite parseHash_compact;
    try (first [apply numeric_no_slash | apply numeric_no_underscore]; apply Z_toString_chars);
    try (now destruct negative).
  cbv zeta. rewrite Eq, Ez, Number_toString_Inf, D, D2. cbn [isNaN negb andb].
  split; [reflexivity|]. split; [now rewrite Hz', Hq | exact E2].
Qed.

Lemma infinite_latitude_goes_through_witness :
  let written :=
    @updateUrlState engine
      {| MapState.zoom := Some (Fin (inject_Z 16));
         MapState.lat := Some (Inf false);
         MapState.lng := Some (Fin (-74.006));
         MapState.cellId := None |} exampleUrl in
  RuntimeOK engine /\ (0 <= 16 <= 22)%Z /\ (-180 <= -74.006 <= 180)%Q /\
  (exists a b c : string, fragment written = Some (compactFragment a b c)) /\
  exists z' ln' : Q,
    positionOf (@parseUrlState engine written)
    = (Some (Fin z'), Some (Inf false), Some (Fin ln')) /\
    (z' == inject_Z 16)%Q /\
    (Qabs (ln' - -74.006) <= 1 # 100000)%Q.
Proof.
  cbv zeta. split; [exact engine_ok|]. split; [lia|]. split; [lra|].
  apply (@infinite_latitude_goes_through engine engine_ok 16 false (-74.006) None exampleUrl);
    [lia | lra].
Defined.

Example infinite_latitude_example :
  fragment (@updateUrlState engine
              {| MapState.zoom := Some (Fin 16); MapState.lat := Some (Inf true);
                 MapState.lng := Some (Fin (-74.006)); MapState.cellId := None |} exampleUrl)
  = Some "map_16_-Infinity_-7400600".
Proof. reflexivity. Qed.
